(** * TimeTracker dashboard: duration accounting, aggregate totals, CSV export

    Shallow embedding of the logic of [src/components/atoms/DashboardTable.tsx].
    The source file holds two revisions of the component:

    - the earlier one (lines 1-368): [calculateHoursWorked] with an [isNaN]
      guard, [formatHoursAndMinutes], totals kept in component state,
      [escapeCsvField] inside [handleExportCSV]  -- embedded in [Module V1];
    - the later one (lines 368-683): a shorter [calculateHoursWorked],
      [formatDuration], totals in a [useMemo], an always-quoting [escape],
      and [handleDelete] / [saveEditing]  -- embedded in [Module V2].

    Numbers.  A JavaScript number that the code keeps integer-valued (epoch
    milliseconds, hours, minutes, totals) is [JS.number]: either [NaN] or an
    integer.  The quotients formed on the way ([diffMs / 1000 / 60]) are
    rationals ([JS.ratio]).  [V1] and [V2] compute the difference of two
    instants and its quotients exactly; [V1B64] and [V2B64] are the same
    duration calculators with the result of every subtraction and division
    rounded as binary64 rounds ([Module F64]).  The two pairs agree while the
    instants are less than [exact_span] apart (lemmas [V1_exact_below_span]
    and [V2_exact_below_span]); beyond [2^53] ms the subtraction itself
    rounds, and only the rounded calculators follow the code. *)

From Stdlib Require Import ZArith QArith Qround Lia List Bool Permutation Sorted.
From Stdlib Require Import String Ascii DecimalString Lqa Qpower.
Import ListNotations.

Local Open Scope string_scope.
Local Open Scope Z_scope.

(* ================================================================== *)
(** * The fragment of JavaScript the component relies on *)

Module JS.

(** Values a [TimeLog] field holds at run time: the interface types them as
    [string], rows read from the store may carry [null], and a field that is
    missing altogether reads as [undefined]. *)
Inductive value : Type :=
| Null
| Undefined
| Str (s : string).

(** [!v] *)
Definition not (v : value) : bool :=
  match v with
  | Null | Undefined => true
  | Str EmptyString => true
  | Str (String _ _) => false
  end.

(** [String(v)] *)
Definition toStr (v : value) : string :=
  match v with
  | Null => "null"
  | Undefined => "undefined"
  | Str s => s
  end.

(** [v || ''] *)
Definition or_empty (v : value) : value :=
  if not v then Str EmptyString else v.

(** Integer-valued numbers, with [NaN]. *)
Inductive number : Type :=
| NaN
| Int (z : Z).

(** Exact quotients; [None] is [NaN]. *)
Definition ratio : Type := option Q.

Definition isNaN (n : number) : bool :=
  match n with NaN => true | Int _ => false end.

Definition add (a b : number) : number :=
  match a, b with
  | Int x, Int y => Int (x + y)
  | _, _ => NaN
  end.

(** [a - b], exact: what the code computes while the difference is below
    [2^53] in magnitude; [F64.sub] rounds beyond. *)
Definition sub (a b : number) : number :=
  match a, b with
  | Int x, Int y => Int (x - y)
  | _, _ => NaN
  end.

Definition mul (a b : number) : number :=
  match a, b with
  | Int x, Int y => Int (x * y)
  | _, _ => NaN
  end.

(** [a < k], [a > k], [a === k] against an integer literal; every
    comparison with [NaN] is false. *)
Definition lt (a : number) (k : Z) : bool :=
  match a with Int x => x <? k | NaN => false end.

Definition gt (a : number) (k : Z) : bool :=
  match a with Int x => k <? x | NaN => false end.

Definition eq (a : number) (k : Z) : bool :=
  match a with Int x => x =? k | NaN => false end.

(** [a / k] for a non-zero integer literal [k]. *)
Definition div (a : number) (k : Z) : ratio :=
  match a with
  | Int x => Some (inject_Z x / inject_Z k)%Q
  | NaN => None
  end.

(** [r / k] on a quotient already formed. *)
Definition rdiv (r : ratio) (k : Z) : ratio :=
  match r with
  | Some q => Some (q / inject_Z k)%Q
  | None => None
  end.

(** Rounding toward zero, as the remainder operator does. *)
Definition Qtrunc (q : Q) : Z := Z.quot (Qnum q) (Zpos (Qden q)).

(** [r % k] for a non-zero integer literal [k]: the result takes the sign
    of the dividend. *)
Definition rrem (r : ratio) (k : Z) : ratio :=
  match r with
  | Some q => Some (q - inject_Z k * inject_Z (Qtrunc (q / inject_Z k)))%Q
  | None => None
  end.

(** [a % k] on integer-valued numbers, [k] a non-zero literal. *)
Definition rem (a : number) (k : Z) : number :=
  match a with
  | Int x => Int (Z.rem x k)
  | NaN => NaN
  end.

(** [Math.floor] *)
Definition floor (r : ratio) : number :=
  match r with
  | Some q => Int (Qfloor q)
  | None => NaN
  end.

(** [Math.floor(a / k)] on integer-valued numbers. *)
Definition floor_div (a : number) (k : Z) : number := floor (div a k).

(** A number inside a template literal or concatenated to a string. *)
Definition numStr (n : number) : string :=
  match n with
  | NaN => "NaN"
  | Int z => NilEmpty.string_of_int (Z.to_int z)
  end.

(** [s.includes(c)] for a one-character needle. *)
Fixpoint includes (s : string) (c : ascii) : bool :=
  match s with
  | EmptyString => false
  | String a s' => if Ascii.eqb a c then true else includes s' c
  end.

(** [s.replace(/c/g, by)] for a one-character pattern. *)
Fixpoint replaceAll (c : ascii) (by_ : string) (s : string) : string :=
  match s with
  | EmptyString => EmptyString
  | String a s' =>
      if Ascii.eqb a c then (by_ ++ replaceAll c by_ s')%string
      else String a (replaceAll c by_ s')
  end.

(** [arr.join(sep)] *)
Definition join (sep : string) (arr : list string) : string :=
  String.concat sep arr.

Definition comma : ascii := ascii_of_nat 44.
Definition dquote : ascii := ascii_of_nat 34.
Definition LF : ascii := ascii_of_nat 10.
Definition CR : ascii := ascii_of_nat 13.

Definition chr (c : ascii) : string := String c EmptyString.

End JS.

(** The browser the component runs in.  [getTime s] is
    [new Date(s).getTime()] for a non-empty string [s]: epoch milliseconds,
    or [NaN] when [s] does not parse.  [toUTCString s] and
    [toLocaleString mobile s] are the renderings of [new Date(s)];
    [downloadAttr] tells whether an anchor element has a [download]
    attribute. *)
Record Env : Type := {
  getTime : string -> JS.number;
  toUTCString : string -> string;
  toLocaleString : bool -> string -> string;
  downloadAttr : bool
}.

(** One row of the [time_logs] table. *)
Record TimeLog : Type := {
  id : Z;
  task_name : JS.value;
  start_time : JS.value;
  end_time : JS.value;
  notes : JS.value
}.

(** What a handler does to the page, in order. *)
Inductive effect : Type :=
| Alert (msg : string)
| Download (filename mime content : string).

(** The reply of [supabase.from('time_logs').select('*')]. *)
Inductive reply : Type :=
| Data (data : option (list TimeLog))
| Failure (message : string).

(* ================================================================== *)
(** * Earlier revision (lines 1-368) *)

Module V1.

Record State : Type := {
  logs : list TimeLog;
  loading : bool;
  error : string;
  totalHours : JS.number;
  totalMinutes : JS.number
}.

Definition formatHoursAndMinutes (hours minutes : JS.number) : string :=
  if JS.eq hours 0 && JS.eq minutes 0 then "0h 0m"
  else if JS.eq hours 0 then JS.numStr minutes ++ "m"
  else if JS.eq minutes 0 then JS.numStr hours ++ "h"
  else JS.numStr hours ++ "h " ++ JS.numStr minutes ++ "m".

Definition headers : list string :=
  ["Task"; "Start Time"; "End Time"; "Hours Worked"; "Notes"]%string.

Definition escapeCsvField (field : JS.value) : string :=
  match field with
  | JS.Null | JS.Undefined => EmptyString
  | JS.Str _ =>
      let strField := JS.toStr field in
      if JS.includes strField JS.comma || JS.includes strField JS.dquote
         || JS.includes strField JS.LF || JS.includes strField JS.CR
      then JS.chr JS.dquote
           ++ JS.replaceAll JS.dquote (String JS.dquote (JS.chr JS.dquote)) strField
           ++ JS.chr JS.dquote
      else strField
  end.

Section WithEnv.
Variable env : Env.

Definition formatDateTime (dt : JS.value) : string :=
  if JS.not dt then EmptyString else toUTCString env (JS.toStr dt).

Definition calculateHoursWorked (startTime endTime : JS.value)
  : JS.number * JS.number :=
  if JS.not startTime || JS.not endTime then (JS.Int 0, JS.Int 0) else
  let start := getTime env (JS.toStr startTime) in
  let end_ := getTime env (JS.toStr endTime) in
  if JS.isNaN start || JS.isNaN end_ then (JS.Int 0, JS.Int 0) else
  let diffMs := JS.sub end_ start in
  if JS.lt diffMs 0 then (JS.Int 0, JS.Int 0) else
  let minutes := JS.floor (JS.rrem (JS.rdiv (JS.div diffMs 1000) 60) 60) in
  let hours := JS.floor (JS.rdiv (JS.rdiv (JS.div diffMs 1000) 60) 60) in
  (hours, minutes).

(** The body of the [forEach] in the mount effect. *)
Definition accumulate (acc : JS.number * JS.number) (log : TimeLog)
  : JS.number * JS.number :=
  let '(totalHours, totalMinutes) := acc in
  let '(hours, minutes) :=
    calculateHoursWorked (start_time log) (end_time log) in
  (JS.add totalHours hours, JS.add totalMinutes minutes).

(** Lines 85-95: accumulate, then convert excess minutes to hours. *)
Definition totals (data : list TimeLog) : JS.number * JS.number :=
  let '(totalHours, totalMinutes) :=
    fold_left accumulate data (JS.Int 0, JS.Int 0) in
  let totalHours := JS.add totalHours (JS.floor_div totalMinutes 60) in
  let totalMinutes := JS.rem totalMinutes 60 in
  (totalHours, totalMinutes).

(** The mount effect, once the store has replied. *)
Definition onFetched (r : reply) (st : State) : State :=
  match r with
  | Failure message =>
      {| logs := logs st; loading := false; error := message;
         totalHours := totalHours st; totalMinutes := totalMinutes st |}
  | Data data =>
      let rows := match data with Some l => l | None => [] end in
      let '(th, tm) := totals rows in
      {| logs := rows; loading := false; error := EmptyString;
         totalHours := th; totalMinutes := tm |}
  end.

Definition csvRow (log : TimeLog) : string :=
  let '(hours, minutes) :=
    calculateHoursWorked (start_time log) (end_time log) in
  JS.join ","
    [ escapeCsvField (task_name log);
      escapeCsvField (JS.Str (formatDateTime (start_time log)));
      escapeCsvField (JS.Str (formatDateTime (end_time log)));
      escapeCsvField (JS.Str (formatHoursAndMinutes hours minutes));
      escapeCsvField (notes log) ].

Definition csvString (logsToExport : list TimeLog) : string :=
  JS.join (JS.chr JS.LF) (JS.join "," headers :: map csvRow logsToExport).

Definition handleExportCSV (logsToExport : list TimeLog) : list effect :=
  if (List.length logsToExport =? 0)%nat then [Alert "No data to export."]
  else if downloadAttr env
       then [Download "time_logs.csv" "text/csv;charset=utf-8;"
                      (csvString logsToExport)]
       else [].

(** [onClick={() => handleExportCSV(logs)}]: the state the handler leaves
    and what it did. *)
Definition exportClick (st : State) : State * list effect :=
  (st, handleExportCSV (logs st)).

End WithEnv.
End V1.

(* ================================================================== *)
(** * [escapeCsvField] as the unnamed revision [part_002] has it
      (lines 106-115) *)

Module Part002.

Definition escapeCsvField (field : JS.value) : string :=
  match field with
  | JS.Null | JS.Undefined => EmptyString
  | JS.Str _ =>
      let strField := JS.toStr field in
      if JS.includes strField JS.comma || JS.includes strField JS.dquote
         || JS.includes strField JS.LF || JS.includes strField JS.CR
      then JS.chr JS.dquote
           ++ JS.replaceAll JS.dquote (String JS.dquote (JS.chr JS.dquote)) strField
           ++ JS.chr JS.dquote
      else strField
  end.

End Part002.

(* ================================================================== *)
(** * Later revision (lines 368-683) *)

Module V2.

Record State : Type := {
  logs : list TimeLog;
  loading : bool;
  error : string
}.

Definition setLogs (f : list TimeLog -> list TimeLog) (st : State) : State :=
  {| logs := f (logs st); loading := loading st; error := error st |}.

Definition setError (msg : string) (st : State) : State :=
  {| logs := logs st; loading := loading st; error := msg |}.

Definition formatDuration (h m : JS.number) : string :=
  if JS.eq h 0 && JS.eq m 0 then "0m"
  else (if JS.gt h 0 then JS.numStr h ++ "h " else EmptyString) ++ JS.numStr m ++ "m".

Definition headers : list string :=
  ["Task"; "Start"; "End"; "Duration"; "Notes"]%string.

Definition escape (txt : JS.value) : string :=
  JS.chr JS.dquote
  ++ JS.replaceAll JS.dquote (String JS.dquote (JS.chr JS.dquote))
       (JS.toStr (JS.or_empty txt))
  ++ JS.chr JS.dquote.

(** [handleDelete]: [confirmed] is the answer to the [confirm] dialog and
    [storeError] the [error] field of the store's reply to the delete. *)
Definition handleDelete (confirmed : bool) (storeError : option string)
           (id_ : Z) (st : State) : State :=
  if negb confirmed then st else
  let prev := logs st in
  let st := setLogs (fun p => filter (fun l => negb (id l =? id_)) p) st in
  match storeError with
  | Some _ => setLogs (fun _ => prev) (setError "Failed to delete" st)
  | None => st
  end.

Section WithEnv.
Variable env : Env.

Definition formatDateTime (dt : JS.value) (mobile : bool) : string :=
  if JS.not dt then EmptyString else toLocaleString env mobile (JS.toStr dt).

Definition calculateHoursWorked (startTime endTime : JS.value)
  : JS.number * JS.number :=
  if JS.not startTime || JS.not endTime then (JS.Int 0, JS.Int 0) else
  let diffMs := JS.sub (getTime env (JS.toStr endTime))
                       (getTime env (JS.toStr startTime)) in
  if JS.lt diffMs 0 then (JS.Int 0, JS.Int 0)
  else (JS.floor (JS.div diffMs 3600000),
        JS.floor (JS.rrem (JS.div diffMs 60000) 60)).

Definition csvRow (log : TimeLog) : string :=
  let '(h, m) := calculateHoursWorked (start_time log) (end_time log) in
  JS.join ","
    [ escape (task_name log);
      escape (JS.Str (formatDateTime (start_time log) false));
      escape (JS.Str (formatDateTime (end_time log) false));
      escape (JS.Str (formatDuration h m));
      escape (notes log) ].

Definition csvString (logs_ : list TimeLog) : string :=
  JS.join (JS.chr JS.LF) (JS.join "," headers :: map csvRow logs_).

(** [handleExportCSV] closes over [logs]. *)
Definition handleExportCSV (st : State) : State * list effect :=
  if (List.length (logs st) =? 0)%nat then (st, [])
  else (st, [Download "time_logs.csv" "text/csv;charset=utf-8;"
                      (csvString (logs st))]).

(** The body of the [forEach] in the totals memo. *)
Definition accumulate (tMin : JS.number) (l : TimeLog) : JS.number :=
  let '(h, m) := calculateHoursWorked (start_time l) (end_time l) in
  JS.add tMin (JS.add (JS.mul h (JS.Int 60)) m).

(** Lines 452-459. *)
Definition totals (logs_ : list TimeLog) : JS.number * JS.number :=
  let tMin := fold_left accumulate logs_ (JS.Int 0) in
  (JS.floor_div tMin 60, JS.rem tMin 60).

End WithEnv.
End V2.

(* ================================================================== *)
(** * The specification's wording, for comparison *)

Module Spec.

(** "contains a comma, double quote, or newline" *)
Definition special (c : ascii) : bool :=
  Ascii.eqb c JS.comma || Ascii.eqb c JS.dquote || Ascii.eqb c JS.LF.

Fixpoint needs_quoting (s : string) : bool :=
  match s with
  | EmptyString => false
  | String c s' => special c || needs_quoting s'
  end.

(** "double any embedded double quote" *)
Fixpoint double_quotes (s : string) : string :=
  match s with
  | EmptyString => EmptyString
  | String c s' =>
      if Ascii.eqb c JS.dquote
      then String JS.dquote (String JS.dquote (double_quotes s'))
      else String c (double_quotes s')
  end.

(** "wrap in double quotes" *)
Definition quoted (s : string) : string :=
  String JS.dquote (double_quotes s ++ JS.chr JS.dquote).

(** What the specification asks of two instants [a] and [b], in epoch
    milliseconds: the difference in whole seconds, split into hours and
    minutes, clamped at zero. *)
Definition duration_of (a b : Z) : JS.number * JS.number :=
  let diff := (b - a) / 1000 in
  if diff <? 0 then (JS.Int 0, JS.Int 0)
  else (JS.Int (diff / 3600), JS.Int ((diff / 60) mod 60)).

(** The text of [s] up to its first line feed. *)
Fixpoint first_line (s : string) : string :=
  match s with
  | EmptyString => EmptyString
  | String c s' => if Ascii.eqb c JS.LF then EmptyString
                   else String c (first_line s')
  end.

(** [rest] is [l] with the one element [x] taken out, order kept. *)
Definition removed {A : Type} (x : A) (l rest : list A) : Prop :=
  exists l1 l2, l = (l1 ++ x :: l2)%list /\ rest = (l1 ++ l2)%list.

(** A field that is missing, read as the empty text. *)
Definition blank (v : JS.value) : JS.value :=
  match v with
  | JS.Null | JS.Undefined => JS.Str EmptyString
  | JS.Str _ => v
  end.

(** The handler signalled something to the user. *)
Definition signalled (effs : list effect) : bool :=
  existsb (fun e => match e with Alert _ => true | _ => false end) effs.

(** The handler wrote a file. *)
Definition wrote_file (effs : list effect) : bool :=
  existsb (fun e => match e with Download _ _ _ => true | _ => false end) effs.

End Spec.

(** A browser that parses the four timestamps of the end-to-end scenario,
    two more that lie 2 h 32 min 59.999 s apart, and nothing else; used to
    run the definitions on concrete inputs. *)
Definition sample_getTime (s : string) : JS.number :=
  if (s =? "2024-01-01T09:00Z")%string then JS.Int 1704099600000
  else if (s =? "2024-01-01T11:30Z")%string then JS.Int 1704108600000
  else if (s =? "2024-01-02T08:00Z")%string then JS.Int 1704182400000
  else if (s =? "2024-01-02T08:45Z")%string then JS.Int 1704185100000
  else if (s =? "2024-01-03T10:00:00.000Z")%string then JS.Int 1704276000000
  else if (s =? "2024-01-03T12:32:59.999Z")%string then JS.Int 1704285179999
  else JS.NaN.

Definition sample_render (s : string) : string :=
  if JS.isNaN (sample_getTime s) then "Invalid Date" else s.

Definition sample_env : Env :=
  {| getTime := sample_getTime;
     toUTCString := sample_render;
     toLocaleString := fun _ => sample_render;
     downloadAttr := true |}.

Definition mkLog (i : Z) (task start_ end_ note : string) : TimeLog :=
  {| id := i; task_name := JS.Str task; start_time := JS.Str start_;
     end_time := JS.Str end_; notes := JS.Str note |}.

(** The two entries of the end-to-end scenario. *)
Definition scenario_entries : list TimeLog :=
  [ mkLog 1 "review" "2024-01-01T09:00Z" "2024-01-01T11:30Z" EmptyString;
    mkLog 2 "standup" "2024-01-02T08:00Z" "2024-01-02T08:45Z" EmptyString ].

(** Component states with nothing loaded. *)
Definition V1_empty : V1.State :=
  {| V1.logs := []; V1.loading := false; V1.error := EmptyString;
     V1.totalHours := JS.Int 0; V1.totalMinutes := JS.Int 0 |}.

Definition V2_empty : V2.State :=
  {| V2.logs := []; V2.loading := false; V2.error := EmptyString |}.

(** The list [A, B, C] of the failed-delete scenario. *)
Definition abc_entries : list TimeLog :=
  [ mkLog 1 "A" EmptyString EmptyString EmptyString;
    mkLog 2 "B" EmptyString EmptyString EmptyString;
    mkLog 3 "C" EmptyString EmptyString EmptyString ].

Definition abc_state : V2.State :=
  {| V2.logs := abc_entries; V2.loading := false; V2.error := EmptyString |}.

(* ================================================================== *)
(** * Notions used to state further properties of the code *)

Module Derived.

(** A duration in whole minutes: [h * 60 + m], as the totals memo of the
    later revision forms it. *)
Definition whole_minutes (r : JS.number * JS.number) : JS.number :=
  JS.add (JS.mul (fst r) (JS.Int 60)) (snd r).

(** The timestamps of the entry are usable: one of them is absent, or both
    parse. *)
Definition clean (env : Env) (log : TimeLog) : bool :=
  JS.not (start_time log) || JS.not (end_time log)
  || (negb (JS.isNaN (getTime env (JS.toStr (start_time log))))
      && negb (JS.isNaN (getTime env (JS.toStr (end_time log))))).

(** The whole minutes of every entry, added up in list order. *)
Definition V1_minutes (env : Env) (l : list TimeLog) : JS.number :=
  fold_right
    (fun log acc =>
       JS.add (whole_minutes
                 (V1.calculateHoursWorked env (start_time log) (end_time log)))
              acc)
    (JS.Int 0) l.

(** [tMin] of the later revision's totals memo: the whole minutes of every
    entry, accumulated from zero. *)
Definition V2_tMin (env : Env) (l : list TimeLog) : JS.number :=
  fold_left (V2.accumulate env) l (JS.Int 0).

(** The totals the earlier revision shows are those of the entries it
    shows. *)
Definition V1_consistent (env : Env) (st : V1.State) : Prop :=
  (V1.totalHours st, V1.totalMinutes st) = V1.totals env (V1.logs st).

End Derived.

(* ================================================================== *)
(** * Later revision: inline editing (lines 414-415, 419-424, 469-481 and
      the click and change handlers of the rows) *)

Module V2Edit.

(** [Partial<TimeLog>]: a key the object does not have is [None]. *)
Record Partial : Type := {
  p_id : option Z;
  p_task_name : option JS.value;
  p_start_time : option JS.value;
  p_end_time : option JS.value;
  p_notes : option JS.value
}.

(** [{}], the initial [editForm]. *)
Definition empty : Partial :=
  {| p_id := None; p_task_name := None; p_start_time := None;
     p_end_time := None; p_notes := None |}.

(** [{ ...log }] *)
Definition spread (log : TimeLog) : Partial :=
  {| p_id := Some (id log); p_task_name := Some (task_name log);
     p_start_time := Some (start_time log); p_end_time := Some (end_time log);
     p_notes := Some (notes log) |}.

Definition or_else {A : Type} (o : option A) (d : A) : A :=
  match o with Some v => v | None => d end.

(** [{ ...l, ...editForm } as TimeLog] *)
Definition merge (l : TimeLog) (f : Partial) : TimeLog :=
  {| id := or_else (p_id f) (id l);
     task_name := or_else (p_task_name f) (task_name l);
     start_time := or_else (p_start_time f) (start_time l);
     end_time := or_else (p_end_time f) (end_time l);
     notes := or_else (p_notes f) (notes l) |}.

(** The component state: [logs], [loading] and [error] as before, with
    [editingId] and [editForm]. *)
Record State : Type := {
  view : V2.State;
  editingId : option Z;
  editForm : Partial
}.

Definition init (l : list TimeLog) : State :=
  {| view := {| V2.logs := l; V2.loading := true; V2.error := EmptyString |};
     editingId := None; editForm := empty |}.

Definition setEditForm (f : Partial) (st : State) : State :=
  {| view := view st; editingId := editingId st; editForm := f |}.

Definition setEditingId (i : option Z) (st : State) : State :=
  {| view := view st; editingId := i; editForm := editForm st |}.

Definition onView (f : V2.State -> V2.State) (st : State) : State :=
  {| view := f (view st); editingId := editingId st; editForm := editForm st |}.

(** [fetchLogs], once the store has replied. *)
Definition fetchLogs (r : reply) (st : State) : State :=
  onView (fun v =>
            let v := match r with
                     | Failure message => V2.setError message v
                     | Data data =>
                         V2.setLogs (fun _ => or_else data []) v
                     end in
            {| V2.logs := V2.logs v; V2.loading := false;
               V2.error := V2.error v |}) st.

(** The pencil button of a row. *)
Definition startEditing (log : TimeLog) (st : State) : State :=
  setEditForm (spread log) (setEditingId (Some (id log)) st).

(** The cancel button of the row being edited. *)
Definition cancelEditing (st : State) : State := setEditingId None st.

(** The text inputs of the row being edited. *)
Definition changeTaskName (v : string) (st : State) : State :=
  let f := editForm st in
  setEditForm {| p_id := p_id f; p_task_name := Some (JS.Str v);
                 p_start_time := p_start_time f; p_end_time := p_end_time f;
                 p_notes := p_notes f |} st.

Definition changeNotes (v : string) (st : State) : State :=
  let f := editForm st in
  setEditForm {| p_id := p_id f; p_task_name := p_task_name f;
                 p_start_time := p_start_time f; p_end_time := p_end_time f;
                 p_notes := Some (JS.Str v) |} st.

Section WithDate.

(** [new Date(s).toISOString()]; [None] when the date is invalid and the
    call throws a [RangeError]. *)
Variable toISOString : string -> option string.

(** [new Date(v).toISOString()] for a field of the form: [null] converts to
    the epoch, a missing or [undefined] field to an invalid date. *)
Definition isoOf (v : option JS.value) : option string :=
  match v with
  | None | Some JS.Undefined => None
  | Some JS.Null => Some "1970-01-01T00:00:00.000Z"
  | Some (JS.Str s) => toISOString s
  end.

(** The date inputs of the row being edited: a value that does not convert
    makes the handler throw before it sets anything. *)
Definition changeStartTime (v : string) (st : State) : State :=
  match toISOString v with
  | None => st
  | Some iso =>
      let f := editForm st in
      setEditForm {| p_id := p_id f; p_task_name := p_task_name f;
                     p_start_time := Some (JS.Str iso);
                     p_end_time := p_end_time f; p_notes := p_notes f |} st
  end.

Definition changeEndTime (v : string) (st : State) : State :=
  match toISOString v with
  | None => st
  | Some iso =>
      let f := editForm st in
      setEditForm {| p_id := p_id f; p_task_name := p_task_name f;
                     p_start_time := p_start_time f;
                     p_end_time := Some (JS.Str iso); p_notes := p_notes f |} st
  end.

(** [saveEditing]: the argument of [update] is built first, so a date that
    does not convert throws before the store is called; [storeError] is the
    [error] field of the store's reply. *)
Definition saveEditing (storeError : option string) (id_ : Z) (st : State)
  : State :=
  match isoOf (p_start_time (editForm st)), isoOf (p_end_time (editForm st)) with
  | Some _, Some _ =>
      match storeError with
      | Some message => onView (V2.setError message) st
      | None =>
          setEditingId None
            (onView (V2.setLogs
                       (map (fun l => if id l =? id_
                                      then merge l (editForm st) else l))) st)
      end
  | _, _ => st
  end.

(** What the user can do on the table.  The inputs and the save and cancel
    buttons exist only in the row whose [id] is [editingId], and that row's
    save button passes its own [id]. *)
Inductive event : Type :=
| ClickEdit (log : TimeLog)
| ClickCancel
| TypeTaskName (v : string)
| TypeStartTime (v : string)
| TypeEndTime (v : string)
| TypeNotes (v : string)
| ClickSave (storeError : option string)
| ClickDelete (confirmed : bool) (storeError : option string) (id_ : Z).

Definition step (st : State) (ev : event) : State :=
  match ev, editingId st with
  | ClickEdit log, _ => startEditing log st
  | ClickDelete confirmed storeError id_, _ =>
      onView (V2.handleDelete confirmed storeError id_) st
  | ClickCancel, Some _ => cancelEditing st
  | TypeTaskName v, Some _ => changeTaskName v st
  | TypeStartTime v, Some _ => changeStartTime v st
  | TypeEndTime v, Some _ => changeEndTime v st
  | TypeNotes v, Some _ => changeNotes v st
  | ClickSave storeError, Some i => saveEditing storeError i st
  | _, None => st
  end.

Definition run (evs : list event) (st : State) : State :=
  fold_left step evs st.

End WithDate.

Definition is_delete (ev : event) : bool :=
  match ev with ClickDelete _ _ _ => true | _ => false end.

(** When a row is being edited, the form carries that row's [id]. *)
Definition form_matches (st : State) : Prop :=
  forall i, editingId st = Some i -> p_id (editForm st) = Some i.

Definition ids (st : State) : list Z := map id (V2.logs (view st)).

End V2Edit.

(** A date conversion that accepts what [sample_getTime] parses. *)
Definition sample_iso (s : string) : option string :=
  if JS.isNaN (sample_getTime s) then None else Some s.

(* ================================================================== *)
(** * A reader for the exported text *)

(** The exporters only write.  To say that what they write can be read, the
    reader below takes a text apart the way the exporters put it together:
    records end at a line feed, fields at a comma, a field that opens with a
    double quote runs to the next double quote that is not doubled. *)
Module Csv.

Definition is_sep (c : ascii) : bool :=
  Ascii.eqb c JS.comma || Ascii.eqb c JS.LF.

(** The text starts a new field or record, or is finished. *)
Definition at_sep (s : string) : bool :=
  match s with
  | EmptyString => true
  | String c _ => is_sep c
  end.

(** Inside quotes, after the opening quote: the field and what follows the
    closing quote. *)
Fixpoint read_quoted (s : string) : option (string * string) :=
  match s with
  | EmptyString => None
  | String c s' =>
      if Ascii.eqb c JS.dquote then
        match s' with
        | String c' s'' =>
            if Ascii.eqb c' JS.dquote
            then option_map (fun fr => (String JS.dquote (fst fr), snd fr))
                            (read_quoted s'')
            else Some (EmptyString, s')
        | EmptyString => Some (EmptyString, EmptyString)
        end
      else option_map (fun fr => (String c (fst fr), snd fr)) (read_quoted s')
  end.

(** Outside quotes: the field runs to the next separator. *)
Fixpoint read_plain (s : string) : string * string :=
  match s with
  | EmptyString => (EmptyString, EmptyString)
  | String c s' =>
      if is_sep c then (EmptyString, s)
      else let fr := read_plain s' in (String c (fst fr), snd fr)
  end.

Definition read_field (s : string) : option (string * string) :=
  match s with
  | String c s' =>
      if Ascii.eqb c JS.dquote then read_quoted s' else Some (read_plain s)
  | EmptyString => Some (EmptyString, EmptyString)
  end.

(** The records of a text; one unit of [fuel] is spent per field. *)
Fixpoint read_records (fuel : nat) (s : string) : option (list (list string)) :=
  match fuel with
  | O => None
  | S n =>
      match read_field s with
      | None => None
      | Some (f, EmptyString) => Some [[f]]
      | Some (f, String c r) =>
          if Ascii.eqb c JS.comma then
            match read_records n r with
            | Some (rec :: recs) => Some ((f :: rec) :: recs)
            | _ => None
            end
          else if Ascii.eqb c JS.LF then
            option_map (cons [f]) (read_records n r)
          else None
      end
  end.

(** [e] is a way of writing the field [f]: read in front of anything that
    starts a new field or record, it gives back [f] and leaves the rest. *)
Definition writes (e f : string) : Prop :=
  forall rest, at_sep rest = true -> read_field (e ++ rest) = Some (f, rest).

(** Records written out: fields joined by commas, records by line feeds. *)
Definition text_of (rows : list (list string)) : string :=
  JS.join (JS.chr JS.LF) (map (JS.join ",") rows).

Section WithEnv.
Variable env : Env.

(** The five texts an entry is exported with, before escaping. *)
Definition V1_record (log : TimeLog) : list string :=
  let hm := V1.calculateHoursWorked env (start_time log) (end_time log) in
  [ JS.toStr (Spec.blank (task_name log));
    V1.formatDateTime env (start_time log);
    V1.formatDateTime env (end_time log);
    V1.formatHoursAndMinutes (fst hm) (snd hm);
    JS.toStr (Spec.blank (notes log)) ].

Definition V2_record (log : TimeLog) : list string :=
  let hm := V2.calculateHoursWorked env (start_time log) (end_time log) in
  [ JS.toStr (JS.or_empty (task_name log));
    V2.formatDateTime env (start_time log) false;
    V2.formatDateTime env (end_time log) false;
    V2.formatDuration (fst hm) (snd hm);
    JS.toStr (JS.or_empty (notes log)) ].

(** Each field of an entry as the exporter writes it, with the text it
    stands for. *)
Definition V1_written (log : TimeLog) : list (string * string) :=
  let hm := V1.calculateHoursWorked env (start_time log) (end_time log) in
  [ (V1.escapeCsvField (task_name log), JS.toStr (Spec.blank (task_name log)));
    (V1.escapeCsvField (JS.Str (V1.formatDateTime env (start_time log))),
     V1.formatDateTime env (start_time log));
    (V1.escapeCsvField (JS.Str (V1.formatDateTime env (end_time log))),
     V1.formatDateTime env (end_time log));
    (V1.escapeCsvField (JS.Str (V1.formatHoursAndMinutes (fst hm) (snd hm))),
     V1.formatHoursAndMinutes (fst hm) (snd hm));
    (V1.escapeCsvField (notes log), JS.toStr (Spec.blank (notes log))) ].

Definition V2_written (log : TimeLog) : list (string * string) :=
  let hm := V2.calculateHoursWorked env (start_time log) (end_time log) in
  [ (V2.escape (task_name log), JS.toStr (JS.or_empty (task_name log)));
    (V2.escape (JS.Str (V2.formatDateTime env (start_time log) false)),
     V2.formatDateTime env (start_time log) false);
    (V2.escape (JS.Str (V2.formatDateTime env (end_time log) false)),
     V2.formatDateTime env (end_time log) false);
    (V2.escape (JS.Str (V2.formatDuration (fst hm) (snd hm))),
     V2.formatDuration (fst hm) (snd hm));
    (V2.escape (notes log), JS.toStr (JS.or_empty (notes log))) ].

End WithEnv.

(** The header names are written as they are. *)
Definition header_written (hs : list string) : list (string * string) :=
  map (fun h => (h, h)) hs.

End Csv.

(* ================================================================== *)
(** * The entry form ([src/components/atoms/TimeLogForm.tsx]) *)

(** Strings are byte strings here, so the order of [sort()] below is the
    order of the bytes; it is the order of JavaScript (UTF-16 code units)
    on ASCII text. *)
Module Form.

Definition PREDEFINED_TASKS : list string :=
  [ "Reading Papers/Theory";
    "Project Report Writing";
    "Presentation Preparation";
    "Prototype Programming";
    "Meeting/Discussion";
    "General Admin/Planning";
    "Bug Fixing" ].

(** [set.add(x)], the set kept as the list of its members in insertion
    order. *)
Definition setAdd (members : list string) (x : string) : list string :=
  if existsb (String.eqb x) members then members else (members ++ [x])%list.

(** [Array.from(new Set(xs))] *)
Definition uniq (xs : list string) : list string :=
  fold_left setAdd xs [].

(** [arr.sort()] on strings: ascending by UTF-16 code units.  A [string]
    here is a sequence of bytes and [String.leb] compares bytes; the two
    orders are the same on ASCII names ([ascii_only] below), and what is
    stated of the order is stated for those.  The language leaves the
    algorithm open; insertion is used here, and [sorted_arrangement_unique]
    below shows that the result does not depend on that choice. *)
Fixpoint insert (x : string) (l : list string) : list string :=
  match l with
  | [] => [x]
  | y :: l' => if String.leb x y then x :: l else y :: insert x l'
  end.

Definition sort (l : list string) : list string :=
  fold_right insert [] l.

(** Lines 54-60: the suggestions computed from the [task_name] column the
    store returned. *)
Definition uniqueTasks (data : list JS.value) : list string :=
  let dbTasks := map JS.toStr (filter (fun v => negb (JS.not v)) data) in
  sort (uniq (PREDEFINED_TASKS ++ dbTasks)).

(** [fetchTasks], once the store has replied: [error] tells whether the
    reply carries an error, [data] is [None] for [null]. *)
Definition fetchTasks (error : bool) (data : option (list JS.value))
           (suggestedTasks : list string) : list string :=
  match error, data with
  | false, Some d => uniqueTasks d
  | _, _ => suggestedTasks
  end.

(** [s.padStart(n, c)] for a one-character filler. *)
Definition padStart (n : nat) (c : ascii) (s : string) : string :=
  string_of_list_ascii (repeat c (n - String.length s)) ++ s.

Definition formatElapsed (seconds : JS.number) : string :=
  let m := JS.floor_div seconds 60 in
  let s := JS.rem seconds 60 in
  JS.numStr m ++ ":" ++ padStart 2 "0" (JS.numStr s).

Record State : Type := {
  taskName : string;
  notes : string;
  startTime : string;
  endTime : string;
  timerRunning : bool;
  timerStart : option Z;
  timerElapsed : JS.number;
  suggestedTasks : list string
}.

Definition initial : State :=
  {| taskName := EmptyString; notes := EmptyString; startTime := EmptyString;
     endTime := EmptyString; timerRunning := false; timerStart := None;
     timerElapsed := JS.Int 0; suggestedTasks := PREDEFINED_TASKS |}.

(** The toasts a handler raises. *)
Inductive toast : Type :=
| Loading (msg : string)
| Error (msg : string) (description : option string)
| Success (msg description : string).

(** What the call to [insert] came to: a reply without an error, a reply
    with one, or an exception. *)
Inductive outcome : Type :=
| Inserted
| Rejected (message : string)
| Threw.

Definition handleSubmit (o : outcome) (st : State) : State * list toast :=
  match o with
  | Rejected message =>
      (st, [Loading "Saving time log...";
            Error "Failed to save time log" (Some message)])
  | Threw =>
      (st, [Loading "Saving time log...";
            Error "An unexpected error occurred" None])
  | Inserted =>
      ({| taskName := EmptyString; notes := EmptyString;
          startTime := EmptyString; endTime := EmptyString;
          timerRunning := false; timerStart := None;
          timerElapsed := JS.Int 0;
          suggestedTasks :=
            sort (uniq (suggestedTasks st ++ [taskName st])) |},
       [Loading "Saving time log...";
        Success "Time log saved successfully!" ("Task: " ++ taskName st)])
  end.

Section WithClock.

(** [formatDateTimeLocal] of the instant [now]: it reads the local calendar
    of the browser, which is not modelled. *)
Variable formatDateTimeLocal : Z -> string.

(** [handleTimerClick] at the instant [now] (epoch milliseconds). *)
Definition handleTimerClick (now : Z) (st : State) : State :=
  if negb (timerRunning st) then
    {| taskName := taskName st; notes := notes st;
       startTime := formatDateTimeLocal now; endTime := EmptyString;
       timerRunning := true; timerStart := Some now;
       timerElapsed := timerElapsed st; suggestedTasks := suggestedTasks st |}
  else
    {| taskName := taskName st; notes := notes st;
       startTime := startTime st; endTime := formatDateTimeLocal now;
       timerRunning := false; timerStart := timerStart st;
       timerElapsed := timerElapsed st; suggestedTasks := suggestedTasks st |}.

End WithClock.

(** The interval callback of the timer effect at the instant [now], and the
    reset the effect does when the timer is not running. *)
Definition tick (now : Z) (st : State) : State :=
  let elapsed :=
    match timerRunning st, timerStart st with
    | true, Some t0 => JS.floor_div (JS.Int (now - t0)) 1000
    | _, _ => JS.Int 0
    end in
  {| taskName := taskName st; notes := notes st; startTime := startTime st;
     endTime := endTime st; timerRunning := timerRunning st;
     timerStart := timerStart st; timerElapsed := elapsed;
     suggestedTasks := suggestedTasks st |}.

(** The value of a decimal digit, for reading a clock text back. *)
Definition digit (c : ascii) : Z := Z.of_nat (nat_of_ascii c) - 48.

(** Ascending, as [sort()] leaves a list of ASCII names. *)
Definition ascending (l : list string) : Prop :=
  Sorted.StronglySorted (fun a b => String.leb a b = true) l.

(** Every character of the text is below 128: one byte here, one UTF-16 code
    unit in the browser, with the same number. *)
Definition ascii_only (s : string) : bool :=
  forallb (fun c => (nat_of_ascii c <? 128)%nat) (list_ascii_of_string s).

Definition ascii_names (l : list string) : bool := forallb ascii_only l.

End Form.

(** Entries whose texts hold what a CSV reader trips over: a comma, double
    quotes, a line break, missing fields, a date that does not parse. *)
Definition tricky_entries : list TimeLog :=
  [ {| id := 1;
       task_name := JS.Str "plan, then build";
       start_time := JS.Str "2024-01-01T09:00Z";
       end_time := JS.Str "2024-01-01T11:30Z";
       notes := JS.Str ("He said, " ++ JS.chr JS.dquote ++ "hi"
                        ++ JS.chr JS.dquote ++ JS.chr JS.LF ++ "bye") |};
    {| id := 2;
       task_name := JS.Null;
       start_time := JS.Str "yesterday";
       end_time := JS.Undefined;
       notes := JS.Str EmptyString |} ].

(* ================================================================== *)
(** * The export buttons (lines 176-177 and 508-513) *)

Module Buttons.

(** [disabled={loading || logs.length === 0 || !!error}] *)
Definition V1_disabled (st : V1.State) : bool :=
  V1.loading st || (List.length (V1.logs st) =? 0)%nat
  || negb (JS.not (JS.Str (V1.error st))).

(** [disabled={loading || logs.length === 0}] *)
Definition V2_disabled (st : V2.State) : bool :=
  V2.loading st || (List.length (V2.logs st) =? 0)%nat.

(** A click on the button: a disabled button does not call its handler. *)
Definition V1_click (env : Env) (st : V1.State) : V1.State * list effect :=
  if V1_disabled st then (st, []) else V1.exportClick env st.

Definition V2_click (env : Env) (st : V2.State) : V2.State * list effect :=
  if V2_disabled st then (st, []) else V2.handleExportCSV env st.

End Buttons.

(* ================================================================== *)
(** * Later revision: what the page shows *)

(** The JSX of lines 485-683, as far as it depends on the state: whether the
    export button is disabled, the spinner or the entries (as rows of the
    desktop table and as mobile cards), and the total in the footer.  Class
    names, icons, animations and the buttons of a row are left out.  The
    state variable [error] occurs nowhere in these lines. *)
Module V2Page.

(** A place on the page that holds text, or an input with its value. *)
Inductive cell : Type :=
| Text (v : JS.value)
| Input (v : JS.value).

(** One entry on the page: its React [key] and what it holds. *)
Record entry : Type := {
  key : Z;
  cells : list cell
}.

(** [table] and [cards] are [None] while the spinner shows. *)
Record page : Type := {
  exportDisabled : bool;
  table : option (list entry);
  cards : option (list entry);
  total : string
}.

Fixpoint upto_comma (s : string) : string :=
  match s with
  | EmptyString => EmptyString
  | String c s' => if Ascii.eqb c JS.comma then EmptyString
                   else String c (upto_comma s')
  end.

(** [s.split(',')[1]] *)
Fixpoint second_piece (s : string) : JS.value :=
  match s with
  | EmptyString => JS.Undefined
  | String c s' => if Ascii.eqb c JS.comma then JS.Str (upto_comma s')
                   else second_piece s'
  end.

(** [arr.map(f)] where [f] may throw: [None] as soon as one call does. *)
Fixpoint mapM {A B : Type} (f : A -> option B) (l : list A)
  : option (list B) :=
  match l with
  | [] => Some []
  | x :: l' =>
      match f x with
      | None => None
      | Some y =>
          match mapM f l' with
          | None => None
          | Some ys => Some (y :: ys)
          end
      end
  end.

Section WithEnv.
Variable env : Env.

(** Lines 391-396 after the guard: the local date and time of [new Date(s)]
    cut to minutes; [None] when the date is invalid and [toISOString] throws
    a [RangeError]. *)
Variable localInput : string -> option string.

Definition toInputFormat (isoString : JS.value) : option string :=
  if JS.not isoString then Some EmptyString
  else localInput (JS.toStr isoString).

(** [editForm.start_time!]: a key the form does not have reads as
    [undefined]. *)
Definition formField (o : option JS.value) : JS.value :=
  V2Edit.or_else o JS.Undefined.

(** [editingId === log.id] *)
Definition isEditing (st : V2Edit.State) (log : TimeLog) : bool :=
  match V2Edit.editingId st with
  | Some i => i =? id log
  | None => false
  end.

(** [formatDuration(h, m)] of the entry, from the form while it is edited. *)
Definition duration (st : V2Edit.State) (log : TimeLog) : string :=
  let f := V2Edit.editForm st in
  let '(h, m) :=
    V2.calculateHoursWorked env
      (if isEditing st log then formField (V2Edit.p_start_time f)
       else start_time log)
      (if isEditing st log then formField (V2Edit.p_end_time f)
       else end_time log) in
  V2.formatDuration h m.

(** Lines 546-590: a row of the desktop table. *)
Definition tableRow (st : V2Edit.State) (log : TimeLog) : option entry :=
  let f := V2Edit.editForm st in
  if isEditing st log then
    match toInputFormat (formField (V2Edit.p_start_time f)),
          toInputFormat (formField (V2Edit.p_end_time f)) with
    | Some s, Some e =>
        Some {| key := id log;
                cells := [ Input (formField (V2Edit.p_task_name f));
                           Input (JS.Str s);
                           Input (JS.Str e);
                           Text (JS.Str (duration st log));
                           Input (JS.or_empty (formField (V2Edit.p_notes f))) ] |}
    | _, _ => None
    end
  else
    Some {| key := id log;
            cells := [ Text (task_name log);
                       Text (JS.Str (V2.formatDateTime env (start_time log) false));
                       Text (JS.Str (V2.formatDateTime env (end_time log) false));
                       Text (JS.Str (duration st log));
                       Text (notes log) ] |}.

(** Lines 599-659: a mobile card. *)
Definition card (st : V2Edit.State) (log : TimeLog) : option entry :=
  let f := V2Edit.editForm st in
  if isEditing st log then
    match toInputFormat (formField (V2Edit.p_start_time f)),
          toInputFormat (formField (V2Edit.p_end_time f)) with
    | Some s, Some e =>
        Some {| key := id log;
                cells := [ Input (formField (V2Edit.p_task_name f));
                           Input (JS.Str s);
                           Input (JS.Str e);
                           Input (JS.or_empty (formField (V2Edit.p_notes f)));
                           Text (JS.Str ("Dur: " ++ duration st log)) ] |}
    | _, _ => None
    end
  else
    Some {| key := id log;
            cells := [ Text (task_name log);
                       Text (JS.Str (duration st log));
                       Text (JS.Str (V2.formatDateTime env (start_time log) true));
                       Text (second_piece
                               (V2.formatDateTime env (end_time log) true)) ]
                     ++ (if JS.not (notes log) then []
                         else [Text (notes log)]) |}.

(** The page drawn from the state; [None] when drawing throws. *)
Definition render (st : V2Edit.State) : option page :=
  let v := V2Edit.view st in
  let '(totalHours, totalMinutes) := V2.totals env (V2.logs v) in
  let disabled := V2.loading v || (List.length (V2.logs v) =? 0)%nat in
  let footer := V2.formatDuration totalHours totalMinutes in
  if V2.loading v then
    Some {| exportDisabled := disabled; table := None; cards := None;
            total := footer |}
  else
    match mapM (tableRow st) (V2.logs v), mapM (card st) (V2.logs v) with
    | Some t, Some c =>
        Some {| exportDisabled := disabled; table := Some t;
                cards := Some c; total := footer |}
    | _, _ => None
    end.

End WithEnv.
End V2Page.

(** The table of the failed-delete scenario, no row being edited. *)
Definition abc_table : V2Edit.State :=
  {| V2Edit.view := abc_state; V2Edit.editingId := None;
     V2Edit.editForm := V2Edit.empty |}.

(** The local date and time of what [sample_getTime] parses, in a browser
    whose zone is UTC. *)
Definition sample_input (s : string) : option string :=
  if JS.isNaN (sample_getTime s) then None else Some (substring 0 16 s).

(* ================================================================== *)
(** * The entry list in memory *)

(** [logs] is an array of references to row objects, and JavaScript lets
    whoever holds the array assign to its elements and to the fields of a
    row.  Here the array and the rows live in a store.  What a handler can
    do to them is [length_], [elem] and [field] (reads) and [set_elem] and
    [set_field] (writes); the two exporters are written with these, reading
    what the source reads in the order it reads it. *)
Module Mem.

(** [rows]: the row objects by address; [array]: the addresses [logs]
    holds, in order.  Two elements may hold the same address. *)
Record store : Type := {
  rows : list TimeLog;
  array : list nat
}.

(** What is read at an address that holds no row: every field
    [undefined]. *)
Definition blank : TimeLog :=
  {| id := 0; task_name := JS.Undefined; start_time := JS.Undefined;
     end_time := JS.Undefined; notes := JS.Undefined |}.

Definition row (s : store) (a : nat) : TimeLog := nth a (rows s) blank.

(** The entry list as the component sees it. *)
Definition entries (s : store) : list TimeLog := map (row s) (array s).

(** A computation on the store. *)
Definition M (A : Type) : Type := store -> A * store.

Definition ret {A : Type} (x : A) : M A := fun s => (x, s).

Definition bind {A B : Type} (c : M A) (k : A -> M B) : M B :=
  fun s => let '(x, s') := c s in k x s'.

Notation "x <- c ;; k" := (bind c (fun x => k))
  (at level 61, c at next level, right associativity).

(** [logs.length], [logs[i]] and [row.f] *)
Definition length_ : M nat := fun s => (List.length (array s), s).

Definition elem (i : nat) : M nat := fun s => (nth i (array s) 0%nat, s).

Definition field (a : nat) (f : TimeLog -> JS.value) : M JS.value :=
  fun s => (f (row s a), s).

Fixpoint update {A : Type} (i : nat) (x : A) (l : list A) : list A :=
  match l, i with
  | [], _ => []
  | _ :: l', O => x :: l'
  | y :: l', S i' => y :: update i' x l'
  end.

(** [logs[i] = a] and [row.notes = v], the writes an exporter could do. *)
Definition set_elem (i a : nat) : M unit :=
  fun s => (tt, {| rows := rows s; array := update i a (array s) |}).

Definition set_notes (a : nat) (v : JS.value) : M unit :=
  fun s =>
    let r := row s a in
    (tt, {| rows := update a {| id := id r; task_name := task_name r;
                                start_time := start_time r;
                                end_time := end_time r; notes := v |}
                      (rows s);
            array := array s |}).

(** [logs.map(f)]: the length is read once, then each element in turn. *)
Fixpoint map_from {B : Type} (f : nat -> M B) (i n : nat) : M (list B) :=
  match n with
  | O => ret []
  | S n' =>
      a <- elem i ;;
      b <- f a ;;
      bs <- map_from f (S i) n' ;;
      ret (b :: bs)
  end.

Definition map_array {B : Type} (f : nat -> M B) : M (list B) :=
  n <- length_ ;;
  map_from f 0 n.

Section WithEnv.
Variable env : Env.

(** Lines 123-133, the callback of [logsToExport.map]. *)
Definition V1_csvRow (log : nat) : M string :=
  s <- field log start_time ;;
  e <- field log end_time ;;
  let '(hours, minutes) := V1.calculateHoursWorked env s e in
  f1 <- field log task_name ;;
  f2 <- field log start_time ;;
  f3 <- field log end_time ;;
  f5 <- field log notes ;;
  ret (JS.join ","
         [ V1.escapeCsvField f1;
           V1.escapeCsvField (JS.Str (V1.formatDateTime env f2));
           V1.escapeCsvField (JS.Str (V1.formatDateTime env f3));
           V1.escapeCsvField (JS.Str (V1.formatHoursAndMinutes hours minutes));
           V1.escapeCsvField f5 ]).

(** Lines 104-148. *)
Definition V1_handleExportCSV : M (list effect) :=
  n <- length_ ;;
  if (n =? 0)%nat then ret [Alert "No data to export."]
  else
    csvRows <- map_array V1_csvRow ;;
    let csvString :=
      JS.join (JS.chr JS.LF) (JS.join "," V1.headers :: csvRows) in
    ret (if downloadAttr env
         then [Download "time_logs.csv" "text/csv;charset=utf-8;" csvString]
         else []).

(** Lines 430-441, the callback of [logs.map]. *)
Definition V2_csvRow (log : nat) : M string :=
  s <- field log start_time ;;
  e <- field log end_time ;;
  let '(h, m) := V2.calculateHoursWorked env s e in
  f1 <- field log task_name ;;
  f2 <- field log start_time ;;
  f3 <- field log end_time ;;
  f5 <- field log notes ;;
  ret (JS.join ","
         [ V2.escape f1;
           V2.escape (JS.Str (V2.formatDateTime env f2 false));
           V2.escape (JS.Str (V2.formatDateTime env f3 false));
           V2.escape (JS.Str (V2.formatDuration h m));
           V2.escape f5 ]).

(** Lines 427-450. *)
Definition V2_handleExportCSV : M (list effect) :=
  n <- length_ ;;
  if (n =? 0)%nat then ret []
  else
    csvRows <- map_array V2_csvRow ;;
    let csvString :=
      JS.join (JS.chr JS.LF) (JS.join "," V2.headers :: csvRows) in
    ret [Download "time_logs.csv" "text/csv;charset=utf-8;" csvString].

End WithEnv.
End Mem.

(** The two scenario entries in memory, the array holding the second one
    twice. *)
Definition shared_store : Mem.store :=
  {| Mem.rows := scenario_entries; Mem.array := [1; 0; 1]%nat |}.

(* ================================================================== *)
(** * Binary64 rounding in the duration calculator *)

(** The embedding of [calculateHoursWorked] above computes [end - start] and
    the quotients exactly.  The code computes them in binary64: the result of
    every subtraction and division is rounded to the nearest number with a
    53-bit significand.  This module makes the rounding explicit.  The
    remainder [%] and [Math.floor] are exact in binary64 and stay as they
    are. *)
Module F64.

(** [2^e] for an integer exponent. *)
Definition pow2 (e : Z) : Q :=
  match e with
  | Z0 => 1%Q
  | Zpos p => inject_Z (Z.pow_pos 2 p)
  | Zneg p => (1 # Pos.pow 2 p)%Q
  end.

(** A binary64 number: a significand of at most 53 bits at an exponent the
    format has. *)
Definition representable (x : Q) : Prop :=
  exists n e : Z,
    Z.abs n <= 2 ^ 53 /\ -1074 <= e <= 970 /\ (x == inject_Z n * pow2 e)%Q.

(** What the proofs below ask of a rounding: it keeps the order, and it
    leaves a binary64 number as it is. *)
Definition monotone (rnd : Q -> Q) : Prop :=
  forall x y : Q, (x <= y)%Q -> (rnd x <= rnd y)%Q.

Definition exact (rnd : Q -> Q) : Prop :=
  forall x : Q, representable x -> (rnd x == x)%Q.

(** [a - b] on integer-valued numbers *)
Definition sub (rnd : Q -> Q) (a b : JS.number) : JS.ratio :=
  match a, b with
  | JS.Int x, JS.Int y => Some (rnd (inject_Z (x - y)))
  | _, _ => None
  end.

(** [r < k] for an integer literal [k]; false on [NaN] *)
Definition lt (r : JS.ratio) (k : Z) : bool :=
  match r with
  | Some q => negb (Qle_bool (inject_Z k) q)
  | None => false
  end.

(** [r / k] for a non-zero integer literal [k] *)
Definition div (rnd : Q -> Q) (r : JS.ratio) (k : Z) : JS.ratio :=
  match r with
  | Some q => Some (rnd (q / inject_Z k)%Q)
  | None => None
  end.

(** The nearest integer, a tie going to the even one. *)
Definition rne (q : Q) : Z :=
  let f := Qfloor q in
  match Qcompare (q - inject_Z f) (1 # 2) with
  | Lt => f
  | Gt => f + 1
  | Eq => if Z.even f then f else f + 1
  end.

(** [floor (log2 x)] for a positive [x]. *)
Definition ilog2 (x : Q) : Z :=
  let k := Z.log2 (Qnum x) - Z.log2 (Zpos (Qden x)) in
  if Qle_bool (pow2 k) x then k else k - 1.

(** Rounding of a positive number to 53 bits. *)
Definition round_pos (x : Q) : Q :=
  let e := ilog2 x - 52 in
  (inject_Z (rne (x / pow2 e)) * pow2 e)%Q.

(** Round to nearest, ties to even, with a 53-bit significand: the rounding
    of binary64 away from its overflow and underflow thresholds, which the
    durations of this program do not come near. *)
Definition b64 (x : Q) : Q :=
  match Qcompare x 0 with
  | Eq => 0%Q
  | Gt => round_pos x
  | Lt => (- round_pos (- x))%Q
  end.

End F64.

(** [calculateHoursWorked] of the earlier revision, lines 36-52, with the
    rounding [rnd] after each subtraction and division. *)
Module V1B64.
Section WithEnv.
Variable rnd : Q -> Q.
Variable env : Env.

Definition calculateHoursWorked (startTime endTime : JS.value)
  : JS.number * JS.number :=
  if JS.not startTime || JS.not endTime then (JS.Int 0, JS.Int 0) else
  let start := getTime env (JS.toStr startTime) in
  let end_ := getTime env (JS.toStr endTime) in
  if JS.isNaN start || JS.isNaN end_ then (JS.Int 0, JS.Int 0) else
  let diffMs := F64.sub rnd end_ start in
  if F64.lt diffMs 0 then (JS.Int 0, JS.Int 0) else
  let minutes :=
    JS.floor (JS.rrem (F64.div rnd (F64.div rnd diffMs 1000) 60) 60) in
  let hours :=
    JS.floor (F64.div rnd (F64.div rnd (F64.div rnd diffMs 1000) 60) 60) in
  (hours, minutes).

End WithEnv.
End V1B64.

(** [calculateHoursWorked] of the later revision, lines 398-402, with the
    rounding [rnd] after each subtraction and division. *)
Module V2B64.
Section WithEnv.
Variable rnd : Q -> Q.
Variable env : Env.

Definition calculateHoursWorked (startTime endTime : JS.value)
  : JS.number * JS.number :=
  if JS.not startTime || JS.not endTime then (JS.Int 0, JS.Int 0) else
  let diffMs := F64.sub rnd (getTime env (JS.toStr endTime))
                            (getTime env (JS.toStr startTime)) in
  if F64.lt diffMs 0 then (JS.Int 0, JS.Int 0)
  else (JS.floor (F64.div rnd diffMs 3600000),
        JS.floor (JS.rrem (F64.div rnd diffMs 60000) 60)).

End WithEnv.
End V2B64.

(** The span below which the rounding provably changes nothing:
    [3600000 * 2^31] ms, some 245,000 years. *)
Definition exact_span : Z := 7730941132800000.

(** A browser that parses the first instant a [Date] can hold and an instant
    more than [2^53] ms later. *)
Definition far_getTime (s : string) : JS.number :=
  if (s =? "-271821-04-20T00:00:00.000Z")%string then JS.Int (-8640000000000000)
  else if (s =? "+215823-04-11T21:59:59.999Z")%string then JS.Int 6748557544799999
  else JS.NaN.

Definition far_env : Env :=
  {| getTime := far_getTime;
     toUTCString := fun s => s;
     toLocaleString := fun _ s => s;
     downloadAttr := true |}.

(* ================================================================== *)
(** * Arithmetic of the quotients *)

Section QuotientFacts.

Lemma Qtrunc_nonneg (q : Q) :
  (0 <= q)%Q -> JS.Qtrunc q = Qfloor q.
Proof.
  destruct q as [n d]. unfold Qle, JS.Qtrunc, Qfloor. simpl. intros H.
  apply Z.quot_div_nonneg; lia.
Qed.

End QuotientFacts.

Section DurationArithmetic.

Variable d : Z.
Hypothesis d_nonneg : 0 <= d.

Lemma hours_chain :
  Qfloor (inject_Z d / inject_Z 1000 / inject_Z 60 / inject_Z 60) = d / 3600000.
Proof.
  rewrite (Zdiv_Qdiv d 3600000). apply Qfloor_comp.
  change (inject_Z 3600000) with (inject_Z 1000 * inject_Z 60 * inject_Z 60)%Q.
  field; repeat split; discriminate.
Qed.

Lemma minutes_split :
  (d mod 3600000) / 60000 = (d / 60000) mod 60.
Proof.
  change 3600000 with (60000 * 60).
  rewrite Z.rem_mul_r by lia.
  rewrite (Z.mul_comm 60000), Z.div_add by lia.
  rewrite Z.div_small by (apply Z.mod_pos_bound; lia).
  reflexivity.
Qed.

(** [x % 60] followed by [Math.floor], for the quotient [x = d / 60000]
    written in any way that is equal to it as a rational. *)
Lemma floor_rem_60 (x : Q) :
  (x == inject_Z d / inject_Z 60000)%Q ->
  Qfloor (x - inject_Z 60 * inject_Z (JS.Qtrunc (x / inject_Z 60))) =
  (d / 60000) mod 60.
Proof.
  intros Hx.
  assert (Hq : (x / inject_Z 60 == inject_Z d / inject_Z 3600000)%Q).
  { rewrite Hx.
    change (inject_Z 3600000) with (inject_Z 60000 * inject_Z 60)%Q.
    field; repeat split; discriminate. }
  assert (Ht : JS.Qtrunc (x / inject_Z 60) = d / 3600000).
  { rewrite Qtrunc_nonneg.
    - rewrite (Qfloor_comp _ _ Hq). symmetry. apply Zdiv_Qdiv.
    - rewrite Hq. apply Qle_shift_div_l; [reflexivity|].
      rewrite Qmult_0_l. change 0%Q with (inject_Z 0).
      rewrite <- Zle_Qle. exact d_nonneg. }
  rewrite Ht, <- minutes_split, (Zdiv_Qdiv (d mod 3600000) 60000).
  apply Qfloor_comp. rewrite Hx.
  rewrite Z.mod_eq by lia.
  unfold Zminus. rewrite inject_Z_plus, inject_Z_opp, inject_Z_mult.
  change (inject_Z 3600000) with (inject_Z 60000 * inject_Z 60)%Q.
  field; repeat split; discriminate.
Qed.

Lemma seconds_hours : d / 1000 / 3600 = d / 3600000.
Proof. rewrite Z.div_div by lia. reflexivity. Qed.

Lemma seconds_minutes : (d / 1000 / 60) mod 60 = (d / 60000) mod 60.
Proof. rewrite Z.div_div by lia. reflexivity. Qed.

End DurationArithmetic.

(* ================================================================== *)
(** * Duration calculator *)

Section Duration.

Variable env : Env.
Variables startTime endTime : JS.value.

Lemma whole_seconds_negative (a b : Z) :
  ((b - a) / 1000 <? 0) = (b - a <? 0).
Proof.
  destruct (Z.ltb_spec (b - a) 0) as [H|H].
  - apply Z.ltb_lt. apply Z.div_lt_upper_bound; lia.
  - apply Z.ltb_ge. apply Z.div_pos; lia.
Qed.

Lemma V1_duration_parsed (a b : Z) :
  JS.not startTime = false -> JS.not endTime = false ->
  getTime env (JS.toStr startTime) = JS.Int a ->
  getTime env (JS.toStr endTime) = JS.Int b ->
  V1.calculateHoursWorked env startTime endTime = Spec.duration_of a b.
Proof.
  intros Hs He Ha Hb. unfold V1.calculateHoursWorked, Spec.duration_of.
  rewrite Hs, He, Ha, Hb. cbn [orb JS.isNaN JS.sub JS.lt].
  rewrite whole_seconds_negative.
  destruct (Z.ltb_spec (b - a) 0) as [H|H]; [reflexivity|].
  cbn [JS.div JS.rdiv JS.rrem JS.floor].
  rewrite hours_chain, seconds_hours, seconds_minutes by assumption.
  rewrite (floor_rem_60 (b - a)); [reflexivity|assumption|].
  change (inject_Z 60000) with (inject_Z 1000 * inject_Z 60)%Q.
  field; repeat split; discriminate.
Qed.

Lemma V2_duration_parsed (a b : Z) :
  JS.not startTime = false -> JS.not endTime = false ->
  getTime env (JS.toStr startTime) = JS.Int a ->
  getTime env (JS.toStr endTime) = JS.Int b ->
  V2.calculateHoursWorked env startTime endTime = Spec.duration_of a b.
Proof.
  intros Hs He Ha Hb. unfold V2.calculateHoursWorked, Spec.duration_of.
  rewrite Hs, He, Ha, Hb. cbn [orb JS.sub JS.lt].
  rewrite whole_seconds_negative.
  destruct (Z.ltb_spec (b - a) 0) as [H|H]; [reflexivity|].
  cbn [JS.div JS.rrem JS.floor].
  rewrite seconds_hours, seconds_minutes by assumption.
  rewrite (floor_rem_60 (b - a)); [|assumption|reflexivity].
  rewrite <- Zdiv_Qdiv. reflexivity.
Qed.

(** An absent operand short-circuits both revisions. *)
Lemma V1_duration_absent :
  JS.not startTime = true \/ JS.not endTime = true ->
  V1.calculateHoursWorked env startTime endTime = (JS.Int 0, JS.Int 0).
Proof.
  intros [H|H]; unfold V1.calculateHoursWorked; rewrite H;
    [|rewrite orb_true_r]; reflexivity.
Qed.

Lemma V2_duration_absent :
  JS.not startTime = true \/ JS.not endTime = true ->
  V2.calculateHoursWorked env startTime endTime = (JS.Int 0, JS.Int 0).
Proof.
  intros [H|H]; unfold V2.calculateHoursWorked; rewrite H;
    [|rewrite orb_true_r]; reflexivity.
Qed.

(** The guarded revision also clamps an operand that does not parse. *)
Lemma V1_duration_unparsable :
  getTime env (JS.toStr startTime) = JS.NaN \/
  getTime env (JS.toStr endTime) = JS.NaN ->
  V1.calculateHoursWorked env startTime endTime = (JS.Int 0, JS.Int 0).
Proof.
  intros H. unfold V1.calculateHoursWorked.
  destruct (JS.not startTime || JS.not endTime); [reflexivity|].
  destruct H as [H|H]; rewrite H; cbn [JS.isNaN orb];
    [|rewrite orb_true_r]; reflexivity.
Qed.

End Duration.

(* ================================================================== *)
(** * The remainder of a quotient *)

Section RatioFacts.

(** [x % 60] of a quotient that is not negative: between 0 and 60, and what
    [Math.floor(x / 60)] leaves of [x]. *)
Lemma rem_60_nonneg (x : Q) :
  (0 <= x)%Q ->
  let r := (x - inject_Z 60 * inject_Z (JS.Qtrunc (x / inject_Z 60)))%Q in
  JS.Qtrunc (x / inject_Z 60) = Qfloor (x / inject_Z 60) /\
  (0 <= r)%Q /\ (r < 60)%Q /\
  (inject_Z (Qfloor (x / inject_Z 60)) * 60 + r == x)%Q /\
  (0 <= Qfloor (x / inject_Z 60))%Z.
Proof.
  intros Hx r.
  assert (Hq : (0 <= x / inject_Z 60)%Q).
  { apply Qle_shift_div_l; [reflexivity|]. rewrite Qmult_0_l. exact Hx. }
  assert (Ht : JS.Qtrunc (x / inject_Z 60) = Qfloor (x / inject_Z 60))
    by (apply Qtrunc_nonneg; exact Hq).
  pose proof (Qfloor_le (x / inject_Z 60)) as Lo.
  pose proof (Qlt_floor (x / inject_Z 60)) as Hi.
  assert (Ex : (x == (x / inject_Z 60) * 60)%Q) by (field; discriminate).
  subst r. rewrite Ht.
  set (t := Qfloor (x / inject_Z 60)) in *.
  rewrite inject_Z_plus in Hi.
  change (inject_Z 60) with 60%Q in *. change (inject_Z 1) with 1%Q in *.
  repeat split.
  - lra.
  - lra.
  - ring.
  - unfold t. change 0%Z with (Qfloor 0). apply Qfloor_resp_le. exact Hq.
Qed.

End RatioFacts.

(* ================================================================== *)
(** * Rounding to 53 bits *)

Section Binary64.

Lemma pow2_Qpower (e : Z) : (F64.pow2 e == 2 ^ e)%Q.
Proof.
  destruct e as [|p|p]; unfold F64.pow2.
  - reflexivity.
  - change (inject_Z (2 ^ Z.pos p) == inject_Z 2 ^ Z.pos p)%Q.
    apply Zpower_Qpower. lia.
  - change (Z.neg p) with (- Z.pos p). rewrite Qpower_opp.
    change (1 # 2 ^ p == / inject_Z 2 ^ Z.pos p)%Q.
    rewrite <- Zpower_Qpower by lia.
    rewrite <- Pos2Z.inj_pow. reflexivity.
Qed.

Lemma pow2_pos (e : Z) : (0 < F64.pow2 e)%Q.
Proof. rewrite pow2_Qpower. apply Qpower_0_lt. reflexivity. Qed.

Lemma pow2_add (a b : Z) : (F64.pow2 (a + b) == F64.pow2 a * F64.pow2 b)%Q.
Proof. rewrite !pow2_Qpower. apply Qpower_plus. discriminate. Qed.

Lemma pow2_le (a b : Z) : a <= b -> (F64.pow2 a <= F64.pow2 b)%Q.
Proof.
  intros H. rewrite !pow2_Qpower. apply Qpower_le_compat_l; [exact H|].
  discriminate.
Qed.

Lemma pow2_whole (e : Z) : 0 <= e -> (F64.pow2 e == inject_Z (2 ^ e))%Q.
Proof. intros H. rewrite pow2_Qpower, Zpower_Qpower by exact H. reflexivity. Qed.

(** [ilog2] finds the binade of a positive number. *)
Lemma ilog2_spec (x : Q) :
  (0 < x)%Q ->
  (F64.pow2 (F64.ilog2 x) <= x)%Q /\ (x < F64.pow2 (F64.ilog2 x + 1))%Q.
Proof.
  intros Hx. unfold F64.ilog2.
  destruct x as [n dn]. cbn [Qnum Qden].
  assert (Hn : 0 < n) by (unfold Qlt in Hx; cbn in Hx; lia).
  destruct (Z.log2_spec n Hn) as [Ln Un].
  destruct (Z.log2_spec (Z.pos dn) ltac:(lia)) as [Ld Ud].
  pose proof (Z.log2_nonneg n) as Nn.
  pose proof (Z.log2_nonneg (Z.pos dn)) as Nd.
  set (a := Z.log2 n) in *. set (b := Z.log2 (Z.pos dn)) in *.
  assert (Ex : (n # dn == inject_Z n / inject_Z (Z.pos dn))%Q)
    by (rewrite Qmake_Qdiv; reflexivity).
  assert (Dpos : (0 < inject_Z (Z.pos dn))%Q) by reflexivity.
  destruct (Qle_bool (F64.pow2 (a - b)) (n # dn)) eqn:T.
  - apply Qle_bool_iff in T. split; [exact T|].
    rewrite Ex. apply Qlt_shift_div_r; [exact Dpos|].
    replace (a - b + 1) with ((a + 1) + - b) by lia.
    rewrite pow2_add.
    apply Qlt_le_trans with (F64.pow2 (a + 1) * F64.pow2 (- b) * F64.pow2 b)%Q.
    + rewrite <- Qmult_assoc, <- pow2_add.
      replace (- b + b) with 0 by lia.
      rewrite Qmult_1_r, pow2_whole by lia. rewrite <- Zlt_Qlt.
      replace (a + 1) with (Z.succ a) by lia. exact Un.
    + apply Qmult_le_l.
      * rewrite <- pow2_add. apply pow2_pos.
      * rewrite pow2_whole by lia. rewrite <- Zle_Qle. exact Ld.
  - assert (T' : ~ (F64.pow2 (a - b) <= n # dn)%Q)
      by (intros C; apply Qle_bool_iff in C; congruence).
    apply Qnot_le_lt in T'. split.
    + rewrite Ex. apply Qle_shift_div_l; [exact Dpos|].
      apply Qle_trans with (F64.pow2 (a - b - 1) * F64.pow2 (b + 1))%Q.
      * apply Qmult_le_l; [apply pow2_pos|].
        rewrite pow2_whole by lia. rewrite <- Zle_Qle.
        replace (b + 1) with (Z.succ b) by lia. lia.
      * rewrite <- pow2_add. replace (a - b - 1 + (b + 1)) with a by lia.
        rewrite pow2_whole by lia. rewrite <- Zle_Qle. exact Ln.
    + replace (a - b - 1 + 1) with (a - b) by lia. exact T'.
Qed.

Lemma ilog2_le (x y : Q) :
  (0 < x)%Q -> (x <= y)%Q -> F64.ilog2 x <= F64.ilog2 y.
Proof.
  intros Hx Hxy.
  destruct (ilog2_spec x Hx) as [Lx _].
  destruct (ilog2_spec y) as [_ Uy].
  { eapply Qlt_le_trans; eassumption. }
  destruct (Z_le_gt_dec (F64.ilog2 x) (F64.ilog2 y)) as [H|H]; [exact H|].
  exfalso.
  assert (P : (F64.pow2 (F64.ilog2 y + 1) <= F64.pow2 (F64.ilog2 x))%Q)
    by (apply pow2_le; lia).
  lra.
Qed.

Lemma Qcompare_cases (x y : Q) :
  match (x ?= y)%Q with
  | Eq => (x == y)%Q
  | Lt => (x < y)%Q
  | Gt => (y < x)%Q
  end.
Proof.
  destruct (x ?= y)%Q eqn:C;
    [apply Qeq_alt|apply Qlt_alt|apply Qgt_alt]; exact C.
Qed.

(** [rne] keeps the order and leaves an integer as it is. *)
Lemma rne_bounds (q : Q) : Qfloor q <= F64.rne q <= Qfloor q + 1.
Proof.
  unfold F64.rne.
  destruct (q - inject_Z (Qfloor q) ?= 1 # 2)%Q; [|lia|lia].
  destruct (Z.even (Qfloor q)); lia.
Qed.

Lemma rne_whole (q : Q) (n : Z) : (q == inject_Z n)%Q -> F64.rne q = n.
Proof.
  intros E. unfold F64.rne.
  assert (F : Qfloor q = n) by (rewrite E; apply Qfloor_Z).
  rewrite F.
  pose proof (Qcompare_cases (q - inject_Z n) (1 # 2)) as C.
  destruct (q - inject_Z n ?= 1 # 2)%Q; [exfalso|reflexivity|exfalso];
    rewrite E in C; lra.
Qed.

Lemma rne_le (x y : Q) : (x <= y)%Q -> F64.rne x <= F64.rne y.
Proof.
  intros H.
  pose proof (Qfloor_resp_le x y H) as F.
  pose proof (rne_bounds x) as Bx. pose proof (rne_bounds y) as By.
  destruct (Z.eq_dec (Qfloor x) (Qfloor y)) as [E|E]; [|lia].
  unfold F64.rne in *. rewrite <- E in *.
  set (f := Qfloor x) in *.
  pose proof (Qcompare_cases (x - inject_Z f) (1 # 2)) as Cx.
  pose proof (Qcompare_cases (y - inject_Z f) (1 # 2)) as Cy.
  destruct (x - inject_Z f ?= 1 # 2)%Q;
    destruct (y - inject_Z f ?= 1 # 2)%Q;
    try (destruct (Z.even f); lia); try lia; exfalso; lra.
Qed.

(** The significand of a positive number, scaled to 53 bits. *)
Lemma scaled_range (x : Q) :
  (0 < x)%Q ->
  (inject_Z (2 ^ 52) <= x / F64.pow2 (F64.ilog2 x - 52))%Q /\
  (x / F64.pow2 (F64.ilog2 x - 52) <= inject_Z (2 ^ 53))%Q.
Proof.
  intros Hx. destruct (ilog2_spec x Hx) as [L U].
  set (k := F64.ilog2 x) in *.
  pose proof (pow2_pos (k - 52)) as P.
  split.
  - apply Qle_shift_div_l; [exact P|].
    rewrite <- pow2_whole, <- pow2_add by lia.
    replace (52 + (k - 52)) with k by lia. exact L.
  - apply Qle_shift_div_r; [exact P|].
    rewrite <- pow2_whole, <- pow2_add by lia.
    replace (53 + (k - 52)) with (k + 1) by lia. apply Qlt_le_weak. exact U.
Qed.

Lemma round_pos_bounds (x : Q) :
  (0 < x)%Q ->
  (F64.pow2 (F64.ilog2 x) <= F64.round_pos x)%Q /\
  (F64.round_pos x <= F64.pow2 (F64.ilog2 x + 1))%Q.
Proof.
  intros Hx. destruct (scaled_range x Hx) as [L U].
  unfold F64.round_pos. set (k := F64.ilog2 x) in *.
  pose proof (pow2_pos (k - 52)) as P.
  apply rne_le in L. apply rne_le in U.
  rewrite (rne_whole (inject_Z (2 ^ 52)) (2 ^ 52)) in L by reflexivity.
  rewrite (rne_whole (inject_Z (2 ^ 53)) (2 ^ 53)) in U by reflexivity.
  rewrite Zle_Qle in L, U.
  split.
  - replace k with (52 + (k - 52)) at 1 by lia.
    rewrite pow2_add, (pow2_whole 52) by lia.
    apply Qmult_le_compat_r; [exact L|apply Qlt_le_weak; exact P].
  - replace (k + 1) with (53 + (k - 52)) by lia.
    rewrite pow2_add, (pow2_whole 53) by lia.
    apply Qmult_le_compat_r; [exact U|apply Qlt_le_weak; exact P].
Qed.

Lemma round_pos_le (x y : Q) :
  (0 < x)%Q -> (x <= y)%Q -> (F64.round_pos x <= F64.round_pos y)%Q.
Proof.
  intros Hx Hxy.
  assert (Hy : (0 < y)%Q) by (eapply Qlt_le_trans; eassumption).
  pose proof (ilog2_le x y Hx Hxy) as K.
  destruct (Z.eq_dec (F64.ilog2 x) (F64.ilog2 y)) as [E|E].
  - unfold F64.round_pos. rewrite <- E.
    pose proof (pow2_pos (F64.ilog2 x - 52)) as P.
    apply Qmult_le_compat_r; [|apply Qlt_le_weak; exact P].
    rewrite <- Zle_Qle. apply rne_le.
    apply Qmult_le_compat_r; [exact Hxy|].
    apply Qlt_le_weak, Qinv_lt_0_compat. exact P.
  - destruct (round_pos_bounds x Hx) as [_ Ux].
    destruct (round_pos_bounds y Hy) as [Ly _].
    assert (P : (F64.pow2 (F64.ilog2 x + 1) <= F64.pow2 (F64.ilog2 y))%Q)
      by (apply pow2_le; lia).
    lra.
Qed.

Lemma round_pos_pos (x : Q) : (0 < x)%Q -> (0 < F64.round_pos x)%Q.
Proof.
  intros Hx. destruct (round_pos_bounds x Hx) as [L _].
  pose proof (pow2_pos (F64.ilog2 x)). lra.
Qed.

Lemma b64_monotone : F64.monotone F64.b64.
Proof.
  intros x y H. unfold F64.b64.
  pose proof (Qcompare_cases x 0) as Cx.
  pose proof (Qcompare_cases y 0) as Cy.
  destruct (x ?= 0)%Q; destruct (y ?= 0)%Q; try (exfalso; lra).
  - lra.
  - pose proof (round_pos_pos y Cy). lra.
  - pose proof (round_pos_pos (- x) ltac:(lra)). lra.
  - pose proof (round_pos_le (- y) (- x) ltac:(lra) ltac:(lra)). lra.
  - pose proof (round_pos_pos (- x) ltac:(lra)).
    pose proof (round_pos_pos y Cy). lra.
  - apply round_pos_le; assumption.
Qed.

Lemma round_pos_exact (x : Q) (n e : Z) :
  0 < n <= 2 ^ 53 -> (x == inject_Z n * F64.pow2 e)%Q ->
  (F64.round_pos x == x)%Q.
Proof.
  intros Hn E.
  assert (N : exists n' e', 0 < n' < 2 ^ 53 /\
                            (x == inject_Z n' * F64.pow2 e')%Q).
  { destruct (Z.eq_dec n (2 ^ 53)) as [T|T].
    - exists (2 ^ 52), (e + 1). split; [lia|].
      rewrite E, T, pow2_add.
      change (F64.pow2 1) with (inject_Z 2).
      rewrite (Qmult_comm (F64.pow2 e)), Qmult_assoc, <- inject_Z_mult.
      reflexivity.
    - exists n, e. split; [lia|exact E]. }
  clear n e Hn E. destruct N as (n & e & Hn & E).
  pose proof (pow2_pos e) as Pe.
  assert (Hx : (0 < x)%Q).
  { rewrite E. apply Qmult_lt_0_compat; [|exact Pe].
    change 0%Q with (inject_Z 0). rewrite <- Zlt_Qlt. lia. }
  destruct (ilog2_spec x Hx) as [L _].
  unfold F64.round_pos. set (k := F64.ilog2 x) in *.
  assert (K : k - 52 <= e).
  { destruct (Z_le_gt_dec (k - 52) e) as [H|H]; [exact H|]. exfalso.
    assert (P : (F64.pow2 (53 + e) <= F64.pow2 k)%Q) by (apply pow2_le; lia).
    rewrite pow2_add, pow2_whole in P by lia.
    assert (S : (inject_Z n * F64.pow2 e < inject_Z (2 ^ 53) * F64.pow2 e)%Q).
    { apply Qmult_lt_compat_r; [exact Pe|]. rewrite <- Zlt_Qlt. lia. }
    lra. }
  pose proof (pow2_pos (k - 52)) as P.
  assert (W : (x / F64.pow2 (k - 52) == inject_Z (n * 2 ^ (e - (k - 52))))%Q).
  { rewrite E, inject_Z_mult, <- pow2_whole by lia.
    replace e with ((e - (k - 52)) + (k - 52)) at 1 by lia.
    rewrite pow2_add. field. lra. }
  rewrite (rne_whole _ _ W), <- W. field. lra.
Qed.

Lemma b64_exact : F64.exact F64.b64.
Proof.
  intros x (n & e & Hn & _ & E). unfold F64.b64.
  pose proof (pow2_pos e) as Pe.
  destruct (Z.lt_trichotomy n 0) as [N|[N|N]].
  - assert (Hx : (x < 0)%Q).
    { rewrite E. setoid_replace 0%Q with (0 * F64.pow2 e)%Q by ring.
      apply Qmult_lt_compat_r; [exact Pe|].
      change 0%Q with (inject_Z 0). rewrite <- Zlt_Qlt. exact N. }
    pose proof (Qcompare_cases x 0) as C.
    destruct (x ?= 0)%Q; try (exfalso; lra).
    rewrite (round_pos_exact (- x) (- n) e); [ring|lia|].
    rewrite E, inject_Z_opp. ring.
  - assert (Hx : (x == 0)%Q) by (rewrite E, N; ring).
    pose proof (Qcompare_cases x 0) as C.
    destruct (x ?= 0)%Q; try (exfalso; lra). symmetry. exact Hx.
  - assert (Hx : (0 < x)%Q).
    { rewrite E. apply Qmult_lt_0_compat; [|exact Pe].
      change 0%Q with (inject_Z 0). rewrite <- Zlt_Qlt. exact N. }
    pose proof (Qcompare_cases x 0) as C.
    destruct (x ?= 0)%Q; try (exfalso; lra).
    apply (round_pos_exact x n e); [lia|exact E].
Qed.

End Binary64.

(* ================================================================== *)
(** * Rounded quotients *)

Section Rounding.

Variable rnd : Q -> Q.
Hypothesis rnd_monotone : F64.monotone rnd.
Hypothesis rnd_exact : F64.exact rnd.

Lemma rnd_int (k : Z) :
  Z.abs k <= 2 ^ 53 -> (rnd (inject_Z k) == inject_Z k)%Q.
Proof.
  intros H. apply rnd_exact. exists k, 0. repeat split; try lia.
  cbn [F64.pow2]. ring.
Qed.

(** Just below a whole number there is a binary64 number, as long as the
    whole number leaves the bits for it. *)
Lemma below_representable (B : Z) (j : positive) :
  0 < B -> B * Zpos (Pos.pow 2 j) <= 2 ^ 53 -> (Zpos j <= 1074)%Z ->
  F64.representable (inject_Z B - (1 # Pos.pow 2 j))%Q.
Proof.
  intros HB Hbits Hj.
  exists (B * Zpos (Pos.pow 2 j) - 1), (Zneg j). repeat split; try lia.
  cbn [F64.pow2]. unfold Qeq, Qminus, Qplus, Qopp, Qmult, inject_Z. cbn.
  nia.
Qed.

(** One division of the chain: whole-number bounds on the dividend become
    bounds on the rounded quotient, with room kept below the upper one. *)
Lemma quotient_bounds (c A B : Z) (u u' x : Q) :
  0 < c -> Z.abs A <= 2 ^ 53 ->
  F64.representable (inject_Z B - u')%Q ->
  (u' * inject_Z c <= u)%Q ->
  (inject_Z A * inject_Z c <= x)%Q ->
  (x <= inject_Z B * inject_Z c - u)%Q ->
  (inject_Z A <= rnd (x / inject_Z c))%Q /\
  (rnd (x / inject_Z c) <= inject_Z B - u')%Q.
Proof.
  intros Hc HA HB Hu Lo Hi.
  assert (Pc : (0 < inject_Z c)%Q)
    by (change 0%Q with (inject_Z 0); rewrite <- Zlt_Qlt; exact Hc).
  split.
  - rewrite <- (rnd_int A HA). apply rnd_monotone.
    apply Qle_shift_div_l; assumption.
  - rewrite <- (rnd_exact _ HB). apply rnd_monotone.
    apply Qle_shift_div_r; [exact Pc|].
    eapply Qle_trans; [exact Hi|]. lra.
Qed.

Lemma floor_between (m : Z) (u y : Q) :
  (0 < u)%Q -> (inject_Z m <= y)%Q -> (y <= inject_Z (m + 1) - u)%Q ->
  Qfloor y = m.
Proof.
  intros Hu Lo Hi.
  assert (L : m <= Qfloor y)
    by (rewrite <- (Qfloor_Z m); apply Qfloor_resp_le; exact Lo).
  assert (U : Qfloor y < m + 1).
  { rewrite Zlt_Qlt. eapply Qle_lt_trans; [apply Qfloor_le|]. lra. }
  lia.
Qed.

Lemma rem_floor_between (M : Z) (u y : Q) :
  0 <= M -> (0 < u)%Q ->
  (inject_Z M <= y)%Q -> (y <= inject_Z (M + 1) - u)%Q ->
  Qfloor (y - inject_Z 60 * inject_Z (JS.Qtrunc (y / inject_Z 60))) = M mod 60.
Proof.
  intros HM Hu Lo Hi.
  assert (Hy : (0 <= y)%Q).
  { eapply Qle_trans; [|exact Lo]. change 0%Q with (inject_Z 0).
    rewrite <- Zle_Qle. exact HM. }
  destruct (rem_60_nonneg y Hy) as (Ht & _ & _ & Eq & _).
  pose proof (Z.div_mod M 60 ltac:(lia)) as DM.
  pose proof (Z.mod_pos_bound M 60 ltac:(lia)) as MB.
  assert (Et : Qfloor (y / inject_Z 60) = M / 60).
  { apply (floor_between (M / 60) (u * (1 # 60))).
    - lra.
    - apply Qle_shift_div_l; [reflexivity|].
      eapply Qle_trans; [|exact Lo].
      rewrite <- inject_Z_mult, <- Zle_Qle. lia.
    - apply Qle_shift_div_r; [reflexivity|].
      eapply Qle_trans; [exact Hi|].
      assert (E : (inject_Z (M + 1) <= inject_Z ((M / 60 + 1) * 60))%Q)
        by (rewrite <- Zle_Qle; lia).
      rewrite inject_Z_mult in E. change (inject_Z 60) with 60%Q in *.
      lra. }
  rewrite Ht, Et in *.
  apply (floor_between (M mod 60) u); [exact Hu| |].
  - assert (E : (inject_Z M == inject_Z (60 * (M / 60)) + inject_Z (M mod 60))%Q)
      by (rewrite <- inject_Z_plus, <- DM; reflexivity).
    rewrite inject_Z_mult in E. change (inject_Z 60) with 60%Q in *. lra.
  - assert (E : (inject_Z (M + 1)
                 == inject_Z (60 * (M / 60)) + inject_Z (M mod 60 + 1))%Q)
      by (rewrite <- inject_Z_plus; apply inject_Z_injective; lia).
    rewrite inject_Z_mult in E. change (inject_Z 60) with 60%Q in *. lra.
Qed.

End Rounding.

Section RoundedChains.

Variable rnd : Q -> Q.
Hypothesis rnd_monotone : F64.monotone rnd.
Hypothesis rnd_exact : F64.exact rnd.

Variable d : Z.
Hypothesis d_range : 0 <= d < exact_span.
Variable y0 : Q.
Hypothesis y0_exact : (y0 == inject_Z d)%Q.

Local Ltac whole_bounds :=
  first
    [ lia
    | (rewrite y0_exact, <- inject_Z_mult, <- Zle_Qle; lia)
    | (unfold Qle; cbn; lia)
    | (apply (below_representable _ 10%positive);
       change (Pos.pow 2 10) with 1024%positive; lia)
    | (apply (below_representable _ 16%positive);
       change (Pos.pow 2 16) with 65536%positive; lia)
    | (apply (below_representable _ 22%positive);
       change (Pos.pow 2 22) with 4194304%positive; lia) ].

Lemma upper_whole (B c : Z) :
  d <= B * c - 1 -> (y0 <= inject_Z B * inject_Z c - 1)%Q.
Proof.
  intros H. rewrite y0_exact. rewrite Zle_Qle in H.
  unfold Z.sub in H. rewrite inject_Z_plus, inject_Z_mult, inject_Z_opp in H.
  change (inject_Z 1) with 1%Q in H. lra.
Qed.

(** [Math.floor(diffMs / 1000 / 60 / 60)] *)
Lemma V1_hours_rounded :
  Qfloor (rnd (rnd (rnd (y0 / inject_Z 1000) / inject_Z 60) / inject_Z 60))
  = d / 3600000.
Proof.
  unfold exact_span in d_range.
  pose proof (Z.div_mod d 3600000 ltac:(lia)) as DM.
  pose proof (Z.mod_pos_bound d 3600000 ltac:(lia)) as MB.
  set (m := d / 3600000) in *.
  assert (Hm : 0 <= m < 2147483648) by lia.
  destruct (quotient_bounds rnd rnd_monotone rnd_exact
              1000 (3600 * m) (3600 * (m + 1)) 1 (1 # 1024) y0)
    as [L1 U1]; try whole_bounds.
  { apply upper_whole. lia. }
  destruct (quotient_bounds rnd rnd_monotone rnd_exact
              60 (60 * m) (60 * (m + 1)) (1 # 1024) (1 # 65536)
              (rnd (y0 / inject_Z 1000)))
    as [L2 U2]; try whole_bounds.
  { eapply Qle_trans; [|exact L1]. rewrite <- inject_Z_mult, <- Zle_Qle. lia. }
  { eapply Qle_trans; [exact U1|].
    assert (E : (inject_Z (3600 * (m + 1))
                 == inject_Z (60 * (m + 1)) * inject_Z 60)%Q)
      by (rewrite <- inject_Z_mult; apply inject_Z_injective; lia).
    rewrite E. lra. }
  destruct (quotient_bounds rnd rnd_monotone rnd_exact
              60 m (m + 1) (1 # 65536) (1 # 4194304)
              (rnd (rnd (y0 / inject_Z 1000) / inject_Z 60)))
    as [L3 U3]; try whole_bounds.
  { eapply Qle_trans; [|exact L2]. rewrite <- inject_Z_mult, <- Zle_Qle. lia. }
  { eapply Qle_trans; [exact U2|].
    assert (E : (inject_Z (60 * (m + 1)) == inject_Z (m + 1) * inject_Z 60)%Q)
      by (rewrite <- inject_Z_mult; apply inject_Z_injective; lia).
    rewrite E. lra. }
  apply (floor_between m (1 # 4194304)); [reflexivity|exact L3|exact U3].
Qed.

(** [Math.floor((diffMs / 1000 / 60) % 60)] *)
Lemma V1_minutes_rounded :
  Qfloor (rnd (rnd (y0 / inject_Z 1000) / inject_Z 60)
          - inject_Z 60
            * inject_Z (JS.Qtrunc
                          (rnd (rnd (y0 / inject_Z 1000) / inject_Z 60)
                           / inject_Z 60)))
  = (d / 60000) mod 60.
Proof.
  unfold exact_span in d_range.
  pose proof (Z.div_mod d 60000 ltac:(lia)) as DM.
  pose proof (Z.mod_pos_bound d 60000 ltac:(lia)) as MB.
  set (M := d / 60000) in *.
  assert (HM : 0 <= M < 128849018880) by lia.
  destruct (quotient_bounds rnd rnd_monotone rnd_exact
              1000 (60 * M) (60 * (M + 1)) 1 (1 # 1024) y0)
    as [L1 U1]; try whole_bounds.
  { apply upper_whole. lia. }
  destruct (quotient_bounds rnd rnd_monotone rnd_exact
              60 M (M + 1) (1 # 1024) (1 # 65536)
              (rnd (y0 / inject_Z 1000)))
    as [L2 U2]; try whole_bounds.
  { eapply Qle_trans; [|exact L1]. rewrite <- inject_Z_mult, <- Zle_Qle. lia. }
  { eapply Qle_trans; [exact U1|].
    assert (E : (inject_Z (60 * (M + 1)) == inject_Z (M + 1) * inject_Z 60)%Q)
      by (rewrite <- inject_Z_mult; apply inject_Z_injective; lia).
    rewrite E. lra. }
  apply (rem_floor_between M (1 # 65536));
    [lia|reflexivity|exact L2|exact U2].
Qed.

(** [Math.floor(diffMs / 3600000)] *)
Lemma V2_hours_rounded :
  Qfloor (rnd (y0 / inject_Z 3600000)) = d / 3600000.
Proof.
  unfold exact_span in d_range.
  pose proof (Z.div_mod d 3600000 ltac:(lia)) as DM.
  pose proof (Z.mod_pos_bound d 3600000 ltac:(lia)) as MB.
  set (m := d / 3600000) in *.
  assert (Hm : 0 <= m < 2147483648) by lia.
  destruct (quotient_bounds rnd rnd_monotone rnd_exact
              3600000 m (m + 1) 1 (1 # 4194304) y0)
    as [L1 U1]; try whole_bounds.
  { apply upper_whole. lia. }
  apply (floor_between m (1 # 4194304)); [reflexivity|exact L1|exact U1].
Qed.

(** [Math.floor((diffMs / 60000) % 60)] *)
Lemma V2_minutes_rounded :
  Qfloor (rnd (y0 / inject_Z 60000)
          - inject_Z 60
            * inject_Z (JS.Qtrunc (rnd (y0 / inject_Z 60000) / inject_Z 60)))
  = (d / 60000) mod 60.
Proof.
  unfold exact_span in d_range.
  pose proof (Z.div_mod d 60000 ltac:(lia)) as DM.
  pose proof (Z.mod_pos_bound d 60000 ltac:(lia)) as MB.
  set (M := d / 60000) in *.
  assert (HM : 0 <= M < 128849018880) by lia.
  destruct (quotient_bounds rnd rnd_monotone rnd_exact
              60000 M (M + 1) 1 (1 # 65536) y0)
    as [L1 U1]; try whole_bounds.
  { apply upper_whole. lia. }
  apply (rem_floor_between M (1 # 65536));
    [lia|reflexivity|exact L1|exact U1].
Qed.

End RoundedChains.

(* ================================================================== *)
(** * The duration calculator under rounding *)

Section RoundedDuration.

Variable rnd : Q -> Q.
Hypothesis rnd_monotone : F64.monotone rnd.
Hypothesis rnd_exact : F64.exact rnd.

Variable env : Env.
Variables startTime endTime : JS.value.
Variables a b : Z.
Hypothesis start_present : JS.not startTime = false.
Hypothesis end_present : JS.not endTime = false.
Hypothesis start_parsed : getTime env (JS.toStr startTime) = JS.Int a.
Hypothesis end_parsed : getTime env (JS.toStr endTime) = JS.Int b.

(** A negative difference stays negative however far apart the instants
    are: it rounds to [-1] at most. *)
Lemma rounded_difference_negative :
  b - a < 0 -> F64.lt (F64.sub rnd (JS.Int b) (JS.Int a)) 0 = true.
Proof.
  intros H. cbn [F64.sub F64.lt].
  assert (L : (rnd (inject_Z (b - a)) <= rnd (inject_Z (-1)))%Q)
    by (apply rnd_monotone; rewrite <- Zle_Qle; lia).
  rewrite (rnd_int rnd rnd_exact (-1)) in L by (cbn; lia).
  destruct (Qle_bool (inject_Z 0) (rnd (inject_Z (b - a)))) eqn:T;
    [|reflexivity].
  apply Qle_bool_iff in T. exfalso.
  change (inject_Z 0) with 0%Q in T. change (inject_Z (-1)) with (-1)%Q in L.
  lra.
Qed.

Lemma rounded_difference_exact :
  0 <= b - a < exact_span ->
  (rnd (inject_Z (b - a)) == inject_Z (b - a))%Q.
Proof.
  intros H. unfold exact_span in H. apply (rnd_int rnd rnd_exact). lia.
Qed.

Lemma rounded_difference_nonneg :
  0 <= b - a < exact_span ->
  F64.lt (F64.sub rnd (JS.Int b) (JS.Int a)) 0 = false.
Proof.
  intros H. cbn [F64.sub F64.lt].
  assert (T : Qle_bool (inject_Z 0) (rnd (inject_Z (b - a))) = true).
  { apply Qle_bool_iff. rewrite (rounded_difference_exact H).
    rewrite <- Zle_Qle. lia. }
  rewrite T. reflexivity.
Qed.

Lemma V1B64_duration_negative :
  b - a < 0 ->
  V1B64.calculateHoursWorked rnd env startTime endTime = (JS.Int 0, JS.Int 0).
Proof.
  intros H. unfold V1B64.calculateHoursWorked.
  rewrite start_present, end_present, start_parsed, end_parsed.
  cbn [orb JS.isNaN]. rewrite (rounded_difference_negative H). reflexivity.
Qed.

Lemma V2B64_duration_negative :
  b - a < 0 ->
  V2B64.calculateHoursWorked rnd env startTime endTime = (JS.Int 0, JS.Int 0).
Proof.
  intros H. unfold V2B64.calculateHoursWorked.
  rewrite start_present, end_present, start_parsed, end_parsed.
  cbn [orb]. rewrite (rounded_difference_negative H). reflexivity.
Qed.

Lemma V1B64_duration_parsed :
  0 <= b - a < exact_span ->
  V1B64.calculateHoursWorked rnd env startTime endTime
  = (JS.Int ((b - a) / 3600000), JS.Int (((b - a) / 60000) mod 60)).
Proof.
  intros H. unfold V1B64.calculateHoursWorked.
  rewrite start_present, end_present, start_parsed, end_parsed.
  cbn [orb JS.isNaN]. rewrite (rounded_difference_nonneg H).
  cbn [F64.sub F64.div JS.rrem JS.floor].
  rewrite (V1_hours_rounded rnd rnd_monotone rnd_exact (b - a) H _
             (rounded_difference_exact H)).
  rewrite (V1_minutes_rounded rnd rnd_monotone rnd_exact (b - a) H _
             (rounded_difference_exact H)).
  reflexivity.
Qed.

Lemma V2B64_duration_parsed :
  0 <= b - a < exact_span ->
  V2B64.calculateHoursWorked rnd env startTime endTime
  = (JS.Int ((b - a) / 3600000), JS.Int (((b - a) / 60000) mod 60)).
Proof.
  intros H. unfold V2B64.calculateHoursWorked.
  rewrite start_present, end_present, start_parsed, end_parsed.
  cbn [orb]. rewrite (rounded_difference_nonneg H).
  cbn [F64.sub F64.div JS.rrem JS.floor].
  rewrite (V2_hours_rounded rnd rnd_monotone rnd_exact (b - a) H _
             (rounded_difference_exact H)).
  rewrite (V2_minutes_rounded rnd rnd_monotone rnd_exact (b - a) H _
             (rounded_difference_exact H)).
  reflexivity.
Qed.

(** Below [exact_span] the exact quotients of [V1] and [V2] are what the
    rounded ones give. *)
Lemma V1_exact_below_span :
  b - a < exact_span ->
  V1B64.calculateHoursWorked rnd env startTime endTime
  = V1.calculateHoursWorked env startTime endTime.
Proof.
  intros H.
  rewrite (V1_duration_parsed env startTime endTime a b) by assumption.
  unfold Spec.duration_of. rewrite whole_seconds_negative.
  destruct (Z.ltb_spec (b - a) 0) as [N|N].
  - apply V1B64_duration_negative. exact N.
  - rewrite seconds_hours, seconds_minutes by exact N.
    apply V1B64_duration_parsed. lia.
Qed.

Lemma V2_exact_below_span :
  b - a < exact_span ->
  V2B64.calculateHoursWorked rnd env startTime endTime
  = V2.calculateHoursWorked env startTime endTime.
Proof.
  intros H.
  rewrite (V2_duration_parsed env startTime endTime a b) by assumption.
  unfold Spec.duration_of. rewrite whole_seconds_negative.
  destruct (Z.ltb_spec (b - a) 0) as [N|N].
  - apply V2B64_duration_negative. exact N.
  - rewrite seconds_hours, seconds_minutes by exact N.
    apply V2B64_duration_parsed. lia.
Qed.

End RoundedDuration.

(** C1.  For two timestamps that are present and parse to the instants [a]
    and [b] (epoch milliseconds), [calculateHoursWorked], with every
    subtraction and division rounded as binary64 rounds, returns [(0, 0)]
    when [b - a] is negative, however large, and for
    [0 <= b - a < 3600000 * 2^31] returns [hours = floor(diff / 3600)] and
    [minutes = floor(diff / 60) mod 60], where [diff] is the difference in
    whole seconds: what is left of a minute is dropped, never rounded up.
    Both revisions of the function agree on this. *)
Theorem duration_within_exact_span
    (rnd : Q -> Q) (env : Env) (startTime endTime : JS.value) (a b : Z) :
  F64.monotone rnd -> F64.exact rnd ->
  JS.not startTime = false -> JS.not endTime = false ->
  getTime env (JS.toStr startTime) = JS.Int a ->
  getTime env (JS.toStr endTime) = JS.Int b ->
  (b - a < 0 ->
     V1B64.calculateHoursWorked rnd env startTime endTime
       = (JS.Int 0, JS.Int 0) /\
     V2B64.calculateHoursWorked rnd env startTime endTime
       = (JS.Int 0, JS.Int 0)) /\
  (0 <= b - a < exact_span ->
     let diff := (b - a) / 1000 in
     let result := (JS.Int (diff / 3600), JS.Int ((diff / 60) mod 60)) in
     V1B64.calculateHoursWorked rnd env startTime endTime = result /\
     V2B64.calculateHoursWorked rnd env startTime endTime = result).
Proof.
  intros Hm Hx Hs He Ha Hb. split; intros H.
  - split.
    + apply (V1B64_duration_negative rnd Hm Hx env startTime endTime a b);
        assumption.
    + apply (V2B64_duration_negative rnd Hm Hx env startTime endTime a b);
        assumption.
  - cbv zeta. rewrite seconds_hours, seconds_minutes by lia. split.
    + apply (V1B64_duration_parsed rnd Hm Hx env startTime endTime a b);
        assumption.
    + apply (V2B64_duration_parsed rnd Hm Hx env startTime endTime a b);
        assumption.
Qed.

(** 09:00 to 11:30 on the same day is two hours and thirty minutes, with the
    rounding of binary64. *)
Lemma duration_within_exact_span_witness :
  V1B64.calculateHoursWorked F64.b64 sample_env
    (JS.Str "2024-01-01T09:00Z") (JS.Str "2024-01-01T11:30Z")
  = (JS.Int 2, JS.Int 30) /\
  V2B64.calculateHoursWorked F64.b64 sample_env
    (JS.Str "2024-01-01T09:00Z") (JS.Str "2024-01-01T11:30Z")
  = (JS.Int 2, JS.Int 30).
Proof.
  apply (proj2 (duration_within_exact_span F64.b64 sample_env
                  (JS.Str "2024-01-01T09:00Z") (JS.Str "2024-01-01T11:30Z")
                  1704099600000 1704108600000
                  b64_monotone b64_exact
                  eq_refl eq_refl eq_refl eq_refl)).
  vm_compute. split; [discriminate|reflexivity].
Defined.

(** From the first instant a [Date] can hold to 21:59:59.999 on 11 April
    215823 there are 15388557544799999 ms, more than [2^53]: the subtraction
    rounds up to the next even integer, a full 4274599318 hours, and the code
    shows one minute more than the whole seconds of the span hold. *)
Lemma duration_beyond_exact_span_counterexample :
  let startTime := JS.Str "-271821-04-20T00:00:00.000Z" in
  let endTime := JS.Str "+215823-04-11T21:59:59.999Z" in
  let a := -8640000000000000 in
  let b := 6748557544799999 in
  getTime far_env (JS.toStr startTime) = JS.Int a /\
  getTime far_env (JS.toStr endTime) = JS.Int b /\
  (let diff := (b - a) / 1000 in
   (JS.Int (diff / 3600), JS.Int ((diff / 60) mod 60)))
    = (JS.Int 4274599317, JS.Int 59) /\
  V1B64.calculateHoursWorked F64.b64 far_env startTime endTime
    = (JS.Int 4274599318, JS.Int 0) /\
  V2B64.calculateHoursWorked F64.b64 far_env startTime endTime
    = (JS.Int 4274599318, JS.Int 0).
Proof. vm_compute. repeat split. Qed.

(** What is left of the last minute is dropped, in either order of the
    operands the result is never negative. *)
Example duration_truncates_example :
  let t0 := JS.Str "2024-01-03T10:00:00.000Z" in
  let t1 := JS.Str "2024-01-03T12:32:59.999Z" in
  V1.calculateHoursWorked sample_env t0 t1 = (JS.Int 2, JS.Int 32) /\
  V2.calculateHoursWorked sample_env t0 t1 = (JS.Int 2, JS.Int 32) /\
  V1.calculateHoursWorked sample_env t1 t0 = (JS.Int 0, JS.Int 0) /\
  V2.calculateHoursWorked sample_env t1 t0 = (JS.Int 0, JS.Int 0).
Proof. repeat split; vm_compute; reflexivity. Qed.

(** C4, the later revision.  With both operands present and one of them not
    parsing, the later [calculateHoursWorked] returns [(NaN, NaN)]: it has
    lost the [isNaN] guard of the earlier revision, [NaN < 0] is false, and
    [Math.floor] of [NaN] is [NaN]. *)
Theorem V2_duration_unparsable
    (env : Env) (startTime endTime : JS.value) :
  JS.not startTime = false -> JS.not endTime = false ->
  getTime env (JS.toStr startTime) = JS.NaN \/
  getTime env (JS.toStr endTime) = JS.NaN ->
  V2.calculateHoursWorked env startTime endTime = (JS.NaN, JS.NaN).
Proof.
  intros Hs He H. unfold V2.calculateHoursWorked. rewrite Hs, He.
  cbn [orb]. destruct H as [H|H]; rewrite H.
  - destruct (getTime env (JS.toStr endTime)); reflexivity.
  - reflexivity.
Qed.

Lemma V2_duration_unparsable_witness :
  V2.calculateHoursWorked sample_env
    (JS.Str "yesterday") (JS.Str "2024-01-01T11:30Z") = (JS.NaN, JS.NaN)
  /\ V1.calculateHoursWorked sample_env
    (JS.Str "yesterday") (JS.Str "2024-01-01T11:30Z") = (JS.Int 0, JS.Int 0)
  /\ V2.formatDuration JS.NaN JS.NaN = "NaNm".
Proof.
  split; [|split; reflexivity].
  apply (V2_duration_unparsable sample_env
           (JS.Str "yesterday") (JS.Str "2024-01-01T11:30Z")
           eq_refl eq_refl (or_introl eq_refl)).
Defined.

(* ================================================================== *)
(** * Aggregate totals *)

Section Totals.

Lemma add_swap (a x y : JS.number) :
  JS.add (JS.add a x) y = JS.add (JS.add a y) x.
Proof.
  destruct a, x, y; cbn; try reflexivity. f_equal. lia.
Qed.

(** A left fold whose steps commute does not see the order of the list. *)
Lemma fold_left_commutes {A B : Type} (f : A -> B -> A) :
  (forall a x y, f (f a x) y = f (f a y) x) ->
  forall l l', Permutation l l' ->
  forall a, fold_left f l a = fold_left f l' a.
Proof.
  intros Hf l l' HP.
  induction HP as [|x l l' _ IH|x y l|l l' l'' _ IH1 _ IH2]; intros a; cbn.
  - reflexivity.
  - apply IH.
  - rewrite Hf. reflexivity.
  - rewrite IH1. apply IH2.
Qed.

Variable env : Env.

Lemma V1_accumulate_commutes (acc : JS.number * JS.number) (x y : TimeLog) :
  V1.accumulate env (V1.accumulate env acc x) y =
  V1.accumulate env (V1.accumulate env acc y) x.
Proof.
  unfold V1.accumulate. destruct acc as [th tm].
  destruct (V1.calculateHoursWorked env (start_time x) (end_time x)) as [hx mx].
  destruct (V1.calculateHoursWorked env (start_time y) (end_time y)) as [hy my].
  f_equal; apply add_swap.
Qed.

Lemma V2_accumulate_commutes (tMin : JS.number) (x y : TimeLog) :
  V2.accumulate env (V2.accumulate env tMin x) y =
  V2.accumulate env (V2.accumulate env tMin y) x.
Proof.
  unfold V2.accumulate.
  destruct (V2.calculateHoursWorked env (start_time x) (end_time x)) as [hx mx].
  destruct (V2.calculateHoursWorked env (start_time y) (end_time y)) as [hy my].
  apply add_swap.
Qed.

End Totals.

(** C2.  The aggregate totals (per-entry hours and minutes accumulated, then
    the carry of whole hours out of the minutes) are the same on a list of
    entries and on any permutation of it, in both revisions. *)
Theorem totals_permutation_invariant (env : Env) (l l' : list TimeLog) :
  Permutation l l' ->
  V1.totals env l = V1.totals env l' /\ V2.totals env l = V2.totals env l'.
Proof.
  intros HP. unfold V1.totals, V2.totals.
  rewrite (fold_left_commutes _ (V1_accumulate_commutes env) l l' HP).
  rewrite (fold_left_commutes _ (V2_accumulate_commutes env) l l' HP).
  split; reflexivity.
Qed.

Lemma totals_permutation_invariant_witness :
  V1.totals sample_env (rev scenario_entries) = (JS.Int 3, JS.Int 15) /\
  V2.totals sample_env (rev scenario_entries) = (JS.Int 3, JS.Int 15).
Proof.
  change (JS.Int 3, JS.Int 15) with (V1.totals sample_env scenario_entries) at 1.
  change (JS.Int 3, JS.Int 15) with (V2.totals sample_env scenario_entries).
  apply (totals_permutation_invariant sample_env
           (rev scenario_entries) scenario_entries).
  apply perm_swap.
Defined.

(* ================================================================== *)
(** * CSV escaping *)

Section Escaping.

Lemma replaceAll_doubles (s : string) :
  JS.replaceAll JS.dquote (String JS.dquote (JS.chr JS.dquote)) s =
  Spec.double_quotes s.
Proof.
  induction s as [|c s IH]; cbn [JS.replaceAll Spec.double_quotes].
  - reflexivity.
  - rewrite IH. destruct (Ascii.eqb c JS.dquote); reflexivity.
Qed.

Lemma includes_three (s : string) :
  JS.includes s JS.comma || JS.includes s JS.dquote || JS.includes s JS.LF =
  Spec.needs_quoting s.
Proof.
  induction s as [|c s IH]; cbn [JS.includes Spec.needs_quoting].
  - reflexivity.
  - rewrite <- IH. unfold Spec.special.
    destruct (Ascii.eqb c JS.comma), (Ascii.eqb c JS.dquote),
             (Ascii.eqb c JS.LF); cbn;
      repeat rewrite ?orb_true_r, ?orb_false_r; reflexivity.
Qed.

Lemma wrap_quoted (s : string) :
  JS.chr JS.dquote
  ++ JS.replaceAll JS.dquote (String JS.dquote (JS.chr JS.dquote)) s
  ++ JS.chr JS.dquote = Spec.quoted s.
Proof. rewrite replaceAll_doubles. reflexivity. Qed.

Lemma V1_escape_string (s : string) :
  V1.escapeCsvField (JS.Str s) =
  if Spec.needs_quoting s || JS.includes s JS.CR then Spec.quoted s else s.
Proof.
  unfold V1.escapeCsvField. cbn [JS.toStr].
  rewrite includes_three, wrap_quoted. reflexivity.
Qed.

Lemma V2_escape_always (txt : JS.value) :
  V2.escape txt = Spec.quoted (JS.toStr (JS.or_empty txt)).
Proof. unfold V2.escape. apply wrap_quoted. Qed.

(** Quoting never returns the field as it was. *)
Lemma quoted_length (s : string) :
  (String.length s + 2 <= String.length (Spec.quoted s))%nat.
Proof.
  unfold Spec.quoted. cbn [String.length].
  enough (String.length s + 1 <=
          String.length (Spec.double_quotes s ++ JS.chr JS.dquote))%nat by lia.
  induction s as [|c s IH]; cbn [Spec.double_quotes].
  - cbn. lia.
  - destruct (Ascii.eqb c JS.dquote); cbn [String.append String.length]; lia.
Qed.

Lemma quoted_changes (s : string) : Spec.quoted s <> s.
Proof.
  intros H. pose proof (quoted_length s) as L. rewrite H in L. lia.
Qed.

End Escaping.

(** C3, as the code has it.  The earlier revision's [escapeCsvField] wraps a
    string field in double quotes, doubling every embedded double quote,
    exactly when the field contains a comma, a double quote, a line feed or
    a carriage return, and otherwise returns it unchanged; the later
    revision's [escape] wraps and doubles every field, whatever it holds. *)
Theorem csv_escape_by_revision :
  (forall s : string,
     (Spec.needs_quoting s || JS.includes s JS.CR = true ->
        V1.escapeCsvField (JS.Str s) = Spec.quoted s) /\
     (Spec.needs_quoting s || JS.includes s JS.CR = false ->
        V1.escapeCsvField (JS.Str s) = s) /\
     (V1.escapeCsvField (JS.Str s) = Spec.quoted s <->
        Spec.needs_quoting s || JS.includes s JS.CR = true)) /\
  (forall txt : JS.value,
     V2.escape txt = Spec.quoted (JS.toStr (JS.or_empty txt))).
Proof.
  split; [|exact V2_escape_always].
  intros s. rewrite V1_escape_string.
  destruct (Spec.needs_quoting s || JS.includes s JS.CR) eqn:E.
  - repeat split; auto. discriminate.
  - repeat split; auto; try discriminate.
    intros H. symmetry in H. destruct (quoted_changes s H).
Qed.

Lemma csv_escape_by_revision_witness :
  V1.escapeCsvField (JS.Str "plan, then build") =
    Spec.quoted "plan, then build" /\
  V1.escapeCsvField (JS.Str "plain") = "plain".
Proof.
  split.
  - apply (proj1 (proj1 csv_escape_by_revision "plan, then build")).
    reflexivity.
  - apply (proj1 (proj2 (proj1 csv_escape_by_revision "plain"))).
    reflexivity.
Defined.

(** C3 as stated fails twice: the later revision quotes a field that holds
    none of the three characters, and the earlier one quotes a field whose
    only special character is a carriage return. *)
Lemma csv_escape_counterexample :
  (Spec.needs_quoting "plain" = false /\
   V2.escape (JS.Str "plain") = Spec.quoted "plain" /\
   V2.escape (JS.Str "plain") <> "plain") /\
  (let s := String "a" (String JS.CR "b") in
   Spec.needs_quoting s = false /\
   V1.escapeCsvField (JS.Str s) = Spec.quoted s /\
   V1.escapeCsvField (JS.Str s) <> s).
Proof.
  repeat split; try reflexivity; vm_compute; discriminate.
Qed.

(** The example of the specification: [He said, "hi"], a line feed, [bye]. *)
Example csv_escape_spec_example :
  let q := JS.chr JS.dquote in
  let s := "He said, " ++ q ++ "hi" ++ q ++ JS.chr JS.LF ++ "bye" in
  V1.escapeCsvField (JS.Str s) =
    q ++ "He said, " ++ q ++ q ++ "hi" ++ q ++ q ++ JS.chr JS.LF ++ "bye" ++ q
  /\ V2.escape (JS.Str s) = V1.escapeCsvField (JS.Str s).
Proof. split; reflexivity. Qed.

(* ================================================================== *)
(** * CSV export *)

Section CsvExport.

Variable env : Env.

Lemma first_line_prefix (h rest : string) :
  JS.includes h JS.LF = false ->
  Spec.first_line (h ++ String JS.LF rest) = h.
Proof.
  induction h as [|c h IH]; cbn [JS.includes String.append Spec.first_line].
  - intros _. reflexivity.
  - destruct (Ascii.eqb c JS.LF); [discriminate|].
    intros H. rewrite (IH H). reflexivity.
Qed.

Lemma V1_csvString_cons (log : TimeLog) (logs : list TimeLog) :
  V1.csvString env (log :: logs) =
  "Task,Start Time,End Time,Hours Worked,Notes"
  ++ String JS.LF (JS.join (JS.chr JS.LF) (map (V1.csvRow env) (log :: logs))).
Proof. reflexivity. Qed.

Lemma V2_csvString_cons (log : TimeLog) (logs : list TimeLog) :
  V2.csvString env (log :: logs) =
  "Task,Start,End,Duration,Notes"
  ++ String JS.LF (JS.join (JS.chr JS.LF) (map (V2.csvRow env) (log :: logs))).
Proof. reflexivity. Qed.

Lemma V1_export_nonempty (log : TimeLog) (logs : list TimeLog) :
  downloadAttr env = true ->
  V1.handleExportCSV env (log :: logs) =
  [Download "time_logs.csv" "text/csv;charset=utf-8;"
            (V1.csvString env (log :: logs))].
Proof. intros H. unfold V1.handleExportCSV. rewrite H. reflexivity. Qed.

Lemma V2_export_nonempty (st : V2.State) :
  V2.logs st <> [] ->
  V2.handleExportCSV env st =
  (st, [Download "time_logs.csv" "text/csv;charset=utf-8;"
                 (V2.csvString env (V2.logs st))]).
Proof.
  intros H. unfold V2.handleExportCSV.
  destruct (V2.logs st); [contradiction|reflexivity].
Qed.

End CsvExport.

(** C5, as the code has it.  On an empty entry list neither revision writes
    a file.  The earlier revision raises the alert "No data to export."; the
    later revision returns at its guard without any effect on the page. *)
Theorem export_of_nothing (env : Env) (st1 : V1.State) (st2 : V2.State) :
  V1.logs st1 = [] -> V2.logs st2 = [] ->
  (snd (V1.exportClick env st1) = [Alert "No data to export."] /\
   Spec.wrote_file (snd (V1.exportClick env st1)) = false) /\
  (snd (V2.handleExportCSV env st2) = [] /\
   Spec.wrote_file (snd (V2.handleExportCSV env st2)) = false).
Proof.
  intros H1 H2. unfold V1.exportClick, V2.handleExportCSV.
  rewrite H1, H2. repeat split; reflexivity.
Qed.

Lemma export_of_nothing_witness :
  (snd (V1.exportClick sample_env V1_empty) = [Alert "No data to export."] /\
   Spec.wrote_file (snd (V1.exportClick sample_env V1_empty)) = false) /\
  (snd (V2.handleExportCSV sample_env V2_empty) = [] /\
   Spec.wrote_file (snd (V2.handleExportCSV sample_env V2_empty)) = false).
Proof.
  apply (export_of_nothing sample_env V1_empty V2_empty); reflexivity.
Defined.

(** C5 as stated fails on the later revision: with no entries loaded its
    exporter signals nothing to the user. *)
Lemma export_of_nothing_counterexample :
  V2.logs V2_empty = [] /\
  Spec.signalled (snd (V2.handleExportCSV sample_env V2_empty)) = false.
Proof. split; reflexivity. Qed.

(** C7, as the code has it.  For a non-empty entry list the first line of the
    exported file is [Task,Start Time,End Time,Hours Worked,Notes] in the
    earlier revision and [Task,Start,End,Duration,Notes] in the later one. *)
Theorem export_header_line
    (env : Env) (log : TimeLog) (logs : list TimeLog)
    (loading : bool) (error : string) :
  downloadAttr env = true ->
  (exists content,
     V1.handleExportCSV env (log :: logs) =
       [Download "time_logs.csv" "text/csv;charset=utf-8;" content] /\
     Spec.first_line content = "Task,Start Time,End Time,Hours Worked,Notes") /\
  (exists content,
     snd (V2.handleExportCSV env
            {| V2.logs := log :: logs; V2.loading := loading;
               V2.error := error |}) =
       [Download "time_logs.csv" "text/csv;charset=utf-8;" content] /\
     Spec.first_line content = "Task,Start,End,Duration,Notes").
Proof.
  intros H. split.
  - exists (V1.csvString env (log :: logs)). split.
    + apply V1_export_nonempty. exact H.
    + rewrite V1_csvString_cons. apply first_line_prefix. reflexivity.
  - exists (V2.csvString env (log :: logs)). split.
    + reflexivity.
    + rewrite V2_csvString_cons. apply first_line_prefix. reflexivity.
Qed.

Lemma export_header_line_witness :
  (exists content,
     V1.handleExportCSV sample_env scenario_entries =
       [Download "time_logs.csv" "text/csv;charset=utf-8;" content] /\
     Spec.first_line content = "Task,Start Time,End Time,Hours Worked,Notes") /\
  (exists content,
     snd (V2.handleExportCSV sample_env
            {| V2.logs := scenario_entries; V2.loading := false;
               V2.error := EmptyString |}) =
       [Download "time_logs.csv" "text/csv;charset=utf-8;" content] /\
     Spec.first_line content = "Task,Start,End,Duration,Notes").
Proof.
  apply (export_header_line sample_env
           (mkLog 1 "review" "2024-01-01T09:00Z" "2024-01-01T11:30Z" EmptyString)
           [mkLog 2 "standup" "2024-01-02T08:00Z" "2024-01-02T08:45Z" EmptyString]
           false EmptyString).
  reflexivity.
Defined.

(** C7 as stated fails in both revisions: neither header is
    [Task,Start Time,End Time,Duration,Notes]. *)
Lemma export_header_line_counterexample :
  (V1.handleExportCSV sample_env scenario_entries =
     [Download "time_logs.csv" "text/csv;charset=utf-8;"
               (V1.csvString sample_env scenario_entries)] /\
   Spec.first_line (V1.csvString sample_env scenario_entries)
     <> "Task,Start Time,End Time,Duration,Notes") /\
  (snd (V2.handleExportCSV sample_env
          {| V2.logs := scenario_entries; V2.loading := false;
             V2.error := EmptyString |}) =
     [Download "time_logs.csv" "text/csv;charset=utf-8;"
               (V2.csvString sample_env scenario_entries)] /\
   Spec.first_line (V2.csvString sample_env scenario_entries)
     <> "Task,Start Time,End Time,Duration,Notes").
Proof. repeat split; try reflexivity; vm_compute; discriminate. Qed.

Section Store.

Variable env : Env.

(** Reading each index in turn is reading each element in turn. *)
Lemma map_indices {B : Type} (g : nat -> B) (l : list nat) :
  forall pre : list nat,
    map (fun j => g (nth j (pre ++ l) 0%nat))
        (seq (List.length pre) (List.length l))
    = map g l.
Proof.
  induction l as [|x l IH]; intros pre; cbn [List.length seq map].
  - reflexivity.
  - rewrite nth_middle. f_equal.
    specialize (IH (pre ++ [x])%list).
    rewrite <- app_assoc, length_app in IH. cbn [List.length app] in IH.
    rewrite Nat.add_1_r in IH. exact IH.
Qed.

(** A callback that only reads makes [map] only read. *)
Lemma map_from_reads {B : Type} (f : nat -> Mem.M B) (g : nat -> B)
      (s : Mem.store) :
  (forall a, f a s = (g a, s)) ->
  forall n i,
    Mem.map_from f i n s
    = (map (fun j => g (nth j (Mem.array s) 0%nat)) (seq i n), s).
Proof.
  intros H. induction n as [|n IH]; intros i; cbn [Mem.map_from seq map].
  - reflexivity.
  - unfold Mem.bind, Mem.elem, Mem.ret. rewrite H, IH. reflexivity.
Qed.

Lemma map_array_reads {B : Type} (f : nat -> Mem.M B) (g : nat -> B)
      (s : Mem.store) :
  (forall a, f a s = (g a, s)) ->
  Mem.map_array f s = (map g (Mem.array s), s).
Proof.
  intros H. unfold Mem.map_array, Mem.bind, Mem.length_.
  rewrite (map_from_reads f g s H).
  pose proof (map_indices g (Mem.array s) []) as E.
  cbn [app List.length] in E. rewrite E. reflexivity.
Qed.

Lemma V1_csvRow_reads (s : Mem.store) (a : nat) :
  Mem.V1_csvRow env a s = (V1.csvRow env (Mem.row s a), s).
Proof.
  unfold Mem.V1_csvRow, V1.csvRow, Mem.bind, Mem.field, Mem.ret.
  destruct (V1.calculateHoursWorked env (start_time (Mem.row s a))
                                        (end_time (Mem.row s a)));
    reflexivity.
Qed.

Lemma V2_csvRow_reads (s : Mem.store) (a : nat) :
  Mem.V2_csvRow env a s = (V2.csvRow env (Mem.row s a), s).
Proof.
  unfold Mem.V2_csvRow, V2.csvRow, Mem.bind, Mem.field, Mem.ret.
  destruct (V2.calculateHoursWorked env (start_time (Mem.row s a))
                                        (end_time (Mem.row s a)));
    reflexivity.
Qed.

Lemma V1_export_reads (s : Mem.store) :
  Mem.V1_handleExportCSV env s = (V1.handleExportCSV env (Mem.entries s), s).
Proof.
  unfold Mem.V1_handleExportCSV, V1.handleExportCSV, Mem.entries.
  unfold Mem.bind at 1. unfold Mem.length_. rewrite length_map.
  destruct (List.length (Mem.array s) =? 0)%nat; [reflexivity|].
  unfold Mem.bind.
  rewrite (map_array_reads _ (fun a => V1.csvRow env (Mem.row s a)) s)
    by (intros a; apply V1_csvRow_reads).
  unfold Mem.ret, V1.csvString. rewrite map_map. reflexivity.
Qed.

Lemma V2_export_reads (s : Mem.store) (st : V2.State) :
  V2.logs st = Mem.entries s ->
  Mem.V2_handleExportCSV env s = (snd (V2.handleExportCSV env st), s).
Proof.
  intros E.
  unfold Mem.V2_handleExportCSV, V2.handleExportCSV. rewrite E.
  unfold Mem.entries.
  unfold Mem.bind at 1. unfold Mem.length_. rewrite length_map.
  destruct (List.length (Mem.array s) =? 0)%nat; [reflexivity|].
  unfold Mem.bind.
  rewrite (map_array_reads _ (fun a => V2.csvRow env (Mem.row s a)) s)
    by (intros a; apply V2_csvRow_reads).
  unfold Mem.ret, V2.csvString. cbn [snd]. rewrite map_map. reflexivity.
Qed.

End Store.

(** The store does tell a write from a read: assigning to [notes] of a row,
    or to an element of the array, leaves another store behind. *)
Example writes_change_the_store :
  snd (Mem.set_notes 0 (JS.Str "seen") shared_store) <> shared_store /\
  snd (Mem.set_elem 0 0 shared_store) <> shared_store /\
  Mem.entries (snd (Mem.set_elem 0 0 shared_store))
    <> Mem.entries shared_store.
Proof. repeat split; discriminate. Qed.

(** C9.  With the array [logs] and the row objects it refers to held in a
    store, and the exporter of either revision run on that store: the store
    after the export is the store before it, so the array holds the same
    references and every field of every row is what it was; and what the
    exporter does (the alert, or the file it writes) is what
    [handleExportCSV] computes from the entry list. *)
Theorem export_leaves_store (env : Env) (s : Mem.store) (st : V2.State) :
  (snd (Mem.V1_handleExportCSV env s) = s /\
   Mem.entries (snd (Mem.V1_handleExportCSV env s)) = Mem.entries s /\
   fst (Mem.V1_handleExportCSV env s)
     = V1.handleExportCSV env (Mem.entries s)) /\
  (snd (Mem.V2_handleExportCSV env s) = s /\
   Mem.entries (snd (Mem.V2_handleExportCSV env s)) = Mem.entries s /\
   (V2.logs st = Mem.entries s ->
    fst (Mem.V2_handleExportCSV env s) = snd (V2.handleExportCSV env st))).
Proof.
  split.
  - rewrite V1_export_reads. repeat split.
  - assert (F : snd (Mem.V2_handleExportCSV env s) = s).
    { rewrite (V2_export_reads env s
                 {| V2.logs := Mem.entries s; V2.loading := false;
                    V2.error := EmptyString |} eq_refl).
      reflexivity. }
    rewrite F. repeat split.
    intros E. rewrite (V2_export_reads env s st E). reflexivity.
Qed.

Lemma export_leaves_store_witness :
  snd (Mem.V2_handleExportCSV sample_env shared_store) = shared_store /\
  fst (Mem.V2_handleExportCSV sample_env shared_store)
  = snd (V2.handleExportCSV sample_env
           {| V2.logs := Mem.entries shared_store; V2.loading := false;
              V2.error := EmptyString |}).
Proof.
  destruct (export_leaves_store sample_env shared_store
              {| V2.logs := Mem.entries shared_store; V2.loading := false;
                 V2.error := EmptyString |}) as [_ (F & _ & R)].
  split; [exact F|apply R; reflexivity].
Defined.

Lemma string_app_assoc (a b c : string) : (a ++ b) ++ c = a ++ (b ++ c).
Proof.
  induction a as [|x a IH]; cbn [String.append].
  - reflexivity.
  - rewrite IH. reflexivity.
Qed.

(** C10.  [escapeCsvField] returns the empty string for [null] and for
    [undefined] (in the earlier revision and in [part_002] alike), so an
    entry whose task name or notes are missing exports exactly as the entry
    with those fields empty, and the export of a list holding such an entry
    goes through. *)
Theorem escape_of_missing_field :
  V1.escapeCsvField JS.Null = EmptyString /\
  V1.escapeCsvField JS.Undefined = EmptyString /\
  Part002.escapeCsvField JS.Null = EmptyString /\
  Part002.escapeCsvField JS.Undefined = EmptyString /\
  (forall (env : Env) (log : TimeLog),
     V1.csvRow env log =
     V1.csvRow env {| id := id log;
                      task_name := Spec.blank (task_name log);
                      start_time := start_time log;
                      end_time := end_time log;
                      notes := Spec.blank (notes log) |}) /\
  (forall (env : Env) (i : Z) (start_ end_ : JS.value) (logs : list TimeLog),
     let log := {| id := i; task_name := JS.Null; start_time := start_;
                   end_time := end_; notes := JS.Undefined |} in
     exists fields,
       V1.csvRow env log = "," ++ fields ++ "," /\
       V1.handleExportCSV env (log :: logs) =
         if downloadAttr env
         then [Download "time_logs.csv" "text/csv;charset=utf-8;"
                 (V1.csvString env (log :: logs))]
         else []).
Proof.
  repeat split.
  - intros env log. unfold V1.csvRow. cbn [start_time end_time task_name notes].
    destruct (V1.calculateHoursWorked env (start_time log) (end_time log)).
    destruct (task_name log) as [| |[|c s]], (notes log) as [| |[|c' s']];
      reflexivity.
  - intros env i start_ end_ logs log. unfold V1.csvRow.
    cbn [start_time end_time task_name notes log].
    destruct (V1.calculateHoursWorked env start_ end_) as [h m].
    exists (V1.escapeCsvField (JS.Str (V1.formatDateTime env start_)) ++ ","
            ++ V1.escapeCsvField (JS.Str (V1.formatDateTime env end_)) ++ ","
            ++ V1.escapeCsvField (JS.Str (V1.formatHoursAndMinutes h m))).
    split; [|reflexivity].
    unfold JS.join. cbn [String.concat].
    change (V1.escapeCsvField JS.Null) with EmptyString.
    change (V1.escapeCsvField JS.Undefined) with EmptyString.
    rewrite !string_app_assoc. reflexivity.
Qed.

(* ================================================================== *)
(** * Duration display *)

(** C8, as the code has it.  For hours [h >= 0] and minutes [0 <= m < 60], the
    earlier revision's [formatHoursAndMinutes] returns ["0h 0m"] when both
    are zero, drops the unit that is zero when exactly one is, and otherwise
    returns ["{h}h {m}m"].  The later revision's [formatDuration] returns
    ["0m"] when both are zero, ["{m}m"] when only the hours are zero, and
    ["{h}h {m}m"] whenever the hours are not zero, zero minutes included. *)
Theorem duration_display (h m : Z) :
  0 <= h -> 0 <= m < 60 ->
  let H := JS.numStr (JS.Int h) in
  let M := JS.numStr (JS.Int m) in
  ((h = 0 /\ m = 0 -> V1.formatHoursAndMinutes (JS.Int h) (JS.Int m) = "0h 0m") /\
   (h = 0 /\ m <> 0 -> V1.formatHoursAndMinutes (JS.Int h) (JS.Int m) = M ++ "m") /\
   (h <> 0 /\ m = 0 -> V1.formatHoursAndMinutes (JS.Int h) (JS.Int m) = H ++ "h") /\
   (h <> 0 /\ m <> 0 ->
      V1.formatHoursAndMinutes (JS.Int h) (JS.Int m) = H ++ "h " ++ M ++ "m")) /\
  ((h = 0 /\ m = 0 -> V2.formatDuration (JS.Int h) (JS.Int m) = "0m") /\
   (h = 0 /\ m <> 0 -> V2.formatDuration (JS.Int h) (JS.Int m) = M ++ "m") /\
   (h <> 0 -> V2.formatDuration (JS.Int h) (JS.Int m) = (H ++ "h ") ++ M ++ "m")).
Proof.
  intros Hh Hm H M.
  unfold V1.formatHoursAndMinutes, V2.formatDuration, JS.eq, JS.gt.
  destruct (Z.eqb_spec h 0) as [E|E], (Z.eqb_spec m 0) as [F|F];
    cbn [andb]; repeat split; intros G; try (exfalso; lia);
    try reflexivity.
  - subst h. reflexivity.
  - destruct (Z.ltb_spec 0 h); [reflexivity|lia].
  - destruct (Z.ltb_spec 0 h); [reflexivity|lia].
Qed.

Lemma duration_display_witness :
  V1.formatHoursAndMinutes (JS.Int 3) (JS.Int 0) = "3h" /\
  V2.formatDuration (JS.Int 3) (JS.Int 0) = "3h 0m".
Proof.
  pose proof (duration_display 3 0 ltac:(lia) ltac:(lia)) as [[_ [_ [A _]]] [_ [_ B]]].
  split.
  - apply A. split; [discriminate|reflexivity].
  - apply B. discriminate.
Defined.

(** C8 as stated fails on the later revision: nothing logged shows as
    ["0m"], and three full hours as ["3h 0m"]. *)
Lemma duration_display_counterexample :
  V2.formatDuration (JS.Int 0) (JS.Int 0) <> "0h 0m" /\
  V2.formatDuration (JS.Int 3) (JS.Int 0) <> "3h".
Proof. split; vm_compute; discriminate. Qed.

(* ================================================================== *)
(** * Delete with rollback *)

Section Delete.

Lemma filter_keeps_all {A : Type} (p : A -> bool) (l : list A) :
  (forall x, In x l -> p x = true) -> filter p l = l.
Proof.
  induction l as [|x l IH]; intros H; cbn [filter].
  - reflexivity.
  - rewrite (H x (or_introl Logic.eq_refl)), IH; [reflexivity|].
    intros y Hy. apply H. right. exact Hy.
Qed.

(** With identifiers unique, filtering on [l.id !== id] takes out the one
    entry that carries the identifier and leaves the rest in place. *)
Lemma filter_other_ids (l1 l2 : list TimeLog) (b : TimeLog) :
  NoDup (map id (l1 ++ b :: l2)) ->
  filter (fun l => negb (id l =? id b)) (l1 ++ b :: l2) = (l1 ++ l2)%list.
Proof.
  intros ND. rewrite map_app in ND. cbn [map] in ND.
  pose proof (NoDup_remove_2 _ _ _ ND) as Hnot.
  rewrite filter_app. cbn [filter]. rewrite Z.eqb_refl. cbn [negb].
  rewrite !filter_keeps_all; [reflexivity| |].
  - intros x Hx. apply negb_true_iff, Z.eqb_neq. intros E. apply Hnot.
    apply in_or_app. right. rewrite <- E. apply in_map. exact Hx.
  - intros x Hx. apply negb_true_iff, Z.eqb_neq. intros E. apply Hnot.
    apply in_or_app. left. rewrite <- E. apply in_map. exact Hx.
Qed.

End Delete.

(** The page is drawn without a look at [error]. *)
Lemma page_ignores_error (env : Env) (localInput : string -> option string)
      (st : V2Edit.State) (message : string) :
  V2Page.render env localInput (V2Edit.onView (V2.setError message) st)
  = V2Page.render env localInput st.
Proof. reflexivity. Qed.

Lemma page_reads (env : Env) (localInput : string -> option string)
      (st st' : V2Edit.State) :
  V2.logs (V2Edit.view st') = V2.logs (V2Edit.view st) ->
  V2.loading (V2Edit.view st') = V2.loading (V2Edit.view st) ->
  V2Edit.editingId st' = V2Edit.editingId st ->
  V2Edit.editForm st' = V2Edit.editForm st ->
  V2Page.render env localInput st' = V2Page.render env localInput st.
Proof.
  intros El Eo Ei Ef. unfold V2Page.render. rewrite El, Eo.
  assert (Et : forall log, V2Page.tableRow env localInput st' log
                           = V2Page.tableRow env localInput st log).
  { intros log.
    unfold V2Page.tableRow, V2Page.duration, V2Page.isEditing.
    rewrite Ei, Ef. reflexivity. }
  assert (Ec : forall log, V2Page.card env localInput st' log
                           = V2Page.card env localInput st log).
  { intros log.
    unfold V2Page.card, V2Page.duration, V2Page.isEditing.
    rewrite Ei, Ef. reflexivity. }
  assert (Em : forall (f g : TimeLog -> option V2Page.entry) l,
             (forall x, f x = g x) -> V2Page.mapM f l = V2Page.mapM g l).
  { intros f g l H. induction l as [|x l IH]; cbn [V2Page.mapM];
      [reflexivity|]. rewrite H, IH. reflexivity. }
  rewrite (Em _ _ _ Et), (Em _ _ _ Ec). reflexivity.
Qed.

(** C6.  For an entry list with unique identifiers and an entry [b] in it:
    a confirmed delete of [b] that fails at the store ends with the list
    exactly as it was before the delete and with the state variable [error]
    set to "Failed to delete" -- and with the page exactly as it was before
    the delete, since the later revision draws nothing from [error]: the
    failure is not shown.  A delete that succeeds ends with the list that
    has [b] taken out and every other entry where it was. *)
Theorem failed_delete_not_surfaced
    (env : Env) (localInput : string -> option string)
    (st : V2Edit.State) (b : TimeLog) :
  In b (V2.logs (V2Edit.view st)) ->
  NoDup (map id (V2.logs (V2Edit.view st))) ->
  (forall reason : string,
     let st' :=
       V2Edit.onView (V2.handleDelete true (Some reason) (id b)) st in
     V2.logs (V2Edit.view st') = V2.logs (V2Edit.view st) /\
     V2.error (V2Edit.view st') = "Failed to delete" /\
     V2Page.render env localInput st' = V2Page.render env localInput st) /\
  (let st' := V2Edit.onView (V2.handleDelete true None (id b)) st in
   Spec.removed b (V2.logs (V2Edit.view st)) (V2.logs (V2Edit.view st')) /\
   V2.error (V2Edit.view st') = V2.error (V2Edit.view st)).
Proof.
  intros Hin ND. split.
  - intros reason. cbv zeta. split; [reflexivity|]. split; [reflexivity|].
    apply page_reads; reflexivity.
  - split; [|reflexivity].
    destruct (in_split _ _ Hin) as (l1 & l2 & E).
    exists l1, l2. split; [exact E|].
    cbn [V2Edit.onView V2Edit.view V2.handleDelete negb V2.setLogs V2.logs].
    rewrite E in ND |- *. apply filter_other_ids. exact ND.
Qed.

(** The scenario of the specification: [A, B, C], the delete of [B] fails.
    The list is back, [error] went from empty to "Failed to delete", and the
    page is the one that was shown before. *)
Lemma failed_delete_not_surfaced_witness :
  let st' :=
    V2Edit.onView (V2.handleDelete true (Some "row is locked") 2) abc_table in
  V2.logs (V2Edit.view st') = abc_entries /\
  V2.error (V2Edit.view abc_table) = EmptyString /\
  V2.error (V2Edit.view st') = "Failed to delete" /\
  V2Page.render sample_env sample_input st'
    = V2Page.render sample_env sample_input abc_table.
Proof.
  destruct (proj1 (failed_delete_not_surfaced sample_env sample_input
                     abc_table (mkLog 2 "B" EmptyString EmptyString EmptyString)
                     ltac:(right; left; reflexivity)
                     ltac:(repeat constructor; cbn; intuition discriminate))
                  "row is locked") as (L & E & P).
  split; [exact L|]. split; [reflexivity|]. split; [exact E|exact P].
Defined.

(** What the page of the scenario holds, before the delete and after it has
    failed. *)
Example abc_page :
  V2Page.render sample_env sample_input abc_table
  = Some {| V2Page.exportDisabled := false;
            V2Page.table :=
              Some (map (fun l =>
                           {| V2Page.key := id l;
                              V2Page.cells :=
                                [ V2Page.Text (task_name l);
                                  V2Page.Text (JS.Str EmptyString);
                                  V2Page.Text (JS.Str EmptyString);
                                  V2Page.Text (JS.Str "0m");
                                  V2Page.Text (JS.Str EmptyString) ] |})
                        abc_entries);
            V2Page.cards :=
              Some (map (fun l =>
                           {| V2Page.key := id l;
                              V2Page.cells :=
                                [ V2Page.Text (task_name l);
                                  V2Page.Text (JS.Str "0m");
                                  V2Page.Text (JS.Str EmptyString);
                                  V2Page.Text JS.Undefined ] |})
                        abc_entries);
            V2Page.total := "0m" |}.
Proof. reflexivity. Qed.

Example delete_succeeds_example :
  V2.logs (V2.handleDelete true None 2 abc_state)
    = [ mkLog 1 "A" EmptyString EmptyString EmptyString; mkLog 3 "C" EmptyString EmptyString EmptyString ].
Proof. reflexivity. Qed.

(* ================================================================== *)
(** * Further properties: durations *)

Section DurationRange.

Variable env : Env.

Lemma duration_of_in_range (a b : Z) :
  exists h m, Spec.duration_of a b = (JS.Int h, JS.Int m) /\
              0 <= h /\ 0 <= m < 60.
Proof.
  unfold Spec.duration_of.
  destruct (Z.ltb_spec ((b - a) / 1000) 0) as [H|H].
  - exists 0, 0. repeat split; lia.
  - exists ((b - a) / 1000 / 3600), (((b - a) / 1000 / 60) mod 60).
    split; [reflexivity|]. split.
    + apply Z.div_pos; lia.
    + apply Z.mod_pos_bound. lia.
Qed.

(** Which of its branches [calculateHoursWorked] takes. *)
Lemma V1_duration_cases (s e : JS.value) :
  V1.calculateHoursWorked env s e = (JS.Int 0, JS.Int 0) \/
  exists a b, JS.not s = false /\ JS.not e = false /\
              getTime env (JS.toStr s) = JS.Int a /\
              getTime env (JS.toStr e) = JS.Int b.
Proof.
  destruct (JS.not s) eqn:Hs; [left; apply V1_duration_absent; auto|].
  destruct (JS.not e) eqn:He; [left; apply V1_duration_absent; auto|].
  destruct (getTime env (JS.toStr s)) as [|a] eqn:Ha;
    [left; apply V1_duration_unparsable; auto|].
  destruct (getTime env (JS.toStr e)) as [|b] eqn:Hb;
    [left; apply V1_duration_unparsable; auto|].
  right. exists a, b. auto.
Qed.

End DurationRange.

Lemma V1_duration_shape (env : Env) (s e : JS.value) :
  exists h m,
    V1.calculateHoursWorked env s e = (JS.Int h, JS.Int m) /\
    0 <= h /\ 0 <= m < 60.
Proof.
  destruct (V1_duration_cases env s e) as [H|(a & b & Hs & He & Ha & Hb)].
  - exists 0, 0. rewrite H. repeat split; lia.
  - rewrite (V1_duration_parsed env s e a b Hs He Ha Hb).
    apply duration_of_in_range.
Qed.

(** X1.  Whatever the two timestamps are (missing, empty, unparsable, in
    either order), the earlier [calculateHoursWorked] returns two integers:
    hours that are not negative and minutes between 0 and 59; it never
    returns [NaN]. *)
Theorem V1_duration_in_range (env : Env) (s e : JS.value) :
  exists h m,
    V1.calculateHoursWorked env s e = (JS.Int h, JS.Int m) /\
    0 <= h /\ 0 <= m < 60.
Proof.
  destruct (V1_duration_cases env s e) as [H|(a & b & Hs & He & Ha & Hb)].
  - exists 0, 0. rewrite H. repeat split; lia.
  - rewrite (V1_duration_parsed env s e a b Hs He Ha Hb).
    apply duration_of_in_range.
Qed.

(** The later revision computes what the earlier one does on an entry whose
    timestamps are usable. *)
Lemma V2_duration_clean (env : Env) (log : TimeLog) :
  Derived.clean env log = true ->
  V2.calculateHoursWorked env (start_time log) (end_time log) =
  V1.calculateHoursWorked env (start_time log) (end_time log).
Proof.
  unfold Derived.clean. intros H.
  destruct (JS.not (start_time log)) eqn:Hs.
  { rewrite V1_duration_absent, V2_duration_absent; auto. }
  destruct (JS.not (end_time log)) eqn:He.
  { rewrite V1_duration_absent, V2_duration_absent; auto. }
  cbn [orb] in H. apply andb_true_iff in H. destruct H as [Ha Hb].
  destruct (getTime env (JS.toStr (start_time log))) as [|a] eqn:Ea;
    [discriminate|].
  destruct (getTime env (JS.toStr (end_time log))) as [|b] eqn:Eb;
    [discriminate|].
  rewrite (V1_duration_parsed env _ _ a b), (V2_duration_parsed env _ _ a b);
    auto.
Qed.

(** X2.  On every input the later [calculateHoursWorked] returns what the
    earlier one returns, except when both timestamps are present and one of
    them does not parse: there the later one returns [(NaN, NaN)] and the
    earlier one [(0, 0)]. *)
Theorem duration_revisions_agree (env : Env) (s e : JS.value) :
  V2.calculateHoursWorked env s e = V1.calculateHoursWorked env s e \/
  (JS.not s = false /\ JS.not e = false /\
   (getTime env (JS.toStr s) = JS.NaN \/ getTime env (JS.toStr e) = JS.NaN) /\
   V2.calculateHoursWorked env s e = (JS.NaN, JS.NaN) /\
   V1.calculateHoursWorked env s e = (JS.Int 0, JS.Int 0)).
Proof.
  destruct (JS.not s) eqn:Hs.
  { left. rewrite V1_duration_absent, V2_duration_absent; auto. }
  destruct (JS.not e) eqn:He.
  { left. rewrite V1_duration_absent, V2_duration_absent; auto. }
  destruct (getTime env (JS.toStr s)) as [|a] eqn:Ha.
  { right. repeat split; auto.
    - apply V2_duration_unparsable; auto.
    - apply V1_duration_unparsable; auto. }
  destruct (getTime env (JS.toStr e)) as [|b] eqn:Hb.
  { right. repeat split; auto.
    - apply V2_duration_unparsable; auto.
    - apply V1_duration_unparsable; auto. }
  left.
  rewrite (V1_duration_parsed env s e a b), (V2_duration_parsed env s e a b);
    auto.
Qed.

Lemma whole_minutes_of_duration (a b : Z) :
  0 <= b - a ->
  Derived.whole_minutes (Spec.duration_of a b) = JS.Int ((b - a) / 60000).
Proof.
  intros H. unfold Spec.duration_of.
  rewrite whole_seconds_negative.
  destruct (Z.ltb_spec (b - a) 0) as [H'|_]; [lia|].
  unfold Derived.whole_minutes. cbn [fst snd JS.mul JS.add]. f_equal.
  assert (E1 : (b - a) / 1000 / 3600 = (b - a) / 60000 / 60)
    by (rewrite !Z.div_div by lia; reflexivity).
  assert (E2 : (b - a) / 1000 / 60 = (b - a) / 60000)
    by (rewrite Z.div_div by lia; reflexivity).
  rewrite E1, E2.
  pose proof (Z.div_mod ((b - a) / 60000) 60 ltac:(lia)). lia.
Qed.

(** X3.  For two timestamps that parse, less than [3600000 * 2^31] ms
    apart, hours and minutes together are the whole minutes of the span,
    [floor((b - a) / 60000)], with every subtraction and division rounded as
    binary64 rounds; so of two such spans the longer never shows as the
    shorter duration. *)
Theorem duration_counts_whole_minutes
    (rnd : Q -> Q) (env : Env) (s e s' e' : JS.value) (a b a' b' : Z) :
  F64.monotone rnd -> F64.exact rnd ->
  JS.not s = false -> JS.not e = false ->
  JS.not s' = false -> JS.not e' = false ->
  getTime env (JS.toStr s) = JS.Int a -> getTime env (JS.toStr e) = JS.Int b ->
  getTime env (JS.toStr s') = JS.Int a' -> getTime env (JS.toStr e') = JS.Int b' ->
  0 <= b - a <= b' - a' -> b' - a' < exact_span ->
  Derived.whole_minutes (V1B64.calculateHoursWorked rnd env s e)
    = JS.Int ((b - a) / 60000) /\
  Derived.whole_minutes (V1B64.calculateHoursWorked rnd env s' e')
    = JS.Int ((b' - a') / 60000) /\
  (b - a) / 60000 <= (b' - a') / 60000.
Proof.
  intros Hm Hx Hs He Hs' He' Ha Hb Ha' Hb' Hd Hspan.
  rewrite (V1B64_duration_parsed rnd Hm Hx env s e a b) by (assumption || lia).
  rewrite (V1B64_duration_parsed rnd Hm Hx env s' e' a' b')
    by (assumption || lia).
  rewrite <- !seconds_hours, <- !seconds_minutes by lia.
  pose proof (whole_minutes_of_duration a b ltac:(lia)) as W.
  pose proof (whole_minutes_of_duration a' b' ltac:(lia)) as W'.
  unfold Spec.duration_of in W, W'. rewrite whole_seconds_negative in W, W'.
  destruct (Z.ltb_spec (b - a) 0) as [N|_]; [lia|].
  destruct (Z.ltb_spec (b' - a') 0) as [N|_]; [lia|].
  rewrite W, W'. repeat split. apply Z.div_le_mono; lia.
Qed.

Lemma duration_counts_whole_minutes_witness :
  Derived.whole_minutes
    (V1B64.calculateHoursWorked F64.b64 sample_env
       (JS.Str "2024-01-02T08:00Z") (JS.Str "2024-01-02T08:45Z"))
    = JS.Int 45 /\
  Derived.whole_minutes
    (V1B64.calculateHoursWorked F64.b64 sample_env
       (JS.Str "2024-01-03T10:00:00.000Z") (JS.Str "2024-01-03T12:32:59.999Z"))
    = JS.Int 152 /\
  45 <= 152.
Proof.
  apply (duration_counts_whole_minutes F64.b64 sample_env
           (JS.Str "2024-01-02T08:00Z") (JS.Str "2024-01-02T08:45Z")
           (JS.Str "2024-01-03T10:00:00.000Z")
           (JS.Str "2024-01-03T12:32:59.999Z")
           1704182400000 1704185100000 1704276000000 1704285179999
           b64_monotone b64_exact);
    try reflexivity.
  lia.
Defined.

(* ================================================================== *)
(** * Further properties: totals *)

Section TotalsFacts.

Variable env : Env.

Lemma add_assoc_num (a b c : JS.number) :
  JS.add a (JS.add b c) = JS.add (JS.add a b) c.
Proof. destruct a, b, c; cbn; try reflexivity. f_equal. lia. Qed.

Lemma add_NaN_r (a : JS.number) : JS.add a JS.NaN = JS.NaN.
Proof. destruct a; reflexivity. Qed.

Lemma floor_div_int (x k : Z) :
  JS.floor_div (JS.Int x) k = JS.Int (x / k).
Proof. unfold JS.floor_div, JS.div, JS.floor. rewrite <- Zdiv_Qdiv. reflexivity. Qed.

(** The accumulators of the earlier revision's loop stay non-negative
    integers, and carry the whole minutes of the entries seen. *)
Lemma V1_fold_shape (l : list TimeLog) :
  forall th tm, 0 <= th -> 0 <= tm ->
  exists H M,
    fold_left (V1.accumulate env) l (JS.Int th, JS.Int tm) = (JS.Int H, JS.Int M)
    /\ 0 <= H /\ 0 <= M
    /\ JS.add (JS.Int (th * 60 + tm)) (Derived.V1_minutes env l)
       = JS.Int (H * 60 + M).
Proof.
  induction l as [|x l IH]; intros th tm Hth Htm.
  - exists th, tm. cbn. repeat split; try lia. f_equal. lia.
  - destruct (V1_duration_shape env (start_time x) (end_time x))
      as (h & m & E & Hh & Hm).
    assert (EA : V1.accumulate env (JS.Int th, JS.Int tm) x
                 = (JS.Int (th + h), JS.Int (tm + m)))
      by (unfold V1.accumulate; rewrite E; reflexivity).
    destruct (IH (th + h) (tm + m) ltac:(lia) ltac:(lia))
      as (H & M & EF & HH & HM & EQ).
    exists H, M. cbn [fold_left]. rewrite EA.
    repeat split; try assumption.
    rewrite <- EQ.
    change (Derived.V1_minutes env (x :: l))
      with (JS.add (Derived.whole_minutes
                      (V1.calculateHoursWorked env (start_time x) (end_time x)))
                   (Derived.V1_minutes env l)).
    rewrite E, add_assoc_num. f_equal.
    unfold Derived.whole_minutes. cbn. f_equal. lia.
Qed.

Lemma V2_fold_clean (l : list TimeLog) :
  Forall (fun log => Derived.clean env log = true) l ->
  forall th tm,
    fold_left (V2.accumulate env) l (JS.Int (th * 60 + tm)) =
    Derived.whole_minutes (fold_left (V1.accumulate env) l (JS.Int th, JS.Int tm)).
Proof.
  induction 1 as [|x l Hx _ IH]; intros th tm.
  - reflexivity.
  - destruct (V1_duration_shape env (start_time x) (end_time x))
      as (h & m & E & _ & _).
    assert (E1 : V1.accumulate env (JS.Int th, JS.Int tm) x
                 = (JS.Int (th + h), JS.Int (tm + m)))
      by (unfold V1.accumulate; rewrite E; reflexivity).
    assert (E2 : V2.accumulate env (JS.Int (th * 60 + tm)) x
                 = JS.Int ((th + h) * 60 + (tm + m))).
    { unfold V2.accumulate. rewrite (V2_duration_clean env x Hx), E.
      cbn. f_equal. lia. }
    cbn [fold_left]. rewrite E1, E2. apply IH.
Qed.

Lemma V2_fold_NaN (l : list TimeLog) :
  fold_left (V2.accumulate env) l JS.NaN = JS.NaN.
Proof.
  induction l as [|x l IH]; [reflexivity|].
  cbn [fold_left].
  replace (V2.accumulate env JS.NaN x) with JS.NaN; [exact IH|].
  unfold V2.accumulate.
  destruct (V2.calculateHoursWorked env (start_time x) (end_time x)).
  reflexivity.
Qed.

Lemma V2_fold_poisoned (l : list TimeLog) (bad : TimeLog) :
  In bad l ->
  V2.calculateHoursWorked env (start_time bad) (end_time bad) = (JS.NaN, JS.NaN) ->
  forall t, fold_left (V2.accumulate env) l t = JS.NaN.
Proof.
  intros Hin Hbad. induction l as [|x l IH]; intros t; [destruct Hin|].
  cbn [fold_left]. destruct Hin as [->|Hin].
  - replace (V2.accumulate env t bad) with JS.NaN; [apply V2_fold_NaN|].
    unfold V2.accumulate. rewrite Hbad. cbn [JS.mul JS.add].
    rewrite add_NaN_r. reflexivity.
  - apply IH. exact Hin.
Qed.

End TotalsFacts.

(** X4.  The totals of the earlier revision are always two integers, hours
    not negative and minutes between 0 and 59, and the carry loses nothing:
    [hours * 60 + minutes] is the sum of the whole minutes of the entries. *)
Theorem V1_totals_normalised (env : Env) (l : list TimeLog) :
  exists H M,
    V1.totals env l = (JS.Int H, JS.Int M) /\
    0 <= H /\ 0 <= M < 60 /\
    Derived.V1_minutes env l = JS.Int (H * 60 + M).
Proof.
  destruct (V1_fold_shape env l 0 0 ltac:(lia) ltac:(lia))
    as (H & M & EF & HH & HM & EQ).
  exists (H + M / 60), (M mod 60). unfold V1.totals. rewrite EF.
  rewrite floor_div_int. cbn [JS.add JS.rem].
  rewrite Z.rem_mod_nonneg by lia.
  repeat split; try (apply Z.mod_pos_bound; lia).
  - pose proof (Z.div_pos M 60 HM ltac:(lia)). lia.
  - destruct (Derived.V1_minutes env l) as [|z]; cbn in EQ; [discriminate|].
    injection EQ as EQ. f_equal.
    pose proof (Z.div_mod M 60 ltac:(lia)). lia.
Qed.

(** X5.  On a list whose entries all have usable timestamps (one absent, or
    both parsing) the two revisions show the same totals, although the
    earlier one adds hours and minutes apart and carries at the end while
    the later one adds whole minutes and splits them. *)
Theorem totals_revisions_agree (env : Env) (l : list TimeLog) :
  Forall (fun log => Derived.clean env log = true) l ->
  V2.totals env l = V1.totals env l.
Proof.
  intros Hl. unfold V2.totals, V1.totals.
  change (JS.Int 0) with (JS.Int (0 * 60 + 0)) at 1 2.
  rewrite (V2_fold_clean env l Hl 0 0).
  destruct (V1_fold_shape env l 0 0 ltac:(lia) ltac:(lia))
    as (H & M & EF & HH & HM & _).
  rewrite EF. unfold Derived.whole_minutes. cbn [fst snd JS.mul JS.add].
  rewrite !floor_div_int. cbn [JS.add JS.rem].
  rewrite !Z.rem_mod_nonneg by lia.
  rewrite Z.div_add_l by lia.
  rewrite (Z.add_comm (H * 60) M), Z.mod_add by lia. reflexivity.
Qed.

Lemma totals_revisions_agree_witness :
  V2.totals sample_env scenario_entries = V1.totals sample_env scenario_entries.
Proof.
  apply (totals_revisions_agree sample_env scenario_entries).
  repeat constructor.
Defined.

(** X6.  In the later revision one entry whose timestamps are both present
    but do not both parse turns the whole total into [(NaN, NaN)], wherever
    the entry stands in the list; the earlier revision counts such an entry
    as zero. *)
Theorem V2_totals_poisoned (env : Env) (l : list TimeLog) (bad : TimeLog) :
  In bad l ->
  JS.not (start_time bad) = false -> JS.not (end_time bad) = false ->
  getTime env (JS.toStr (start_time bad)) = JS.NaN \/
  getTime env (JS.toStr (end_time bad)) = JS.NaN ->
  V2.totals env l = (JS.NaN, JS.NaN) /\
  V1.calculateHoursWorked env (start_time bad) (end_time bad)
    = (JS.Int 0, JS.Int 0).
Proof.
  intros Hin Hs He Hbad. split.
  - unfold V2.totals.
    rewrite (V2_fold_poisoned env l bad Hin); [reflexivity|].
    unfold V2.calculateHoursWorked. rewrite Hs, He. cbn [orb].
    destruct Hbad as [E|E]; rewrite E;
      [destruct (getTime env (JS.toStr (end_time bad)))|]; reflexivity.
  - apply V1_duration_unparsable. exact Hbad.
Qed.

Lemma V2_totals_poisoned_witness :
  V2.totals sample_env
    (scenario_entries ++ [mkLog 3 "lunch" "noon" "2024-01-02T08:45Z" EmptyString])
    = (JS.NaN, JS.NaN) /\
  V1.calculateHoursWorked sample_env (JS.Str "noon") (JS.Str "2024-01-02T08:45Z")
    = (JS.Int 0, JS.Int 0).
Proof.
  apply (V2_totals_poisoned sample_env
           (scenario_entries ++ [mkLog 3 "lunch" "noon" "2024-01-02T08:45Z" EmptyString])
           (mkLog 3 "lunch" "noon" "2024-01-02T08:45Z" EmptyString)).
  - right. right. left. reflexivity.
  - reflexivity.
  - reflexivity.
  - left. reflexivity.
Defined.

(** The mount effect of the earlier revision keeps the totals in step with
    the list: after a successful fetch the totals in the state are the
    totals of the rows now in the state (no rows when the store sends
    [null]), and a failed fetch changes neither the rows nor the totals. *)
Lemma V1_fetch_keeps_totals (env : Env) (st : V1.State) :
  (forall data, Derived.V1_consistent env (V1.onFetched env (Data data) st)) /\
  (forall message,
     V1.logs (V1.onFetched env (Failure message) st) = V1.logs st /\
     V1.error (V1.onFetched env (Failure message) st) = message /\
     (Derived.V1_consistent env st ->
      Derived.V1_consistent env (V1.onFetched env (Failure message) st))).
Proof.
  split.
  - intros data. unfold Derived.V1_consistent, V1.onFetched.
    destruct (V1.totals env match data with Some l => l | None => [] end)
      as [th tm] eqn:E.
    cbn [V1.totalHours V1.totalMinutes V1.logs]. symmetry. exact E.
  - intros message. repeat split. intros H. exact H.
Qed.

(* ================================================================== *)
(** * Further properties: delete *)

Section DeleteFacts.

Lemma filter_filter_swap {A : Type} (p q : A -> bool) (l : list A) :
  filter p (filter q l) = filter q (filter p l).
Proof.
  induction l as [|x l IH]; [reflexivity|]. cbn [filter].
  destruct (q x) eqn:Q, (p x) eqn:P; cbn [filter]; rewrite ?P, ?Q, IH;
    reflexivity.
Qed.

Lemma filter_twice {A : Type} (p : A -> bool) (l : list A) :
  filter p (filter p l) = filter p l.
Proof.
  induction l as [|x l IH]; [reflexivity|]. cbn [filter].
  destruct (p x) eqn:P; cbn [filter]; rewrite ?P, IH; reflexivity.
Qed.

Lemma V2_state_eta (st : V2.State) :
  {| V2.logs := V2.logs st; V2.loading := V2.loading st;
     V2.error := V2.error st |} = st.
Proof. destruct st; reflexivity. Qed.

Variable env : Env.

Lemma add_zero_l (x : JS.number) : JS.add (JS.Int 0) x = x.
Proof. destruct x; reflexivity. Qed.

Lemma V2_accumulate_add (t : JS.number) (x : TimeLog) :
  V2.accumulate env t x =
  JS.add t (Derived.whole_minutes
              (V2.calculateHoursWorked env (start_time x) (end_time x))).
Proof.
  unfold V2.accumulate, Derived.whole_minutes.
  destruct (V2.calculateHoursWorked env (start_time x) (end_time x)).
  reflexivity.
Qed.

(** Minutes added to the start of the loop come out added to its result. *)
Lemma V2_fold_shift (l : list TimeLog) (t c : JS.number) :
  fold_left (V2.accumulate env) l (JS.add t c) =
  JS.add (fold_left (V2.accumulate env) l t) c.
Proof.
  revert t. induction l as [|x l IH]; intros t; [reflexivity|].
  cbn [fold_left]. rewrite <- IH. f_equal.
  rewrite !V2_accumulate_add. apply add_swap.
Qed.

End DeleteFacts.

(** X7.  A delete the user does not confirm leaves the component state
    exactly as it was, whatever the identifier and whatever the store would
    have replied; so does a confirmed delete, accepted by the store, of an
    identifier that no entry carries. *)
Theorem delete_unknown_id (st : V2.State) (id_ : Z) (storeError : option string) :
  V2.handleDelete false storeError id_ st = st /\
  (~ In id_ (map id (V2.logs st)) -> V2.handleDelete true None id_ st = st).
Proof.
  split; [reflexivity|]. intros Hnot.
  unfold V2.handleDelete, V2.setLogs. cbn [negb V2.logs V2.loading V2.error].
  rewrite filter_keeps_all; [apply V2_state_eta|].
  intros x Hx. apply negb_true_iff, Z.eqb_neq. intros E. apply Hnot.
  rewrite <- E. apply in_map. exact Hx.
Qed.

(** The delete of [B], not confirmed, and the confirmed delete of an
    identifier the table does not hold. *)
Lemma delete_unknown_id_witness :
  V2.handleDelete false (Some "offline") 2 abc_state = abc_state /\
  V2.handleDelete true None 7 abc_state = abc_state.
Proof.
  split.
  - exact (proj1 (delete_unknown_id abc_state 2 (Some "offline"))).
  - apply (proj2 (delete_unknown_id abc_state 7 None)).
    cbn. intuition discriminate.
Defined.

(** X8.  Confirmed deletes that the store accepts can be issued in either
    order with the same resulting state, and deleting the same identifier a
    second time changes nothing. *)
Theorem deletes_commute (st : V2.State) (i j : Z) :
  V2.handleDelete true None i (V2.handleDelete true None j st) =
  V2.handleDelete true None j (V2.handleDelete true None i st) /\
  V2.handleDelete true None i (V2.handleDelete true None i st) =
  V2.handleDelete true None i st.
Proof.
  unfold V2.handleDelete, V2.setLogs.
  cbn [negb V2.logs V2.loading V2.error]. split.
  - rewrite filter_filter_swap. reflexivity.
  - rewrite filter_twice. reflexivity.
Qed.

(** X9.  With identifiers unique, a successful delete of an entry lowers
    the accumulated minutes of the totals memo by exactly the whole minutes
    of that entry: the minutes before are the minutes after plus those of
    the deleted entry. *)
Theorem delete_lowers_total (env : Env) (st : V2.State) (b : TimeLog) :
  In b (V2.logs st) -> NoDup (map id (V2.logs st)) ->
  Derived.V2_tMin env (V2.logs st) =
  JS.add (Derived.V2_tMin env (V2.logs (V2.handleDelete true None (id b) st)))
         (Derived.whole_minutes
            (V2.calculateHoursWorked env (start_time b) (end_time b))) /\
  V2.totals env (V2.logs st) =
    (JS.floor_div (Derived.V2_tMin env (V2.logs st)) 60,
     JS.rem (Derived.V2_tMin env (V2.logs st)) 60).
Proof.
  intros Hin ND. split; [|reflexivity].
  destruct (in_split _ _ Hin) as (l1 & l2 & E).
  cbn [V2.handleDelete negb V2.setLogs V2.logs].
  rewrite E in ND |- *. rewrite (filter_other_ids l1 l2 b ND).
  unfold Derived.V2_tMin.
  rewrite (fold_left_commutes _ (V2_accumulate_commutes env)
             (l1 ++ b :: l2) (b :: l1 ++ l2));
    [|symmetry; apply Permutation_middle].
  cbn [fold_left]. rewrite V2_accumulate_add, V2_fold_shift.
  reflexivity.
Qed.

Lemma delete_lowers_total_witness :
  Derived.V2_tMin sample_env scenario_entries =
  JS.add (Derived.V2_tMin sample_env
            (V2.logs (V2.handleDelete true None 2
                        {| V2.logs := scenario_entries; V2.loading := false;
                           V2.error := EmptyString |})))
         (JS.Int 45).
Proof.
  exact (proj1 (delete_lowers_total sample_env
           {| V2.logs := scenario_entries; V2.loading := false;
              V2.error := EmptyString |}
           (mkLog 2 "standup" "2024-01-02T08:00Z" "2024-01-02T08:45Z" EmptyString)
           ltac:(right; left; reflexivity)
           ltac:(repeat constructor; cbn; intuition discriminate))).
Defined.

(* ================================================================== *)
(** * Further properties: inline editing *)

Section EditFacts.

Variable toISOString : string -> option string.

Lemma merge_keeps_id (l : TimeLog) (f : V2Edit.Partial) :
  V2Edit.p_id f = Some (id l) -> id (V2Edit.merge l f) = id l.
Proof. intros H. cbn. rewrite H. reflexivity. Qed.

Lemma map_merge_ids (f : V2Edit.Partial) (i : Z) (l : list TimeLog) :
  V2Edit.p_id f = Some i ->
  map id (map (fun x => if id x =? i then V2Edit.merge x f else x) l)
  = map id l.
Proof.
  intros H. rewrite map_map. apply map_ext. intros x.
  destruct (Z.eqb_spec (id x) i) as [E|_]; [|reflexivity].
  apply merge_keeps_id. rewrite H, E. reflexivity.
Qed.

(** Every event keeps the form in step with the row being edited. *)
Lemma step_form_matches (st : V2Edit.State) (ev : V2Edit.event) :
  V2Edit.form_matches st -> V2Edit.form_matches (V2Edit.step toISOString st ev).
Proof.
  unfold V2Edit.form_matches. intros W.
  assert (keep : forall st',
            V2Edit.editingId st' = V2Edit.editingId st ->
            V2Edit.p_id (V2Edit.editForm st') = V2Edit.p_id (V2Edit.editForm st) ->
            forall i, V2Edit.editingId st' = Some i ->
                      V2Edit.p_id (V2Edit.editForm st') = Some i).
  { intros st' E1 E2 i. rewrite E1, E2. apply W. }
  destruct ev; cbn [V2Edit.step].
  - intros i H. exact H.
  - case (V2Edit.editingId st); [intros _|exact W].
    intros i H. cbn in H. discriminate H.
  - case (V2Edit.editingId st); [intros _|exact W]. apply keep; reflexivity.
  - case (V2Edit.editingId st); [intros _|exact W].
    unfold V2Edit.changeStartTime.
    destruct (toISOString v); [apply keep; reflexivity|exact W].
  - case (V2Edit.editingId st); [intros _|exact W].
    unfold V2Edit.changeEndTime.
    destruct (toISOString v); [apply keep; reflexivity|exact W].
  - case (V2Edit.editingId st); [intros _|exact W]. apply keep; reflexivity.
  - case (V2Edit.editingId st); [intros j|exact W].
    unfold V2Edit.saveEditing.
    destruct (V2Edit.isoOf toISOString _); [|exact W].
    destruct (V2Edit.isoOf toISOString _); [|exact W].
    destruct storeError; [apply keep; reflexivity|].
    intros i H. cbn in H. discriminate H.
  - apply keep; reflexivity.
Qed.

Lemma filter_ids_incl (p : TimeLog -> bool) (l : list TimeLog) :
  incl (map id (filter p l)) (map id l).
Proof.
  intros x Hx. apply in_map_iff in Hx. destruct Hx as (y & E & Hy).
  apply filter_In in Hy. apply in_map_iff. exists y. tauto.
Qed.

Lemma filter_ids_NoDup (p : TimeLog -> bool) (l : list TimeLog) :
  NoDup (map id l) -> NoDup (map id (filter p l)).
Proof.
  induction l as [|x l IH]; cbn [map filter]; intros ND; [constructor|].
  inversion ND as [|? ? Hx ND']; subst.
  destruct (p x); [|apply IH; exact ND'].
  cbn [map]. constructor; [|apply IH; exact ND'].
  intros H. apply Hx. apply (filter_ids_incl p l). exact H.
Qed.

Lemma delete_ids (confirmed : bool) (storeError : option string) (i : Z)
      (v : V2.State) :
  incl (map id (V2.logs (V2.handleDelete confirmed storeError i v)))
       (map id (V2.logs v)) /\
  (NoDup (map id (V2.logs v)) ->
   NoDup (map id (V2.logs (V2.handleDelete confirmed storeError i v)))).
Proof.
  unfold V2.handleDelete.
  destruct confirmed; cbn [negb]; [|split; [apply incl_refl|auto]].
  destruct storeError; cbn [V2.setLogs V2.setError V2.logs].
  - split; [apply incl_refl|auto].
  - split; [apply filter_ids_incl|apply filter_ids_NoDup].
Qed.

(** What one event does to the column of identifiers. *)
Lemma step_ids (st : V2Edit.State) (ev : V2Edit.event) :
  V2Edit.form_matches st ->
  (V2Edit.is_delete ev = false ->
   V2Edit.ids (V2Edit.step toISOString st ev) = V2Edit.ids st) /\
  incl (V2Edit.ids (V2Edit.step toISOString st ev)) (V2Edit.ids st) /\
  (NoDup (V2Edit.ids st) -> NoDup (V2Edit.ids (V2Edit.step toISOString st ev))).
Proof.
  intros W.
  assert (same : forall st', V2Edit.ids st' = V2Edit.ids st ->
            (V2Edit.is_delete ev = false -> V2Edit.ids st' = V2Edit.ids st) /\
            incl (V2Edit.ids st') (V2Edit.ids st) /\
            (NoDup (V2Edit.ids st) -> NoDup (V2Edit.ids st'))).
  { intros st' E. rewrite E. repeat split; auto. apply incl_refl. }
  destruct ev; cbn [V2Edit.step].
  - apply same. reflexivity.
  - case (V2Edit.editingId st); [intros _|]; apply same; reflexivity.
  - case (V2Edit.editingId st); [intros _|]; apply same; reflexivity.
  - case (V2Edit.editingId st); [intros _|]; apply same; [|reflexivity].
    unfold V2Edit.changeStartTime. destruct (toISOString v); reflexivity.
  - case (V2Edit.editingId st); [intros _|]; apply same; [|reflexivity].
    unfold V2Edit.changeEndTime. destruct (toISOString v); reflexivity.
  - case (V2Edit.editingId st); [intros _|]; apply same; reflexivity.
  - destruct (V2Edit.editingId st) as [j|] eqn:E; apply same; [|reflexivity].
    unfold V2Edit.saveEditing.
    destruct (V2Edit.isoOf toISOString _); [|reflexivity].
    destruct (V2Edit.isoOf toISOString _); [|reflexivity].
    destruct storeError; [reflexivity|].
    unfold V2Edit.ids. cbn. apply map_merge_ids. apply W. exact E.
  - split; [discriminate|]. unfold V2Edit.ids. cbn. apply delete_ids.
Qed.

End EditFacts.

(** X10.  From a state in which no row is being edited, whatever the user
    clicks and types in the rows (edit, cancel, the four inputs, save with
    any reply of the store), as long as nothing is deleted the entries keep
    their identifiers, each at its position: a save never changes, adds or
    drops an [id]. *)
Theorem editing_keeps_ids
    (toISOString : string -> option string)
    (evs : list V2Edit.event) (st : V2Edit.State) :
  V2Edit.editingId st = None ->
  Forall (fun ev => V2Edit.is_delete ev = false) evs ->
  V2Edit.ids (V2Edit.run toISOString evs st) = V2Edit.ids st.
Proof.
  intros Hidle Hevs.
  assert (W : V2Edit.form_matches st)
    by (intros i H; rewrite Hidle in H; discriminate H).
  clear Hidle. revert st W.
  induction Hevs as [|ev evs Hev _ IH]; intros st W; [reflexivity|].
  cbn [V2Edit.run fold_left].
  change (fold_left (V2Edit.step toISOString) evs
            (V2Edit.step toISOString st ev))
    with (V2Edit.run toISOString evs (V2Edit.step toISOString st ev)).
  rewrite IH by (apply step_form_matches; exact W).
  apply (step_ids toISOString st ev W). exact Hev.
Qed.

Lemma editing_keeps_ids_witness :
  V2Edit.ids
    (V2Edit.run sample_iso
       [ V2Edit.ClickEdit
           (mkLog 2 "standup" "2024-01-02T08:00Z" "2024-01-02T08:45Z" EmptyString);
         V2Edit.TypeTaskName "daily";
         V2Edit.TypeEndTime "2024-01-01T11:30Z";
         V2Edit.ClickSave None ]
       (V2Edit.init scenario_entries))
  = V2Edit.ids (V2Edit.init scenario_entries).
Proof.
  apply (editing_keeps_ids sample_iso).
  - reflexivity.
  - repeat constructor.
Defined.

Example editing_example :
  V2.logs (V2Edit.view
    (V2Edit.run sample_iso
       [ V2Edit.ClickEdit
           (mkLog 2 "standup" "2024-01-02T08:00Z" "2024-01-02T08:45Z" EmptyString);
         V2Edit.TypeTaskName "daily";
         V2Edit.TypeEndTime "half past eight";
         V2Edit.ClickSave None ]
       (V2Edit.init scenario_entries)))
  = [ mkLog 1 "review" "2024-01-01T09:00Z" "2024-01-01T11:30Z" EmptyString;
      mkLog 2 "daily" "2024-01-02T08:00Z" "2024-01-02T08:45Z" EmptyString ].
Proof. reflexivity. Qed.

(** X11.  Whatever the user does on the table, deletes included, identifiers
    that were unique stay unique, and no identifier appears in the list that
    was not there at the start. *)
Theorem table_keeps_ids_unique
    (toISOString : string -> option string)
    (evs : list V2Edit.event) (st : V2Edit.State) :
  V2Edit.editingId st = None ->
  NoDup (V2Edit.ids st) ->
  NoDup (V2Edit.ids (V2Edit.run toISOString evs st)) /\
  incl (V2Edit.ids (V2Edit.run toISOString evs st)) (V2Edit.ids st).
Proof.
  intros Hidle.
  assert (W : V2Edit.form_matches st)
    by (intros i H; rewrite Hidle in H; discriminate H).
  clear Hidle. revert st W.
  induction evs as [|ev evs IH]; intros st W ND.
  - split; [exact ND|apply incl_refl].
  - cbn [V2Edit.run fold_left].
    change (fold_left (V2Edit.step toISOString) evs
              (V2Edit.step toISOString st ev))
      with (V2Edit.run toISOString evs (V2Edit.step toISOString st ev)).
    destruct (step_ids toISOString st ev W) as (_ & Hincl & Hnd).
    destruct (IH (V2Edit.step toISOString st ev)
                 (step_form_matches toISOString st ev W) (Hnd ND))
      as [ND' I'].
    split; [exact ND'|]. intros x Hx. apply Hincl, I'. exact Hx.
Qed.

Lemma table_keeps_ids_unique_witness :
  NoDup (V2Edit.ids
           (V2Edit.run sample_iso
              [ V2Edit.ClickEdit
                  (mkLog 2 "standup" "2024-01-02T08:00Z" "2024-01-02T08:45Z"
                         EmptyString);
                V2Edit.ClickDelete true None 1;
                V2Edit.TypeNotes "moved";
                V2Edit.ClickSave (Some "timeout");
                V2Edit.ClickSave None ]
              (V2Edit.init scenario_entries))) /\
  incl (V2Edit.ids
          (V2Edit.run sample_iso
             [ V2Edit.ClickEdit
                 (mkLog 2 "standup" "2024-01-02T08:00Z" "2024-01-02T08:45Z"
                        EmptyString);
               V2Edit.ClickDelete true None 1;
               V2Edit.TypeNotes "moved";
               V2Edit.ClickSave (Some "timeout");
               V2Edit.ClickSave None ]
             (V2Edit.init scenario_entries)))
       (V2Edit.ids (V2Edit.init scenario_entries)).
Proof.
  apply (table_keeps_ids_unique sample_iso).
  - reflexivity.
  - repeat constructor; cbn; intuition discriminate.
Defined.

Section SaveUnchanged.

Lemma same_id_same_entry (l : list TimeLog) (a b : TimeLog) :
  NoDup (map id l) -> In a l -> In b l -> id a = id b -> a = b.
Proof.
  induction l as [|x l IH]; cbn [map]; intros ND Ha Hb E; [destruct Ha|].
  inversion ND as [|? ? Hx ND']; subst.
  destruct Ha as [->|Ha], Hb as [->|Hb].
  - reflexivity.
  - exfalso. apply Hx. rewrite E. apply in_map. exact Hb.
  - exfalso. apply Hx. rewrite <- E. apply in_map. exact Ha.
  - apply IH; assumption.
Qed.

Lemma merge_spread (l log : TimeLog) :
  V2Edit.merge l (V2Edit.spread log) = log.
Proof. destruct log. reflexivity. Qed.

End SaveUnchanged.

(** X12.  Opening a row for editing and saving it as it is, with both of
    its dates convertible and the store accepting the update, leaves the
    list exactly as it was and closes the editor (identifiers unique). *)
Theorem save_unchanged_row
    (toISOString : string -> option string)
    (st : V2Edit.State) (log : TimeLog) :
  In log (V2.logs (V2Edit.view st)) ->
  NoDup (V2Edit.ids st) ->
  V2Edit.isoOf toISOString (Some (start_time log)) <> None ->
  V2Edit.isoOf toISOString (Some (end_time log)) <> None ->
  let st' := V2Edit.saveEditing toISOString None (id log)
               (V2Edit.startEditing log st) in
  V2.logs (V2Edit.view st') = V2.logs (V2Edit.view st) /\
  V2Edit.editingId st' = None.
Proof.
  intros Hin ND Hs He. unfold V2Edit.saveEditing.
  cbn [V2Edit.startEditing V2Edit.setEditForm V2Edit.setEditingId
       V2Edit.editForm V2Edit.spread V2Edit.p_start_time V2Edit.p_end_time].
  destruct (V2Edit.isoOf toISOString (Some (start_time log)));
    [|contradiction].
  destruct (V2Edit.isoOf toISOString (Some (end_time log)));
    [|contradiction].
  cbn. split; [|reflexivity].
  rewrite <- (map_id (V2.logs (V2Edit.view st))) at 2.
  apply map_ext_in. intros x Hx.
  destruct (Z.eqb_spec (id x) (id log)) as [E|_]; [|reflexivity].
  change (V2Edit.merge x (V2Edit.spread log) = x).
  rewrite merge_spread. symmetry.
  apply (same_id_same_entry (V2.logs (V2Edit.view st))); assumption.
Qed.

Lemma save_unchanged_row_witness :
  V2.logs (V2Edit.view
    (V2Edit.saveEditing sample_iso None 2
       (V2Edit.startEditing
          (mkLog 2 "standup" "2024-01-02T08:00Z" "2024-01-02T08:45Z" EmptyString)
          (V2Edit.init scenario_entries))))
  = scenario_entries /\
  V2Edit.editingId
    (V2Edit.saveEditing sample_iso None 2
       (V2Edit.startEditing
          (mkLog 2 "standup" "2024-01-02T08:00Z" "2024-01-02T08:45Z" EmptyString)
          (V2Edit.init scenario_entries)))
  = None.
Proof.
  apply (save_unchanged_row sample_iso (V2Edit.init scenario_entries)
           (mkLog 2 "standup" "2024-01-02T08:00Z" "2024-01-02T08:45Z" EmptyString)).
  - right. left. reflexivity.
  - repeat constructor; cbn; intuition discriminate.
  - discriminate.
  - discriminate.
Defined.

(* ================================================================== *)
(** * Further properties: the exported text reads back *)

Section Reading.

Lemma string_app_nil_r (s : string) : s ++ EmptyString = s.
Proof. induction s as [|c s IH]; cbn; [|rewrite IH]; reflexivity. Qed.

Lemma at_sep_not_quote (rest : string) :
  Csv.at_sep rest = true ->
  match rest with
  | EmptyString => True
  | String c _ => Ascii.eqb c JS.dquote = false
  end.
Proof.
  destruct rest as [|c r]; [trivial|]. cbn [Csv.at_sep]. unfold Csv.is_sep.
  intros H. apply orb_true_iff in H.
  destruct H as [H|H]; apply Ascii.eqb_eq in H; subst c; reflexivity.
Qed.

Lemma read_quoted_doubled (f rest : string) :
  Csv.at_sep rest = true ->
  Csv.read_quoted (Spec.double_quotes f ++ String JS.dquote rest) = Some (f, rest).
Proof.
  intros Hrest. induction f as [|c f IH].
  - cbn [Spec.double_quotes String.append Csv.read_quoted].
    rewrite Ascii.eqb_refl.
    pose proof (at_sep_not_quote rest Hrest) as Hq.
    destruct rest as [|c r]; [reflexivity|]. rewrite Hq. reflexivity.
  - cbn [Spec.double_quotes].
    destruct (Ascii.eqb c JS.dquote) eqn:E.
    + apply Ascii.eqb_eq in E. subst c.
      cbn [String.append Csv.read_quoted]. rewrite Ascii.eqb_refl.
      rewrite IH. reflexivity.
    + cbn [String.append Csv.read_quoted]. rewrite E, IH. reflexivity.
Qed.

Lemma read_plain_whole (f rest : string) :
  JS.includes f JS.comma = false -> JS.includes f JS.LF = false ->
  Csv.at_sep rest = true ->
  Csv.read_plain (f ++ rest) = (f, rest).
Proof.
  intros Hc Hl Hrest. induction f as [|c f IH].
  - cbn [String.append]. destruct rest as [|c r]; [reflexivity|].
    cbn [Csv.at_sep] in Hrest. cbn [Csv.read_plain]. rewrite Hrest.
    reflexivity.
  - cbn [JS.includes] in Hc, Hl.
    destruct (Ascii.eqb c JS.comma) eqn:E1; [discriminate|].
    destruct (Ascii.eqb c JS.LF) eqn:E2; [discriminate|].
    cbn [String.append Csv.read_plain]. unfold Csv.is_sep.
    rewrite E1, E2. cbn [orb]. rewrite (IH Hc Hl). reflexivity.
Qed.

(** A text without comma, double quote and line feed writes itself. *)
Lemma writes_plain (f : string) :
  JS.includes f JS.comma = false -> JS.includes f JS.dquote = false ->
  JS.includes f JS.LF = false ->
  Csv.writes f f.
Proof.
  intros Hc Hq Hl rest Hrest.
  rewrite <- (read_plain_whole f rest Hc Hl Hrest).
  destruct f as [|c f].
  - cbn [String.append].
    pose proof (at_sep_not_quote rest Hrest) as Hn.
    destruct rest as [|c r]; [reflexivity|].
    cbn [Csv.read_field]. rewrite Hn. reflexivity.
  - cbn [JS.includes] in Hq.
    destruct (Ascii.eqb c JS.dquote) eqn:E; [discriminate|].
    cbn [String.append Csv.read_field]. rewrite E. reflexivity.
Qed.

(** The quoted form of a text writes that text. *)
Lemma writes_quoted (f : string) : Csv.writes (Spec.quoted f) f.
Proof.
  intros rest Hrest. unfold Spec.quoted.
  cbn [String.append Csv.read_field]. rewrite Ascii.eqb_refl.
  rewrite string_app_assoc. cbn [JS.chr String.append].
  apply read_quoted_doubled. exact Hrest.
Qed.

Lemma V1_escape_writes (v : JS.value) :
  Csv.writes (V1.escapeCsvField v) (JS.toStr (Spec.blank v)).
Proof.
  destruct v as [| |s].
  - apply writes_plain; reflexivity.
  - apply writes_plain; reflexivity.
  - cbn [Spec.blank JS.toStr]. rewrite V1_escape_string.
    destruct (Spec.needs_quoting s || JS.includes s JS.CR) eqn:E.
    + apply writes_quoted.
    + apply orb_false_iff in E. destruct E as [E _].
      rewrite <- includes_three in E.
      apply orb_false_iff in E. destruct E as [E E3].
      apply orb_false_iff in E. destruct E as [E1 E2].
      apply writes_plain; assumption.
Qed.

Lemma V2_escape_writes (v : JS.value) :
  Csv.writes (V2.escape v) (JS.toStr (JS.or_empty v)).
Proof. rewrite V2_escape_always. apply writes_quoted. Qed.

Lemma read_records_S (n : nat) (s : string) :
  Csv.read_records (S n) s =
  match Csv.read_field s with
  | None => None
  | Some (f, EmptyString) => Some [[f]]
  | Some (f, String c r) =>
      if Ascii.eqb c JS.comma then
        match Csv.read_records n r with
        | Some (rec :: recs) => Some ((f :: rec) :: recs)
        | _ => None
        end
      else if Ascii.eqb c JS.LF then
        option_map (cons [f]) (Csv.read_records n r)
      else None
  end.
Proof. reflexivity. Qed.

Lemma V2_escape_writes_text (x : string) :
  Csv.writes (V2.escape (JS.Str x)) x.
Proof.
  pose proof (V2_escape_writes (JS.Str x)) as H.
  destruct x; exact H.
Qed.

(** Reading one record that is followed by nothing, or by a line feed and
    more text.  [efs] pairs each written field with the text it writes. *)
Lemma read_one_record (efs : list (string * string)) (n : nat) :
  efs <> [] ->
  Forall (fun ef => Csv.writes (fst ef) (snd ef)) efs ->
  Csv.read_records (List.length efs + n) (JS.join "," (map fst efs))
    = Some [map snd efs] /\
  forall rest,
    Csv.read_records (List.length efs + n)
      (JS.join "," (map fst efs) ++ String JS.LF rest)
    = option_map (cons (map snd efs)) (Csv.read_records n rest).
Proof.
  intros Hne Hall. induction Hall as [|[e f] efs He Hall IH]; [contradiction|].
  cbn [fst snd] in He. destruct efs as [|ef2 efs].
  - clear IH. cbn [map List.length JS.join String.concat fst snd Nat.add].
    split.
    + rewrite read_records_S. rewrite <- (string_app_nil_r e) at 1.
      rewrite (He EmptyString eq_refl). reflexivity.
    + intros rest. rewrite read_records_S.
      rewrite (He (String JS.LF rest) eq_refl). reflexivity.
  - destruct (IH ltac:(discriminate)) as [IH1 IH2]. clear IH.
    assert (J : JS.join "," (map fst ((e, f) :: ef2 :: efs))
                = e ++ String JS.comma (JS.join "," (map fst (ef2 :: efs))))
      by reflexivity.
    rewrite J.
    change (List.length ((e, f) :: ef2 :: efs) + n)%nat
      with (S (List.length (ef2 :: efs) + n)).
    split.
    + rewrite read_records_S, (He (String JS.comma _) eq_refl).
      rewrite Ascii.eqb_refl, IH1. reflexivity.
    + intros rest. rewrite string_app_assoc. cbn [String.append].
      rewrite read_records_S, (He (String JS.comma _) eq_refl).
      rewrite Ascii.eqb_refl, IH2.
      destruct (Csv.read_records n rest); reflexivity.
Qed.

(** Reading a whole text: every record comes back, in order. *)
Lemma read_all_records (rows : list (list (string * string))) (n : nat) :
  rows <> [] ->
  Forall (fun efs => efs <> [] /\
                     Forall (fun ef => Csv.writes (fst ef) (snd ef)) efs) rows ->
  Csv.read_records (List.length (List.concat rows) + n)
    (Csv.text_of (map (map fst) rows))
  = Some (map (map snd) rows).
Proof.
  intros Hne Hall. revert n.
  induction Hall as [|efs rows [He Hw] Hall IH]; [contradiction|]. intros n.
  destruct rows as [|row2 rows].
  - cbn [List.concat map Csv.text_of JS.join String.concat].
    rewrite app_nil_r.
    apply (read_one_record efs n He Hw).
  - assert (T : Csv.text_of (map (map fst) (efs :: row2 :: rows))
                = JS.join "," (map fst efs)
                  ++ String JS.LF (Csv.text_of (map (map fst) (row2 :: rows))))
      by reflexivity.
    rewrite T.
    change (List.concat (efs :: row2 :: rows))
      with (efs ++ List.concat (row2 :: rows))%list.
    rewrite length_app, <- Nat.add_assoc.
    rewrite (proj2 (read_one_record efs _ He Hw)).
    rewrite (IH ltac:(discriminate) n). reflexivity.
Qed.

End Reading.

Section ReadingExports.

Variable env : Env.

Lemma V1_csvRow_written (log : TimeLog) :
  V1.csvRow env log = JS.join "," (map fst (Csv.V1_written env log)).
Proof.
  unfold V1.csvRow, Csv.V1_written.
  destruct (V1.calculateHoursWorked env (start_time log) (end_time log)).
  reflexivity.
Qed.

Lemma V2_csvRow_written (log : TimeLog) :
  V2.csvRow env log = JS.join "," (map fst (Csv.V2_written env log)).
Proof.
  unfold V2.csvRow, Csv.V2_written.
  destruct (V2.calculateHoursWorked env (start_time log) (end_time log)).
  reflexivity.
Qed.

Lemma V1_csvString_written (logs : list TimeLog) :
  V1.csvString env logs =
  Csv.text_of (map (map fst) (Csv.header_written V1.headers
                              :: map (Csv.V1_written env) logs)).
Proof.
  unfold V1.csvString, Csv.text_of. cbn [map]. f_equal. f_equal.
  rewrite !map_map. apply map_ext. apply V1_csvRow_written.
Qed.

Lemma V2_csvString_written (logs : list TimeLog) :
  V2.csvString env logs =
  Csv.text_of (map (map fst) (Csv.header_written V2.headers
                              :: map (Csv.V2_written env) logs)).
Proof.
  unfold V2.csvString, Csv.text_of. cbn [map]. f_equal. f_equal.
  rewrite !map_map. apply map_ext. apply V2_csvRow_written.
Qed.

Lemma V1_written_ok (log : TimeLog) :
  Csv.V1_written env log <> [] /\
  Forall (fun ef => Csv.writes (fst ef) (snd ef)) (Csv.V1_written env log).
Proof.
  split; [discriminate|]. unfold Csv.V1_written.
  repeat (apply Forall_cons;
          [cbn [fst snd];
           first [apply V1_escape_writes
                 |apply (V1_escape_writes (JS.Str _))]|]).
  apply Forall_nil.
Qed.

Lemma V2_written_ok (log : TimeLog) :
  Csv.V2_written env log <> [] /\
  Forall (fun ef => Csv.writes (fst ef) (snd ef)) (Csv.V2_written env log).
Proof.
  split; [discriminate|]. unfold Csv.V2_written.
  repeat (apply Forall_cons;
          [cbn [fst snd];
           first [apply V2_escape_writes_text
                 |apply V2_escape_writes]|]).
  apply Forall_nil.
Qed.

Lemma headers_written_ok :
  (Csv.header_written V1.headers <> [] /\
   Forall (fun ef => Csv.writes (fst ef) (snd ef))
          (Csv.header_written V1.headers)) /\
  (Csv.header_written V2.headers <> [] /\
   Forall (fun ef => Csv.writes (fst ef) (snd ef))
          (Csv.header_written V2.headers)).
Proof.
  split; (split; [discriminate|]);
    repeat (apply Forall_cons; [apply writes_plain; reflexivity|]);
    apply Forall_nil.
Qed.

Lemma five_per_row {A : Type} (w : A -> list (string * string))
      (hs : list (string * string)) (l : list A) :
  List.length hs = 5%nat -> (forall x, List.length (w x) = 5%nat) ->
  List.length (List.concat (hs :: map w l)) = (5 * S (List.length l))%nat.
Proof.
  intros Hh Hw. cbn [List.concat]. rewrite length_app, Hh.
  induction l as [|x l IH]; [reflexivity|].
  cbn [map List.concat List.length]. rewrite length_app, Hw. lia.
Qed.

Lemma V1_text_reads (logs : list TimeLog) (n : nat) :
  Csv.read_records (5 * S (List.length logs) + n) (V1.csvString env logs)
  = Some (V1.headers :: map (Csv.V1_record env) logs).
Proof.
  rewrite V1_csvString_written.
  rewrite <- (five_per_row (Csv.V1_written env)
                (Csv.header_written V1.headers) logs eq_refl (fun _ => eq_refl)).
  rewrite read_all_records.
  - cbn [map]. f_equal. f_equal. rewrite map_map. reflexivity.
  - discriminate.
  - constructor; [apply headers_written_ok|].
    apply Forall_forall. intros efs H. apply in_map_iff in H.
    destruct H as (log & <- & _). apply V1_written_ok.
Qed.

Lemma V2_text_reads (logs : list TimeLog) (n : nat) :
  Csv.read_records (5 * S (List.length logs) + n) (V2.csvString env logs)
  = Some (V2.headers :: map (Csv.V2_record env) logs).
Proof.
  rewrite V2_csvString_written.
  rewrite <- (five_per_row (Csv.V2_written env)
                (Csv.header_written V2.headers) logs eq_refl (fun _ => eq_refl)).
  rewrite read_all_records.
  - cbn [map]. f_equal. f_equal. rewrite map_map. reflexivity.
  - discriminate.
  - constructor; [apply headers_written_ok|].
    apply Forall_forall. intros efs H. apply in_map_iff in H.
    destruct H as (log & <- & _). apply V2_written_ok.
Qed.

End ReadingExports.

(** X13.  The text the earlier revision exports reads back: taken apart at
    line feeds and commas outside double quotes, with doubled quotes inside
    quotes read as one, it gives the header names and then, for every entry
    in order, its five texts exactly (a missing task name or note as the
    empty text), whatever commas, quotes or line breaks the texts hold. *)
Theorem V1_export_reads_back (env : Env) (logs : list TimeLog) (fuel : nat) :
  (5 * S (List.length logs) <= fuel)%nat ->
  Csv.read_records fuel (V1.csvString env logs)
  = Some (V1.headers :: map (Csv.V1_record env) logs).
Proof.
  intros H.
  replace fuel with (5 * S (List.length logs)
                     + (fuel - 5 * S (List.length logs)))%nat by lia.
  apply V1_text_reads.
Qed.

(** X14.  The text the later revision exports reads back in the same way to
    its header names and the five texts of every entry. *)
Theorem V2_export_reads_back (env : Env) (logs : list TimeLog) (fuel : nat) :
  (5 * S (List.length logs) <= fuel)%nat ->
  Csv.read_records fuel (V2.csvString env logs)
  = Some (V2.headers :: map (Csv.V2_record env) logs).
Proof.
  intros H.
  replace fuel with (5 * S (List.length logs)
                     + (fuel - 5 * S (List.length logs)))%nat by lia.
  apply V2_text_reads.
Qed.

(** X15.  The export loses nothing it writes: two entry lists that export to
    the same text have the same number of entries and, entry by entry, the
    same five texts.  This holds for both revisions. *)
Theorem export_is_unambiguous (env : Env) (l1 l2 : list TimeLog) :
  (V1.csvString env l1 = V1.csvString env l2 ->
   map (Csv.V1_record env) l1 = map (Csv.V1_record env) l2) /\
  (V2.csvString env l1 = V2.csvString env l2 ->
   map (Csv.V2_record env) l1 = map (Csv.V2_record env) l2).
Proof.
  split; intros E.
  - pose proof (V1_text_reads env l1 (5 * S (List.length l2))) as R1.
    pose proof (V1_text_reads env l2 (5 * S (List.length l1))) as R2.
    rewrite E, Nat.add_comm, R2 in R1. injection R1 as R1. auto.
  - pose proof (V2_text_reads env l1 (5 * S (List.length l2))) as R1.
    pose proof (V2_text_reads env l2 (5 * S (List.length l1))) as R2.
    rewrite E, Nat.add_comm, R2 in R1. injection R1 as R1. auto.
Qed.

Lemma V1_export_reads_back_witness :
  Csv.read_records 15 (V1.csvString sample_env tricky_entries)
  = Some (V1.headers :: map (Csv.V1_record sample_env) tricky_entries).
Proof.
  apply (V1_export_reads_back sample_env tricky_entries 15). vm_compute. lia.
Defined.

Lemma V2_export_reads_back_witness :
  Csv.read_records 15 (V2.csvString sample_env tricky_entries)
  = Some (V2.headers :: map (Csv.V2_record sample_env) tricky_entries).
Proof.
  apply (V2_export_reads_back sample_env tricky_entries 15). vm_compute. lia.
Defined.

(** A missing note and an empty note export alike, and read alike. *)
Lemma export_is_unambiguous_witness :
  map (Csv.V1_record sample_env)
      [ {| id := 1; task_name := JS.Str "review";
           start_time := JS.Str "2024-01-01T09:00Z";
           end_time := JS.Str "2024-01-01T11:30Z"; notes := JS.Null |} ]
  = map (Csv.V1_record sample_env)
      [ mkLog 1 "review" "2024-01-01T09:00Z" "2024-01-01T11:30Z" EmptyString ].
Proof.
  apply (proj1 (export_is_unambiguous sample_env
           [ {| id := 1; task_name := JS.Str "review";
                start_time := JS.Str "2024-01-01T09:00Z";
                end_time := JS.Str "2024-01-01T11:30Z"; notes := JS.Null |} ]
           [ mkLog 1 "review" "2024-01-01T09:00Z" "2024-01-01T11:30Z"
                   EmptyString ])).
  reflexivity.
Defined.

Example export_reads_back_example :
  Csv.read_records 15 (V1.csvString sample_env tricky_entries)
  = Some [ V1.headers;
           [ "plan, then build"; "2024-01-01T09:00Z"; "2024-01-01T11:30Z";
             "2h 30m";
             "He said, " ++ JS.chr JS.dquote ++ "hi" ++ JS.chr JS.dquote
             ++ JS.chr JS.LF ++ "bye" ];
           [ EmptyString; "Invalid Date"; EmptyString; "0h 0m"; EmptyString ] ].
Proof. vm_compute. reflexivity. Qed.

(* ================================================================== *)
(** * Further properties: the suggested task names *)

Section StringOrder.

Lemma string_leb_refl (a : string) : String.leb a a = true.
Proof. destruct (String.leb_total a a); assumption. Qed.

Lemma string_leb_trans (a b c : string) :
  String.leb a b = true -> String.leb b c = true -> String.leb a c = true.
Proof.
  unfold String.leb. revert b c.
  induction a as [|x a IH]; intros [|y b] [|z c]; cbn [String.compare];
    try (intros; reflexivity); try (intros; discriminate).
  unfold Ascii.compare.
  destruct (N.compare_spec (N_of_ascii x) (N_of_ascii y)) as [E1|L1|G1];
    destruct (N.compare_spec (N_of_ascii y) (N_of_ascii z)) as [E2|L2|G2];
    destruct (N.compare_spec (N_of_ascii x) (N_of_ascii z)) as [E3|L3|G3];
    try (intros; reflexivity); try (intros; discriminate);
    try (exfalso; lia).
  apply IH.
Qed.

End StringOrder.

Section Suggestions.

Lemma existsb_eqb_In (x : string) (l : list string) :
  existsb (String.eqb x) l = true <-> In x l.
Proof.
  rewrite existsb_exists. split.
  - intros (y & Hy & E). apply String.eqb_eq in E. subst y. exact Hy.
  - intros H. exists x. split; [exact H|apply String.eqb_refl].
Qed.

Lemma setAdd_In (members : list string) (x y : string) :
  In y (Form.setAdd members x) <-> In y members \/ y = x.
Proof.
  unfold Form.setAdd. destruct (existsb (String.eqb x) members) eqn:E.
  - apply existsb_eqb_In in E. split; [auto|]. intros [H| ->]; assumption.
  - rewrite in_app_iff. cbn. intuition.
Qed.

Lemma setAdd_NoDup (members : list string) (x : string) :
  NoDup members -> NoDup (Form.setAdd members x).
Proof.
  intros ND. unfold Form.setAdd.
  destruct (existsb (String.eqb x) members) eqn:E; [exact ND|].
  assert (Hx : ~ In x members).
  { intros H. apply existsb_eqb_In in H. rewrite H in E. discriminate. }
  clear E. induction members as [|y l IH]; cbn.
  - constructor; [intros []|constructor].
  - inversion ND as [|? ? Hy ND']; subst. constructor.
    + rewrite in_app_iff. cbn. intros [H|[H|[]]]; [auto|].
      apply Hx. left. symmetry. exact H.
    + apply IH; [exact ND'|]. intros H. apply Hx. right. exact H.
Qed.

Lemma fold_setAdd (xs members : list string) :
  (forall y, In y (fold_left Form.setAdd xs members) <-> In y members \/ In y xs)
  /\ (NoDup members -> NoDup (fold_left Form.setAdd xs members)).
Proof.
  revert members. induction xs as [|x xs IH]; intros members; cbn [fold_left].
  - split; [intros y; cbn; tauto|auto].
  - destruct (IH (Form.setAdd members x)) as [I N]. split.
    + intros y. rewrite I, setAdd_In. cbn. intuition.
    + intros ND. apply N, setAdd_NoDup, ND.
Qed.

Lemma uniq_In (xs : list string) (y : string) : In y (Form.uniq xs) <-> In y xs.
Proof.
  unfold Form.uniq. rewrite (proj1 (fold_setAdd xs [])). cbn. tauto.
Qed.

Lemma uniq_NoDup (xs : list string) : NoDup (Form.uniq xs).
Proof. apply (proj2 (fold_setAdd xs [])). constructor. Qed.

(** Adding the members of a duplicate-free list one by one rebuilds it. *)
Lemma fold_setAdd_fresh (xs members : list string) :
  NoDup (members ++ xs) ->
  fold_left Form.setAdd xs members = (members ++ xs)%list.
Proof.
  revert members. induction xs as [|x xs IH]; intros members ND;
    cbn [fold_left]; [rewrite app_nil_r; reflexivity|].
  assert (Hx : existsb (String.eqb x) members = false).
  { destruct (existsb (String.eqb x) members) eqn:E; [|reflexivity].
    apply existsb_eqb_In in E. apply NoDup_remove_2 in ND.
    exfalso. apply ND. apply in_or_app. left. exact E. }
  unfold Form.setAdd at 2. rewrite Hx.
  rewrite IH; rewrite <- app_assoc; [reflexivity|exact ND].
Qed.

Lemma uniq_fixed (xs : list string) : NoDup xs -> Form.uniq xs = xs.
Proof. intros ND. apply (fold_setAdd_fresh xs [] ND). Qed.

Lemma insert_perm (x : string) (l : list string) :
  Permutation (Form.insert x l) (x :: l).
Proof.
  induction l as [|y l IH]; cbn [Form.insert]; [reflexivity|].
  destruct (String.leb x y); [reflexivity|].
  rewrite IH. apply perm_swap.
Qed.

Lemma sort_perm (l : list string) : Permutation (Form.sort l) l.
Proof.
  induction l as [|x l IH]; cbn [Form.sort fold_right]; [reflexivity|].
  fold (Form.sort l). rewrite insert_perm, IH. reflexivity.
Qed.

Lemma insert_ascending (x : string) (l : list string) :
  Form.ascending l -> Form.ascending (Form.insert x l).
Proof.
  unfold Form.ascending. intros S.
  induction S as [|y l S IH Hy]; cbn [Form.insert].
  - constructor; constructor.
  - destruct (String.leb x y) eqn:E.
    + constructor; [constructor; assumption|].
      constructor; [exact E|].
      eapply Forall_impl; [|exact Hy]. cbn. intros z Hz.
      apply (string_leb_trans x y z); assumption.
    + constructor; [exact IH|].
      assert (Hyx : String.leb y x = true)
        by (destruct (String.leb_total x y) as [H|H];
            [rewrite H in E; discriminate|exact H]).
      apply Forall_forall. intros z Hz.
      apply (Permutation_in _ (insert_perm x l)) in Hz.
      destruct Hz as [<-|Hz]; [exact Hyx|].
      rewrite Forall_forall in Hy. apply Hy. exact Hz.
Qed.

Lemma sort_ascending (l : list string) : Form.ascending (Form.sort l).
Proof.
  induction l as [|x l IH]; cbn [Form.sort fold_right]; [constructor|].
  apply insert_ascending. exact IH.
Qed.

Lemma ascending_perm_eq (l1 : list string) :
  forall l2, Form.ascending l1 -> Form.ascending l2 -> Permutation l1 l2 ->
             l1 = l2.
Proof.
  unfold Form.ascending.
  induction l1 as [|x l1 IH]; intros l2 S1 S2 P.
  - apply Permutation_nil in P. subst l2. reflexivity.
  - destruct l2 as [|y l2];
      [apply Permutation_sym, Permutation_nil in P; discriminate|].
    apply StronglySorted_inv in S1. destruct S1 as [S1 H1].
    apply StronglySorted_inv in S2. destruct S2 as [S2 H2].
    rewrite Forall_forall in H1, H2.
    assert (E : x = y).
    { assert (Hy : In y (x :: l1))
        by (apply (Permutation_in _ (Permutation_sym P)); left; reflexivity).
      assert (Hx : In x (y :: l2))
        by (apply (Permutation_in _ P); left; reflexivity).
      destruct Hy as [Hy|Hy]; [exact Hy|].
      destruct Hx as [Hx|Hx]; [symmetry; exact Hx|].
      apply String.leb_antisym; [apply H1|apply H2]; assumption. }
    subst y. f_equal. apply IH; try assumption.
    apply (Permutation_cons_inv P).
Qed.

(** Sorting a list that is ascending already returns it. *)
Lemma sort_fixed (l : list string) : Form.ascending l -> Form.sort l = l.
Proof.
  intros S. apply ascending_perm_eq.
  - apply sort_ascending.
  - exact S.
  - apply sort_perm.
Qed.

End Suggestions.

(** Whatever algorithm sorts them, the result is determined: an ascending
    arrangement of given names is unique, so [sort()] returns the one
    ascending list with the same members as often. *)
Lemma sorted_arrangement_unique (l l' : list string) :
  Form.ascending l' -> Permutation l' l -> l' = Form.sort l.
Proof.
  intros S P. apply ascending_perm_eq.
  - exact S.
  - apply sort_ascending.
  - rewrite P. symmetry. apply sort_perm.
Qed.

(** The names that come out of [sort] and [uniq] are those that went in. *)
Lemma sort_uniq_In (xs : list string) (y : string) :
  In y (Form.sort (Form.uniq xs)) <-> In y xs.
Proof.
  split; intros H.
  - apply uniq_In. apply (Permutation_in _ (sort_perm _)). exact H.
  - apply (Permutation_in _ (Permutation_sym (sort_perm _))).
    apply uniq_In. exact H.
Qed.

Lemma sort_uniq_ascii (xs : list string) :
  Form.ascii_names xs = true ->
  Form.ascii_names (Form.sort (Form.uniq xs)) = true.
Proof.
  unfold Form.ascii_names. rewrite !forallb_forall. intros H y Hy.
  apply H, sort_uniq_In, Hy.
Qed.

(** X16.  After the task names have been fetched, the suggestions hold no
    name twice, and a name is suggested exactly when it is one of the
    predefined tasks or the name of a stored entry, names that are missing
    or empty left out; when the stored names are ASCII, so are the
    suggestions, and they are in ascending order. *)
Theorem fetched_suggestions (data : list JS.value) (before : list string) :
  let after := Form.fetchTasks false (Some data) before in
  NoDup after /\
  (forall name,
     In name after <->
     In name Form.PREDEFINED_TASKS \/
     exists v, In v data /\ JS.not v = false /\ JS.toStr v = name) /\
  (forallb (fun v => Form.ascii_only (JS.toStr v)) data = true ->
   Form.ascending after /\ Form.ascii_names after = true).
Proof.
  cbn [Form.fetchTasks]. unfold Form.uniqueTasks. split; [|split].
  - apply (Permutation_NoDup (Permutation_sym (sort_perm _))), uniq_NoDup.
  - intros name. rewrite sort_uniq_In, in_app_iff. split.
    + intros [H|H]; [left; exact H|].
      right. apply in_map_iff in H. destruct H as (v & E & Hv).
      apply filter_In in Hv. destruct Hv as [Hv T].
      exists v. repeat split; try assumption. apply negb_true_iff. exact T.
    + intros [H|(v & Hv & T & E)]; [left; exact H|].
      right. apply in_map_iff. exists v. split; [exact E|].
      apply filter_In. split; [exact Hv|]. rewrite T. reflexivity.
  - intros A. split; [apply sort_ascending|].
    apply sort_uniq_ascii. unfold Form.ascii_names.
    rewrite forallb_app. apply andb_true_iff. split; [reflexivity|].
    rewrite forallb_forall in A |- *. intros y Hy.
    apply in_map_iff in Hy. destruct Hy as (v & <- & Hv).
    apply filter_In in Hv. apply A, Hv.
Qed.

(** Three stored names, one of them predefined and one stored twice, next to
    a missing and an empty one. *)
Lemma fetched_suggestions_witness :
  Form.fetchTasks false
    (Some [JS.Str "standup"; JS.Null; JS.Str "Bug Fixing"; JS.Str EmptyString;
           JS.Str "Code review"; JS.Str "standup"]) []
  = [ "Bug Fixing"; "Code review"; "General Admin/Planning";
      "Meeting/Discussion"; "Presentation Preparation";
      "Project Report Writing"; "Prototype Programming";
      "Reading Papers/Theory"; "standup" ] /\
  Form.ascending
    (Form.fetchTasks false
       (Some [JS.Str "standup"; JS.Null; JS.Str "Bug Fixing";
              JS.Str EmptyString; JS.Str "Code review"; JS.Str "standup"]) []).
Proof.
  split; [reflexivity|].
  apply (proj2 (proj2 (fetched_suggestions
                         [JS.Str "standup"; JS.Null; JS.Str "Bug Fixing";
                          JS.Str EmptyString; JS.Str "Code review";
                          JS.Str "standup"] []))).
  reflexivity.
Defined.

(** X17.  A submit the store accepts adds the submitted task name to the
    suggestions, which hold no name twice, and clears the form and the
    timer; when the suggestions and the submitted name are ASCII, the new
    suggestions are ASCII and in ascending order.  A submit the store
    rejects, or one that throws, changes nothing in the form, so what was
    typed is still there. *)
Theorem submit_suggestions (st : Form.State) :
  let st' := fst (Form.handleSubmit Form.Inserted st) in
  (NoDup (Form.suggestedTasks st') /\
   (forall name, In name (Form.suggestedTasks st') <->
                 In name (Form.suggestedTasks st) \/ name = Form.taskName st) /\
   Form.taskName st' = EmptyString /\ Form.notes st' = EmptyString /\
   Form.startTime st' = EmptyString /\ Form.endTime st' = EmptyString /\
   Form.timerRunning st' = false /\
   (Form.ascii_names (Form.suggestedTasks st) = true ->
    Form.ascii_only (Form.taskName st) = true ->
    Form.ascending (Form.suggestedTasks st') /\
    Form.ascii_names (Form.suggestedTasks st') = true)) /\
  (forall message, fst (Form.handleSubmit (Form.Rejected message) st) = st) /\
  fst (Form.handleSubmit Form.Threw st) = st.
Proof.
  cbn [Form.handleSubmit fst Form.suggestedTasks Form.taskName Form.notes
       Form.startTime Form.endTime Form.timerRunning].
  repeat split.
  - apply (Permutation_NoDup (Permutation_sym (sort_perm _))), uniq_NoDup.
  - intros H. apply sort_uniq_In, in_app_or in H. cbn in H. intuition.
  - intros H. apply sort_uniq_In, in_or_app. cbn. intuition.
  - apply sort_ascending.
  - apply sort_uniq_ascii. unfold Form.ascii_names in *.
    rewrite forallb_app. cbn [forallb]. rewrite andb_true_r.
    apply andb_true_iff. split; assumption.
Qed.

(** A new name typed into the form after the fetch of an empty table. *)
Lemma submit_suggestions_witness :
  Form.ascending
    (Form.suggestedTasks
       (fst (Form.handleSubmit Form.Inserted
               {| Form.taskName := "Code review"; Form.notes := "first pass";
                  Form.startTime := EmptyString; Form.endTime := EmptyString;
                  Form.timerRunning := false; Form.timerStart := None;
                  Form.timerElapsed := JS.Int 0;
                  Form.suggestedTasks := Form.uniqueTasks [] |}))) /\
  In "Code review"
    (Form.suggestedTasks
       (fst (Form.handleSubmit Form.Inserted
               {| Form.taskName := "Code review"; Form.notes := "first pass";
                  Form.startTime := EmptyString; Form.endTime := EmptyString;
                  Form.timerRunning := false; Form.timerStart := None;
                  Form.timerElapsed := JS.Int 0;
                  Form.suggestedTasks := Form.uniqueTasks [] |}))).
Proof.
  destruct (submit_suggestions
              {| Form.taskName := "Code review"; Form.notes := "first pass";
                 Form.startTime := EmptyString; Form.endTime := EmptyString;
                 Form.timerRunning := false; Form.timerStart := None;
                 Form.timerElapsed := JS.Int 0;
                 Form.suggestedTasks := Form.uniqueTasks [] |})
    as [(_ & M & _ & _ & _ & _ & _ & A) _].
  split.
  - apply A; reflexivity.
  - apply M. right. reflexivity.
Defined.

(** X18.  Submitting a task name the suggestions already hold leaves them
    exactly as they were, once they are ASCII, ascending and free of
    duplicates (as they are after the fetch of ASCII names and after every
    accepted submit of one). *)
Theorem resubmit_known_task (st : Form.State) :
  Form.ascii_names (Form.suggestedTasks st) = true ->
  Form.ascending (Form.suggestedTasks st) ->
  NoDup (Form.suggestedTasks st) ->
  In (Form.taskName st) (Form.suggestedTasks st) ->
  Form.suggestedTasks (fst (Form.handleSubmit Form.Inserted st))
  = Form.suggestedTasks st.
Proof.
  intros _ S ND Hin. cbn [Form.handleSubmit fst Form.suggestedTasks].
  assert (E : Form.uniq (Form.suggestedTasks st ++ [Form.taskName st])
              = Form.suggestedTasks st).
  { unfold Form.uniq. rewrite fold_left_app. cbn [fold_left].
    fold (Form.uniq (Form.suggestedTasks st)). rewrite (uniq_fixed _ ND).
    unfold Form.setAdd.
    rewrite (proj2 (existsb_eqb_In _ _) Hin). reflexivity. }
  rewrite E. apply sort_fixed. exact S.
Qed.

Lemma resubmit_known_task_witness :
  Form.suggestedTasks
    (fst (Form.handleSubmit Form.Inserted
            {| Form.taskName := "Bug Fixing"; Form.notes := "again";
               Form.startTime := EmptyString; Form.endTime := EmptyString;
               Form.timerRunning := false; Form.timerStart := None;
               Form.timerElapsed := JS.Int 0;
               Form.suggestedTasks := Form.uniqueTasks [] |}))
  = Form.uniqueTasks [].
Proof.
  apply (resubmit_known_task
           {| Form.taskName := "Bug Fixing"; Form.notes := "again";
              Form.startTime := EmptyString; Form.endTime := EmptyString;
              Form.timerRunning := false; Form.timerStart := None;
              Form.timerElapsed := JS.Int 0;
              Form.suggestedTasks := Form.uniqueTasks [] |}).
  - reflexivity.
  - vm_compute. repeat constructor.
  - vm_compute. repeat constructor; cbn; intuition discriminate.
  - vm_compute. left. reflexivity.
Defined.

(* ================================================================== *)
(** * Further properties: the timer display *)

Section Clock.

Lemma two_digits_below_60 (k : Z) :
  0 <= k < 60 ->
  exists a b,
    Form.padStart 2 "0" (JS.numStr (JS.Int k)) = String a (String b EmptyString)
    /\ 0 <= Form.digit a <= 5 /\ 0 <= Form.digit b <= 9
    /\ 10 * Form.digit a + Form.digit b = k.
Proof.
  intros Hk.
  assert (All : forallb
            (fun n =>
               match Form.padStart 2 "0" (JS.numStr (JS.Int (Z.of_nat n))) with
               | String a (String b EmptyString) =>
                   (0 <=? Form.digit a) && (Form.digit a <=? 5)
                   && (0 <=? Form.digit b) && (Form.digit b <=? 9)
                   && (10 * Form.digit a + Form.digit b =? Z.of_nat n)
               | _ => false
               end)
            (seq 0 60) = true) by (vm_compute; reflexivity).
  rewrite forallb_forall in All.
  specialize (All (Z.to_nat k)). rewrite Z2Nat.id in All by lia.
  assert (Hin : In (Z.to_nat k) (seq 0 60)) by (apply in_seq; lia).
  specialize (All Hin).
  destruct (Form.padStart 2 "0" (JS.numStr (JS.Int k))) as [|a [|b [|c r]]];
    try discriminate.
  exists a, b. split; [reflexivity|].
  repeat (apply andb_true_iff in All; destruct All as [All ?]).
  lia.
Qed.

End Clock.

(** X19.  For an elapsed time that is not negative the timer shows the whole
    minutes, a colon, and exactly two digits that read as the seconds left
    over (0 to 59), so the display reads back to the elapsed seconds. *)
Theorem elapsed_display (seconds : Z) :
  0 <= seconds ->
  exists a b,
    Form.formatElapsed (JS.Int seconds)
      = JS.numStr (JS.Int (seconds / 60)) ++ ":" ++ String a (String b EmptyString)
    /\ 0 <= Form.digit a <= 5 /\ 0 <= Form.digit b <= 9
    /\ 60 * (seconds / 60) + (10 * Form.digit a + Form.digit b) = seconds.
Proof.
  intros H. unfold Form.formatElapsed. rewrite floor_div_int.
  cbn [JS.rem]. rewrite Z.rem_mod_nonneg by lia.
  destruct (two_digits_below_60 (seconds mod 60))
    as (a & b & E & Ha & Hb & Hv); [apply Z.mod_pos_bound; lia|].
  exists a, b. rewrite E. repeat split; try lia.
  pose proof (Z.div_mod seconds 60 ltac:(lia)). lia.
Qed.

Lemma elapsed_display_witness :
  exists a b,
    Form.formatElapsed (JS.Int 125)
      = JS.numStr (JS.Int (125 / 60)) ++ ":" ++ String a (String b EmptyString)
    /\ 0 <= Form.digit a <= 5 /\ 0 <= Form.digit b <= 9
    /\ 60 * (125 / 60) + (10 * Form.digit a + Form.digit b) = 125.
Proof. apply (elapsed_display 125). lia. Defined.

Example elapsed_display_example :
  Form.formatElapsed (JS.Int 125) = "2:05" /\
  Form.formatElapsed (JS.Int 3600) = "60:00" /\
  Form.formatElapsed (JS.Int 59) = "0:59".
Proof. repeat split. Qed.

(* ================================================================== *)
(** * Further properties: the export buttons *)

(** X23.  Through its button the exporter never meets an empty list: the
    button is disabled while the list is empty (or loading, or, in the
    earlier revision, while an error is shown), so a click either does
    nothing or downloads the file for the entries loaded; the alert of the
    earlier revision and the silent return of the later one are never
    reached from the page. *)
Theorem export_button_never_alerts
    (env : Env) (st1 : V1.State) (st2 : V2.State) :
  downloadAttr env = true ->
  (snd (Buttons.V1_click env st1) = [] \/
   (V1.logs st1 <> [] /\
    snd (Buttons.V1_click env st1) =
      [Download "time_logs.csv" "text/csv;charset=utf-8;"
                (V1.csvString env (V1.logs st1))])) /\
  Spec.signalled (snd (Buttons.V1_click env st1)) = false /\
  (snd (Buttons.V2_click env st2) = [] /\ Buttons.V2_disabled st2 = true \/
   (V2.logs st2 <> [] /\
    snd (Buttons.V2_click env st2) =
      [Download "time_logs.csv" "text/csv;charset=utf-8;"
                (V2.csvString env (V2.logs st2))])).
Proof.
  intros Hd.
  assert (A : snd (Buttons.V1_click env st1) = [] \/
              (V1.logs st1 <> [] /\
               snd (Buttons.V1_click env st1) =
                 [Download "time_logs.csv" "text/csv;charset=utf-8;"
                           (V1.csvString env (V1.logs st1))])).
  { unfold Buttons.V1_click, Buttons.V1_disabled.
    destruct (V1.loading st1); [left; reflexivity|].
    destruct (V1.logs st1) as [|log logs] eqn:E; [left; reflexivity|].
    cbn [List.length Nat.eqb orb].
    destruct (negb (JS.not (JS.Str (V1.error st1)))); [left; reflexivity|].
    right. split; [discriminate|].
    unfold V1.exportClick. cbn [snd]. rewrite E.
    apply V1_export_nonempty. exact Hd. }
  split; [exact A|]. split.
  - destruct A as [A|[_ A]]; rewrite A; reflexivity.
  - unfold Buttons.V2_click, Buttons.V2_disabled.
    destruct (V2.loading st2); [left; split; reflexivity|].
    destruct (V2.logs st2) as [|log logs] eqn:E; [left; split; reflexivity|].
    right. split; [discriminate|].
    cbn [List.length Nat.eqb orb]. unfold V2.handleExportCSV.
    rewrite E. reflexivity.
Qed.

Lemma export_button_never_alerts_witness :
  Spec.signalled (snd (Buttons.V1_click sample_env V1_empty)) = false /\
  snd (Buttons.V2_click sample_env V2_empty) = [].
Proof.
  destruct (export_button_never_alerts sample_env V1_empty V2_empty eq_refl)
    as (_ & S & [[E _]|[N _]]).
  - split; [exact S|exact E].
  - exfalso. apply N. reflexivity.
Defined.
